(** * pr_quality_dashboard.py: metric extraction, scoring and aggregation

    A shallow embedding of the engine of [pr_quality_dashboard.py] and the
    properties of its specification.

    Conventions of the embedding:
    - a Python [int] is a [Z];
    - a Python [float] is a real number ([R]): rounding, overflow and NaN
      are outside the model, and so is an [int] too large for a float
      (2**1024 or more), on which [math.log1p] and a division by a float
      raise [OverflowError];
    - [None] is the [None] of [option];
    - a raised exception is the [Raise] of [result], and a call that can
      raise lives in the [result] monad. *)

From Stdlib Require Import Reals Zfloor ZArith List String Ascii Bool Lia Lra.
From Stdlib Require Import Sorting Permutation.
Import ListNotations.

Local Open Scope string_scope.
Local Open Scope Z_scope.

(** ** Exceptions *)

Inductive exn : Type :=
| ValueError
| TypeError
| IndexError
| OverflowError
| StatisticsError.

Inductive result (A : Type) : Type :=
| Ok (a : A)
| Raise (e : exn).

Arguments Ok {A} a.
Arguments Raise {A} e.

Definition bind {A B : Type} (r : result A) (k : A -> result B) : result B :=
  match r with
  | Ok a => k a
  | Raise e => Raise e
  end.

Notation "x <- c ;; k" := (bind c (fun x => k))
  (at level 61, c at next level, right associativity).

(** ** ScoringEngine *)

Module Scoring.

(** The keys of the [metrics] dict that [score_pr] reads.  [churn_ratio] and
    the two durations may hold [None]. *)
Record PRMetrics : Type := mkMetrics {
  additions : Z;
  deletions : Z;
  files_changed : Z;
  review_rounds : Z;
  churn_ratio : option R;
  time_to_first_review_hours : option R;
  time_to_merge_hours : option R;
  ci_failed : bool
}.

(** [math.log1p]: a [ValueError] ("math domain error") at or below [-1]. *)
Definition log1p (x : R) : result R :=
  if Rlt_dec (-1) x then Ok (ln (1 + x)) else Raise ValueError.

(** [max(min_value, min(max_value, value))] *)
Definition clamp (value min_value max_value : R) : R :=
  Rmax min_value (Rmin max_value value).

(** [x or 0.0] on an optional float. *)
Definition or_zero (x : option R) : R :=
  match x with
  | Some v => v
  | None => 0%R
  end.

Definition size (m : PRMetrics) : Z := additions m + deletions m.

(** The normalised risks that need no logarithm. *)
Definition files_risk (m : PRMetrics) : R :=
  clamp (IZR (files_changed m) / 50) 0 1.

Definition review_rounds_risk (m : PRMetrics) : R :=
  clamp (IZR (review_rounds m) / 3) 0 1.

Definition churn_risk (m : PRMetrics) : R :=
  clamp (or_zero (churn_ratio m) / (5 / 10)) 0 1.

Definition tfr_risk (m : PRMetrics) : R :=
  match time_to_first_review_hours m with
  | None => (5 / 10)%R
  | Some h => clamp (h / 72) 0 1
  end.

Definition ttm_risk (m : PRMetrics) : R :=
  match time_to_merge_hours m with
  | None => (5 / 10)%R
  | Some h => clamp (h / 240) 0 1
  end.

Definition ci_risk (m : PRMetrics) : R :=
  if ci_failed m then 1%R else 0%R.

(** The [weights] dict. *)
Definition w_size : R := 20 / 100.
Definition w_files : R := 10 / 100.
Definition w_review_rounds : R := 20 / 100.
Definition w_churn : R := 15 / 100.
Definition w_time_to_first_review : R := 10 / 100.
Definition w_time_to_merge : R := 15 / 100.
Definition w_ci_fail : R := 10 / 100.

(** The weighted sum, given the size risk. *)
Definition risk_sum (size_risk : R) (m : PRMetrics) : R :=
  (size_risk * w_size
   + files_risk m * w_files
   + review_rounds_risk m * w_review_rounds
   + churn_risk m * w_churn
   + tfr_risk m * w_time_to_first_review
   + ttm_risk m * w_time_to_merge
   + ci_risk m * w_ci_fail)%R.

(** [score_pr]: the score and the dict of components, in insertion order. *)
Definition score_pr (m : PRMetrics) : result (R * list (string * R)) :=
  num <- log1p (IZR (size m)) ;;
  den <- log1p 2000 ;;
  let size_risk := clamp (num / den) 0 1 in
  let risk := risk_sum size_risk m in
  let score := clamp (100 * (1 - risk)) 0 100 in
  let components :=
    [ ("size_risk", size_risk);
      ("files_risk", files_risk m);
      ("review_rounds_risk", review_rounds_risk m);
      ("churn_risk", churn_risk m);
      ("tfr_risk", tfr_risk m);
      ("ttm_risk", ttm_risk m);
      ("ci_risk", ci_risk m) ] in
  Ok (score, components).

(** The value [score_pr] returns when the logarithm is defined. *)
Definition size_risk_of (m : PRMetrics) : R :=
  clamp (ln (1 + IZR (size m)) / ln (1 + 2000)) 0 1.

Definition score_of (m : PRMetrics) : R :=
  clamp (100 * (1 - risk_sum (size_risk_of m) m)) 0 100.

Definition components_of (m : PRMetrics) : list (string * R) :=
  [ ("size_risk", size_risk_of m);
    ("files_risk", files_risk m);
    ("review_rounds_risk", review_rounds_risk m);
    ("churn_risk", churn_risk m);
    ("tfr_risk", tfr_risk m);
    ("ttm_risk", ttm_risk m);
    ("ci_risk", ci_risk m) ].

(** A metrics record as the data model describes it. *)
Definition opt_holds (P : R -> Prop) (x : option R) : Prop :=
  match x with
  | Some v => P v
  | None => True
  end.

Record valid_metrics (m : PRMetrics) : Prop := mkValid {
  valid_additions : 0 <= additions m;
  valid_deletions : 0 <= deletions m;
  valid_files : 0 <= files_changed m;
  valid_rounds : 0 <= review_rounds m;
  valid_churn : opt_holds (fun c => 0 <= c <= 1)%R (churn_ratio m);
  valid_tfr : opt_holds (fun h => 0 <= h)%R (time_to_first_review_hours m);
  valid_ttm : opt_holds (fun h => 0 <= h)%R (time_to_merge_hours m)
}.

(** One risk input raised, every other key of the dict unchanged. *)
Definition with_size (m : PRMetrics) (a d : Z) : PRMetrics :=
  mkMetrics a d (files_changed m) (review_rounds m) (churn_ratio m)
    (time_to_first_review_hours m) (time_to_merge_hours m) (ci_failed m).

Definition with_files (m : PRMetrics) (f : Z) : PRMetrics :=
  mkMetrics (additions m) (deletions m) f (review_rounds m) (churn_ratio m)
    (time_to_first_review_hours m) (time_to_merge_hours m) (ci_failed m).

Definition with_rounds (m : PRMetrics) (r : Z) : PRMetrics :=
  mkMetrics (additions m) (deletions m) (files_changed m) r (churn_ratio m)
    (time_to_first_review_hours m) (time_to_merge_hours m) (ci_failed m).

Definition with_churn (m : PRMetrics) (c : option R) : PRMetrics :=
  mkMetrics (additions m) (deletions m) (files_changed m) (review_rounds m) c
    (time_to_first_review_hours m) (time_to_merge_hours m) (ci_failed m).

Definition with_tfr (m : PRMetrics) (h : option R) : PRMetrics :=
  mkMetrics (additions m) (deletions m) (files_changed m) (review_rounds m)
    (churn_ratio m) h (time_to_merge_hours m) (ci_failed m).

Definition with_ttm (m : PRMetrics) (h : option R) : PRMetrics :=
  mkMetrics (additions m) (deletions m) (files_changed m) (review_rounds m)
    (churn_ratio m) (time_to_first_review_hours m) h (ci_failed m).

Definition with_ci (m : PRMetrics) (b : bool) : PRMetrics :=
  mkMetrics (additions m) (deletions m) (files_changed m) (review_rounds m)
    (churn_ratio m) (time_to_first_review_hours m) (time_to_merge_hours m) b.

Inductive risk_step (m : PRMetrics) : PRMetrics -> Prop :=
| step_size a d :
    size m <= a + d -> risk_step m (with_size m a d)
| step_files f :
    files_changed m <= f -> risk_step m (with_files m f)
| step_rounds r :
    review_rounds m <= r -> risk_step m (with_rounds m r)
| step_churn c c' :
    churn_ratio m = Some c -> (c <= c')%R ->
    risk_step m (with_churn m (Some c'))
| step_tfr h h' :
    time_to_first_review_hours m = Some h -> (h <= h')%R ->
    risk_step m (with_tfr m (Some h'))
| step_ttm h h' :
    time_to_merge_hours m = Some h -> (h <= h')%R ->
    risk_step m (with_ttm m (Some h'))
| step_ci :
    ci_failed m = false -> risk_step m (with_ci m true).

(** Example A of the specification, for any split of the 150 changed lines. *)
Definition example_A (a d : Z) : PRMetrics :=
  mkMetrics a d 5 0 (Some 0%R) (Some 2%R) (Some 10%R) false.

End Scoring.

(** ** [datetime] *)

Module Datetime.

(** A [datetime.datetime]: the reading of its calendar and clock fields, as
    microseconds counted from the start of proleptic Gregorian day 0 (day 1
    is 0001-01-01, as for [date.toordinal]), and its [tzinfo]: [None] for a
    naive value, else the UTC offset in microseconds. *)
Record datetime : Type := mkDatetime {
  wall : Z;
  utcoffset : option Z
}.

Definition us_per_second : Z := 1000000.
Definition us_per_day : Z := 86400 * us_per_second.

(** *** The calendar of [datetime.py] *)

Definition is_leap (year : Z) : bool :=
  (year mod 4 =? 0) && (negb (year mod 100 =? 0) || (year mod 400 =? 0)).

Definition days_before_year (year : Z) : Z :=
  let y := year - 1 in y * 365 + y / 4 - y / 100 + y / 400.

Definition days_in_month (year month : Z) : Z :=
  if (month =? 2) && is_leap year then 29
  else nth (Z.to_nat month) [0; 31; 28; 31; 30; 31; 30; 31; 31; 30; 31; 30; 31] 0.

Definition DAYS_BEFORE_MONTH : list Z :=
  [0; 0; 31; 59; 90; 120; 151; 181; 212; 243; 273; 304; 334].

Definition days_before_month (year month : Z) : Z :=
  nth (Z.to_nat month) DAYS_BEFORE_MONTH 0
  + (if (2 <? month) && is_leap year then 1 else 0).

Definition ymd2ord (year month day : Z) : Z :=
  days_before_year year + days_before_month year month + day.

(** [_ord2ymd] *)
Definition ord2ymd (ordinal : Z) : Z * Z * Z :=
  let n := ordinal - 1 in
  let n400 := n / 146097 in
  let n := n mod 146097 in
  let year := n400 * 400 + 1 in
  let n100 := n / 36524 in
  let n := n mod 36524 in
  let n4 := n / 1461 in
  let n := n mod 1461 in
  let n1 := n / 365 in
  let n := n mod 365 in
  let year := year + n100 * 100 + n4 * 4 + n1 in
  if (n1 =? 4) || (n100 =? 4) then (year - 1, 12, 31)
  else
    let leapyear := (n1 =? 3) && (negb (n4 =? 24) || (n100 =? 3)) in
    let month := Z.shiftr (n + 50) 5 in
    let preceding :=
      nth (Z.to_nat month) DAYS_BEFORE_MONTH 0
      + (if (2 <? month) && leapyear then 1 else 0) in
    if n <? preceding then
      let month := month - 1 in
      let preceding :=
        preceding
        - (nth (Z.to_nat month) [0; 31; 28; 31; 30; 31; 30; 31; 31; 30; 31; 30; 31] 0
           + (if (month =? 2) && leapyear then 1 else 0)) in
      (year, month, n - preceding + 1)
    else (year, month, n - preceding + 1).

Definition toordinal (d : datetime) : Z := wall d / us_per_day.

Definition ymd (d : datetime) : Z * Z * Z := ord2ymd (toordinal d).

Definition hour (d : datetime) : Z := (wall d mod us_per_day) / (3600 * us_per_second).
Definition minute (d : datetime) : Z := (wall d / (60 * us_per_second)) mod 60.

Definition of_fields (year month day h mi s us : Z) (tz : option Z) : datetime :=
  mkDatetime
    ((ymd2ord year month day * 86400 + h * 3600 + mi * 60 + s) * us_per_second + us)
    tz.

(** [date.min] to [date.max]: the years 1 to 9999. *)
Definition in_range (w : Z) : bool :=
  (us_per_day <=? w) && (w <? (3652059 + 1) * us_per_day).

(** *** Comparison and difference

    Two naive values compare by their fields, two aware values by their
    instants; an order comparison or a difference of a naive and an aware
    value is a [TypeError]. *)
Definition compare (a b : datetime) : result comparison :=
  match utcoffset a, utcoffset b with
  | None, None => Ok (wall a ?= wall b)
  | Some oa, Some ob => Ok (wall a - oa ?= wall b - ob)
  | _, _ => Raise TypeError
  end.

Definition lt (a b : datetime) : result bool :=
  c <- compare a b ;; Ok (match c with Lt => true | _ => false end).

Definition gt (a b : datetime) : result bool :=
  c <- compare a b ;; Ok (match c with Gt => true | _ => false end).

Definition ge (a b : datetime) : result bool :=
  c <- compare a b ;; Ok (match c with Lt => false | _ => true end).

(** [a - b], a [timedelta] in microseconds. *)
Definition sub (a b : datetime) : result Z :=
  match utcoffset a, utcoffset b with
  | None, None => Ok (wall a - wall b)
  | Some oa, Some ob => Ok ((wall a - oa) - (wall b - ob))
  | _, _ => Raise TypeError
  end.

(** [delta.total_seconds() / 3600] *)
Definition hours (delta : Z) : R := (IZR delta / 1000000 / 3600)%R.

(** [dt.timedelta(days=n)]: at most 999999999 days either way. *)
Definition timedelta_days (n : Z) : result Z :=
  if (-999999999 <=? n) && (n <=? 999999999) then Ok (n * us_per_day)
  else Raise OverflowError.

(** [a - delta] *)
Definition sub_delta (a : datetime) (delta : Z) : result datetime :=
  let w := wall a - delta in
  if in_range w then Ok (mkDatetime w (utcoffset a)) else Raise OverflowError.

(** [min(times)] on a non-empty list: the first of the least elements. *)
Fixpoint min_from (best : datetime) (times : list datetime) : result datetime :=
  match times with
  | [] => Ok best
  | t :: rest =>
      b <- lt t best ;;
      min_from (if b then t else best) rest
  end.

(** *** [isocalendar] *)

Definition isoweek1monday (year : Z) : Z :=
  let firstday := ymd2ord year 1 1 in
  let firstweekday := (firstday + 6) mod 7 in
  let week1monday := firstday - firstweekday in
  if 3 <? firstweekday then week1monday + 7 else week1monday.

Definition isocalendar (d : datetime) : Z * Z * Z :=
  let '(year, _, _) := ymd d in
  let today := toordinal d in
  let week1monday := isoweek1monday year in
  let week := (today - week1monday) / 7 in
  let day := (today - week1monday) mod 7 in
  if week <? 0 then
    let year := year - 1 in
    let week1monday := isoweek1monday year in
    (year, (today - week1monday) / 7 + 1, (today - week1monday) mod 7 + 1)
  else if (52 <=? week) && (isoweek1monday (year + 1) <=? today) then
    (year + 1, 1, day + 1)
  else (year, week + 1, day + 1).

(** *** Decimal text *)

Definition digit_char (d : Z) : ascii := ascii_of_nat (Z.to_nat (48 + d)).

Fixpoint decimal_fuel (fuel : nat) (n : Z) (acc : string) : string :=
  match fuel with
  | O => acc
  | S fuel' =>
      let acc' := String (digit_char (n mod 10)) acc in
      if n / 10 =? 0 then acc' else decimal_fuel fuel' (n / 10) acc'
  end.

(** [str(n)] for [0 <= n]. *)
Definition decimal (n : Z) : string :=
  decimal_fuel (S (Z.to_nat (Z.log2 n))) n "".

Fixpoint zeros (k : nat) : string :=
  match k with
  | O => ""
  | S k' => String "0" (zeros k')
  end.

(** [f"{n:0{width}d}"] for [0 <= n]. *)
Definition zero_pad (width : nat) (n : Z) : string :=
  let s := decimal n in
  zeros (width - String.length s) ++ s.

(** [value.strftime("%Y-%m-%d %H:%M UTC")] *)
Definition strftime_minutes (d : datetime) : string :=
  let '(y, m, dd) := ymd d in
  zero_pad 4 y ++ "-" ++ zero_pad 2 m ++ "-" ++ zero_pad 2 dd ++ " "
  ++ zero_pad 2 (hour d) ++ ":" ++ zero_pad 2 (minute d) ++ " UTC".

(** *** [datetime.fromisoformat]

    The format of Python 3.7 to 3.10, which the [replace("Z", "+00:00")] of
    [parse_iso8601] is written for:
    [YYYY-MM-DD[*HH[:MM[:SS[.fff[fff]]]][+HH:MM[:SS[.ffffff]]]]].  A string
    outside the format is a [ValueError]; a string without an offset gives a
    naive value. *)

Definition digit (c : ascii) : option Z :=
  let n := Z.of_nat (nat_of_ascii c) in
  if (48 <=? n) && (n <=? 57) then Some (n - 48) else None.

Fixpoint digits (n : nat) (s : string) (acc : Z) : option (Z * string) :=
  match n with
  | O => Some (acc, s)
  | S n' =>
      match s with
      | String c s' =>
          match digit c with
          | Some d => digits n' s' (10 * acc + d)
          | None => None
          end
      | EmptyString => None
      end
  end.

Definition expect (c : ascii) (s : string) : option string :=
  match s with
  | String c' s' => if Ascii.eqb c c' then Some s' else None
  | EmptyString => None
  end.

(** [.fff] or [.ffffff], to microseconds. *)
Definition parse_fraction (s : string) : option Z :=
  match expect "." s with
  | None => None
  | Some f =>
      match String.length f with
      | 3%nat =>
          match digits 3 f 0 with
          | Some (v, _) => Some (v * 1000)
          | None => None
          end
      | 6%nat =>
          match digits 6 f 0 with
          | Some (v, _) => Some v
          | None => None
          end
      | _ => None
      end
  end.

(** [HH[:MM[:SS[.fff[fff]]]]], the whole of [s]. *)
Definition parse_hh_mm_ss_ff (s : string) : option (Z * Z * Z * Z) :=
  match digits 2 s 0 with
  | None => None
  | Some (h, EmptyString) => Some (h, 0, 0, 0)
  | Some (h, r1) =>
      match expect ":" r1 with
      | None => None
      | Some r2 =>
          match digits 2 r2 0 with
          | None => None
          | Some (mi, EmptyString) => Some (h, mi, 0, 0)
          | Some (mi, r3) =>
              match expect ":" r3 with
              | None => None
              | Some r4 =>
                  match digits 2 r4 0 with
                  | None => None
                  | Some (sec, EmptyString) => Some (h, mi, sec, 0)
                  | Some (sec, r5) =>
                      match parse_fraction r5 with
                      | Some us => Some (h, mi, sec, us)
                      | None => None
                      end
                  end
              end
          end
      end
  end.

(** Split a time string at its first [+] or [-]. *)
Fixpoint split_tz (s : string) : string * option (bool * string) :=
  match s with
  | EmptyString => (EmptyString, None)
  | String c s' =>
      if Ascii.eqb c "+" then (EmptyString, Some (false, s'))
      else if Ascii.eqb c "-" then (EmptyString, Some (true, s'))
      else let '(t, tz) := split_tz s' in (String c t, tz)
  end.

(** The offset after the sign: [HH:MM], [HH:MM:SS] or [HH:MM:SS.ffffff],
    strictly inside a day. *)
Definition parse_offset (negative : bool) (s : string) : option Z :=
  match String.length s with
  | 5%nat | 8%nat | 15%nat =>
      match parse_hh_mm_ss_ff s with
      | Some (h, mi, sec, us) =>
          let off := (h * 3600 + mi * 60 + sec) * us_per_second + us in
          if off <? us_per_day then Some (if negative then - off else off)
          else None
      | None => None
      end
  | _ => None
  end.

Definition parse_date (s : string) : option (Z * Z * Z * string) :=
  match digits 4 s 0 with
  | None => None
  | Some (y, r1) =>
      match expect "-" r1 with
      | None => None
      | Some r2 =>
          match digits 2 r2 0 with
          | None => None
          | Some (m, r3) =>
              match expect "-" r3 with
              | None => None
              | Some r4 =>
                  match digits 2 r4 0 with
                  | None => None
                  | Some (d, r5) =>
                      if (1 <=? y) && (1 <=? m) && (m <=? 12) && (1 <=? d)
                         && (d <=? days_in_month y m)
                      then Some (y, m, d, r5) else None
                  end
              end
          end
      end
  end.

Definition fromisoformat (s : string) : result datetime :=
  match parse_date s with
  | None => Raise ValueError
  | Some (y, m, d, EmptyString) => Ok (of_fields y m d 0 0 0 0 None)
  | Some (y, m, d, String _ tstr) =>
      let '(t, tz) := split_tz tstr in
      match parse_hh_mm_ss_ff t with
      | None => Raise ValueError
      | Some (h, mi, sec, us) =>
          if (h <? 24) && (mi <? 60) && (sec <? 60) then
            match tz with
            | None => Ok (of_fields y m d h mi sec us None)
            | Some (negative, o) =>
                match parse_offset negative o with
                | Some off => Ok (of_fields y m d h mi sec us (Some off))
                | None => Raise ValueError
                end
            end
          else Raise ValueError
      end
  end.

(** [value.replace("Z", "+00:00")] *)
Fixpoint replace_Z (s : string) : string :=
  match s with
  | EmptyString => EmptyString
  | String c s' =>
      if Ascii.eqb c "Z" then "+00:00" ++ replace_Z s'
      else String c (replace_Z s')
  end.

End Datetime.

(** [parse_iso8601]: [None] on [None] and on the empty string. *)
Definition parse_iso8601 (value : option string)
  : result (option Datetime.datetime) :=
  match value with
  | None => Ok None
  | Some EmptyString => Ok None
  | Some v =>
      d <- Datetime.fromisoformat (Datetime.replace_Z v) ;;
      Ok (Some d)
  end.

(** A timezone-aware value, and an optional timestamp string that parses to
    [None] or to an aware value, as the timestamps of the API do. *)
Definition aware (d : Datetime.datetime) : Prop :=
  Datetime.utcoffset d <> None.

Definition parses_aware (v : option string) : Prop :=
  exists t, parse_iso8601 v = Ok t /\ forall d, t = Some d -> aware d.

(** [iso_week_key] *)
Definition iso_week_key (value : Datetime.datetime) : string :=
  let '(year, week, _) := Datetime.isocalendar value in
  Datetime.decimal year ++ "-W" ++ Datetime.zero_pad 2 week.

(** ** Lists, as Python has them *)

Module PyList.

(** The stable insertion sort behind [sorted]: [le x y] says that [x] may
    stand before [y]. *)
Fixpoint insert {A : Type} (le : A -> A -> bool) (x : A) (l : list A) : list A :=
  match l with
  | [] => [x]
  | y :: l' => if le x y then x :: l else y :: insert le x l'
  end.

Definition sort_by {A : Type} (le : A -> A -> bool) (l : list A) : list A :=
  fold_right (insert le) [] l.

(** [l[i]]: a negative index counts from the end, and an index outside the
    list is an [IndexError]. *)
Definition get {A : Type} (l : list A) (i : Z) : result A :=
  let n := Z.of_nat (List.length l) in
  let j := if i <? 0 then i + n else i in
  if (0 <=? j) && (j <? n) then
    match nth_error l (Z.to_nat j) with
    | Some x => Ok x
    | None => Raise IndexError
    end
  else Raise IndexError.

(** [l[:n]] *)
Definition take {A : Type} (n : Z) (l : list A) : list A :=
  if n <? 0 then firstn (Z.to_nat (Z.of_nat (List.length l) + n)) l
  else firstn (Z.to_nat n) l.

(** [[x for x in l if f(x)]] when the test can raise. *)
Fixpoint filter_r {A : Type} (f : A -> result bool) (l : list A)
  : result (list A) :=
  match l with
  | [] => Ok []
  | x :: l' =>
      b <- f x ;;
      rest <- filter_r f l' ;;
      Ok (if b then x :: rest else rest)
  end.

(** [[f(x) for x in l if f(x) is not None]] *)
Fixpoint keep_some {A B : Type} (f : A -> option B) (l : list A) : list B :=
  match l with
  | [] => []
  | x :: l' =>
      match f x with
      | Some y => y :: keep_some f l'
      | None => keep_some f l'
      end
  end.

(** [sum(1 for x in l if f(x))] *)
Definition count {A : Type} (f : A -> bool) (l : list A) : Z :=
  Z.of_nat (List.length (filter f l)).

End PyList.

(** ** Aggregation: [sorted], [median], [percentile] *)

Module Stats.

Definition Rleb (x y : R) : bool := if Rle_dec x y then true else false.
Definition Rltb (x y : R) : bool := if Rlt_dec x y then true else false.

(** [sorted(values)] on floats. *)
Definition sorted (values : list R) : list R := PyList.sort_by Rleb values.

(** [math.floor], [math.ceil] and [int] on a float. *)
Definition floor (k : R) : Z := Zfloor k.
Definition ceil (k : R) : Z := Zceil k.
Definition trunc (k : R) : Z := if Rle_dec 0 k then floor k else ceil k.

Definition percentile (values : list R) (pct : R) : result (option R) :=
  match values with
  | [] => Ok None
  | [x] => Ok (Some x)
  | _ =>
      let values_sorted := sorted values in
      let k := (IZR (Z.of_nat (List.length values_sorted) - 1) * (pct / 100))%R in
      let f := floor k in
      let c := ceil k in
      if f =? c then
        v <- PyList.get values_sorted (trunc k) ;;
        Ok (Some v)
      else
        v0 <- PyList.get values_sorted f ;;
        v1 <- PyList.get values_sorted c ;;
        let d0 := (v0 * (IZR c - k))%R in
        let d1 := (v1 * (k - IZR f))%R in
        Ok (Some (d0 + d1)%R)
  end.

(** [statistics.median]: the middle of the sorted data, the mean of the two
    middle values when there are two, a [StatisticsError] on no data. *)
Definition median (data : list R) : result R :=
  let data := sorted data in
  let n := Z.of_nat (List.length data) in
  if n =? 0 then Raise StatisticsError
  else if n mod 2 =? 1 then PyList.get data (n / 2)
  else
    let i := n / 2 in
    a <- PyList.get data (i - 1) ;;
    b <- PyList.get data i ;;
    Ok ((a + b) / 2)%R.

Definition safe_median (values : list R) : result (option R) :=
  match values with
  | [] => Ok None
  | _ => m <- median values ;; Ok (Some m)
  end.

(** The median of an odd number of values, as the value in the middle: the
    values can be arranged with as many before it as after it, none before
    it greater, none after it smaller. *)
Definition middle_of (x : R) (values : list R) : Prop :=
  exists lower upper,
    Permutation values (lower ++ x :: upper)
    /\ List.length lower = List.length upper
    /\ Forall (fun v => (v <= x)%R) lower
    /\ Forall (fun v => (x <= v)%R) upper.

(** The number of values above [x]. *)
Definition count_above (x : R) (values : list R) : nat :=
  List.length (filter (Rltb x) values).

End Stats.

(** ** MetricExtractor *)

Module Extract.

(** A review of the reviews endpoint: [review.get("user")]'s login,
    [review.get("state")] and [review.get("submitted_at")]. *)
Record RawReview : Type := mkReview {
  review_login : option string;
  review_state : option string;
  submitted_at : option string
}.

(** A commit of the PR with what the engine fetches for it: the [stats] of
    the commit details, the committer date, the conclusions of its check
    runs and the state of its combined status; for the last two [None] is a
    request that failed with [HTTPError]. *)
Record RawCommit : Type := mkCommit {
  stats : option (Z * Z);
  committer_date : option string;
  check_runs : option (list (option string));
  status_state : option (option string)
}.

Definition compute_review_rounds (reviews : list RawReview) : Z :=
  PyList.count
    (fun review =>
       match review_state review with
       | Some st => String.eqb st "CHANGES_REQUESTED"
       | None => false
       end)
    reviews.

Definition is_author (review : RawReview) (author : string) : bool :=
  match review_login review with
  | Some login => String.eqb login author
  | None => false
  end.

(** The loop of [compute_first_review_time], [times] being the list built
    so far. *)
Fixpoint first_review_loop (reviews : list RawReview) (author : string)
    (times : list Datetime.datetime) : result (list Datetime.datetime) :=
  match reviews with
  | [] => Ok times
  | review :: rest =>
      if is_author review author then first_review_loop rest author times
      else
        submitted <- parse_iso8601 (submitted_at review) ;;
        match submitted with
        | Some t => first_review_loop rest author (times ++ [t])%list
        | None => first_review_loop rest author times
        end
  end.

Definition compute_first_review_time (reviews : list RawReview)
    (author : string) : result (option Datetime.datetime) :=
  times <- first_review_loop reviews author [] ;;
  match times with
  | [] => Ok None
  | t :: rest => m <- Datetime.min_from t rest ;; Ok (Some m)
  end.

(** A review whose [submitted_at] is missing or empty. *)
Definition unsubmitted (review : RawReview) : Prop :=
  submitted_at review = None \/ submitted_at review = Some "".

(** A review that [compute_first_review_time] reads without an exception:
    one by the author, or one whose [submitted_at] parses. *)
Definition well_submitted (author : string) (review : RawReview) : Prop :=
  is_author review author = true \/ parses_aware (submitted_at review).

(** [stats.get("additions", 0) + stats.get("deletions", 0)] *)
Definition commit_changes (commit : RawCommit) : Z :=
  match stats commit with
  | Some (a, d) => a + d
  | None => 0
  end.

(** The loop of [compute_churn_ratio] over the commits it examines. *)
Fixpoint churn_loop (commits : list RawCommit)
    (first_review_time : option Datetime.datetime)
    (total_changes after_review_changes : Z) : result (Z * Z) :=
  match commits with
  | [] => Ok (total_changes, after_review_changes)
  | commit :: rest =>
      let total_changes := total_changes + commit_changes commit in
      commit_time <- parse_iso8601 (committer_date commit) ;;
      after_review_changes <-
        match first_review_time, commit_time with
        | Some frt, Some ct =>
            later <- Datetime.gt ct frt ;;
            Ok (if later then after_review_changes + commit_changes commit
                else after_review_changes)
        | _, _ => Ok after_review_changes
        end ;;
      churn_loop rest first_review_time total_changes after_review_changes
  end.

(** The commits before [idx >= max_commits_check] breaks the loop. *)
Definition examined (commits : list RawCommit) (max_commits_check : Z)
  : list RawCommit :=
  firstn (Z.to_nat max_commits_check) commits.

Definition compute_churn_ratio (commits : list RawCommit)
    (first_review_time : option Datetime.datetime) (max_commits_check : Z)
  : result (option R) :=
  match commits with
  | [] => Ok None
  | _ =>
      totals <- churn_loop (examined commits max_commits_check)
                  first_review_time 0 0 ;;
      let '(total_changes, after_review_changes) := totals in
      if total_changes =? 0 then Ok (Some 0%R)
      else Ok (Some (IZR after_review_changes / IZR total_changes)%R)
  end.

Definition in_strings (x : option string) (l : list string) : bool :=
  match x with
  | Some s => existsb (String.eqb s) l
  | None => false
  end.

Definition commit_failed (commit : RawCommit) : bool :=
  let runs := match check_runs commit with Some rs => rs | None => [] end in
  existsb
    (fun conclusion =>
       in_strings conclusion
         ["failure"; "cancelled"; "timed_out"; "action_required"])
    runs
  || match status_state commit with
     | Some state => in_strings state ["failure"; "error"]
     | None => false
     end.

Definition compute_ci_failed (commits : list RawCommit)
    (max_commits_check : Z) : bool :=
  existsb commit_failed (examined commits max_commits_check).

(** What the theorems on [compute_churn_ratio] ask of its input: counts
    that are not negative, and committer dates that parse and can be
    compared with the first review time. *)
Definition comparable (a : option Datetime.datetime)
    (b : option Datetime.datetime) : Prop :=
  match a, b with
  | Some x, Some y =>
      (Datetime.utcoffset x = None <-> Datetime.utcoffset y = None)
  | _, _ => True
  end.

Definition well_formed_commit (first_review_time : option Datetime.datetime)
    (commit : RawCommit) : Prop :=
  match stats commit with
  | Some (a, d) => 0 <= a /\ 0 <= d
  | None => True
  end
  /\ exists t, parse_iso8601 (committer_date commit) = Ok t
               /\ comparable first_review_time t.

(** A commit dated after the first review: there is a first review time,
    the committer date parses to a time, and [commit_time >
    first_review_time] holds. *)
Definition dated_after (first_review_time : option Datetime.datetime)
    (commit : RawCommit) : Prop :=
  exists frt ct,
    first_review_time = Some frt
    /\ parse_iso8601 (committer_date commit) = Ok (Some ct)
    /\ Datetime.gt ct frt = Ok true.

(** The total of the line changes of a list of commits. *)
Definition total_changes_of (commits : list RawCommit) : Z :=
  fold_right (fun c acc => commit_changes c + acc) 0 commits.

End Extract.

(** ** Scored PRs, DeltaCalculator *)

Module Deltas.

(** A [pr_entry] of [main]. *)
Record ScoredPR : Type := mkScoredPR {
  pr_number : Z;
  pr_title : string;
  pr_url : option string;
  pr_author : string;
  pr_score : R;
  pr_ci_failed : bool;
  pr_additions : Z;
  pr_deletions : Z;
  pr_files_changed : Z;
  pr_review_rounds : Z;
  pr_churn_ratio : option R;
  pr_time_to_first_review_hours : option R;
  pr_time_to_merge_hours : option R;
  pr_merged_at : option Datetime.datetime;
  pr_size : Z
}.

(** The text [fmt.format(x)], kept as the format and the number it renders:
    the rendering of a float is outside the model. *)
Inductive formatted : Type :=
| Format (fmt : string) (x : R).

Record DeltaRecord : Type := mkDelta {
  label : string;
  before : option formatted;
  after : option formatted;
  delta : option formatted
}.

Definition format_delta (before after : option R) (fmt : string)
  : option formatted * option formatted * option formatted :=
  match before, after with
  | Some b, Some a =>
      let delta := (a - b)%R in
      (Some (Format fmt b), Some (Format fmt a), Some (Format fmt delta))
  | _, _ => (None, None, None)
  end.

(** The tests of the two list comprehensions of [build_deltas]. *)
Definition merged_before (adoption_date : Datetime.datetime) (pr : ScoredPR)
  : result bool :=
  match pr_merged_at pr with
  | None => Ok false
  | Some m => Datetime.lt m adoption_date
  end.

Definition merged_since (adoption_date : Datetime.datetime) (pr : ScoredPR)
  : result bool :=
  match pr_merged_at pr with
  | None => Ok false
  | Some m => Datetime.ge m adoption_date
  end.

(** The values under the keys that [median_of] is called with. *)
Definition key_score (pr : ScoredPR) : option R := Some (pr_score pr).
Definition key_churn_ratio (pr : ScoredPR) : option R := pr_churn_ratio pr.
Definition key_size (pr : ScoredPR) : option R := Some (IZR (pr_size pr)).

Definition median_of (key : ScoredPR -> option R) (values : list ScoredPR)
  : result (option R) :=
  let filtered := PyList.keep_some key values in
  match filtered with
  | [] => Ok None
  | _ => Stats.safe_median filtered
  end.

Definition rate_of (key : ScoredPR -> bool) (values : list ScoredPR)
  : option R :=
  match values with
  | [] => None
  | _ =>
      let count := PyList.count key values in
      Some (IZR count / IZR (Z.of_nat (List.length values)))%R
  end.

Definition delta_record (name : string)
    (fields : option formatted * option formatted * option formatted)
  : DeltaRecord :=
  let '(b, a, d) := fields in mkDelta name b a d.

Definition build_deltas (prs : list ScoredPR)
    (adoption_date : option Datetime.datetime) : result (list DeltaRecord) :=
  match adoption_date with
  | None =>
      Ok [ mkDelta "Median Score" None None None;
           mkDelta "CI Fail Rate" None None None;
           mkDelta "Median Churn" None None None;
           mkDelta "Median Size" None None None ]
  | Some adoption =>
      before_prs <- PyList.filter_r (merged_before adoption) prs ;;
      after_prs <- PyList.filter_r (merged_since adoption) prs ;;
      before_score <- median_of key_score before_prs ;;
      after_score <- median_of key_score after_prs ;;
      let before_ci := rate_of pr_ci_failed before_prs in
      let after_ci := rate_of pr_ci_failed after_prs in
      before_churn <- median_of key_churn_ratio before_prs ;;
      after_churn <- median_of key_churn_ratio after_prs ;;
      before_size <- median_of key_size before_prs ;;
      after_size <- median_of key_size after_prs ;;
      Ok [ delta_record "Median Score"
             (format_delta before_score after_score "{:.1f}");
           delta_record "CI Fail Rate"
             (format_delta before_ci after_ci "{:.1%}");
           delta_record "Median Churn"
             (format_delta before_churn after_churn "{:.1%}");
           delta_record "Median Size"
             (format_delta before_size after_size "{:.1f}") ]
  end.

(** The aggregates of the four tracked metrics over a partition, in the
    order of the records. *)
Definition aggregates (part : list ScoredPR) : result (list (option R)) :=
  score <- median_of key_score part ;;
  churn <- median_of key_churn_ratio part ;;
  size <- median_of key_size part ;;
  Ok [score; rate_of pr_ci_failed part; churn; size].

(** Timestamps that an order comparison accepts: both naive or both aware. *)
Definition same_kind (a b : Datetime.datetime) : Prop :=
  Datetime.utcoffset a = None <-> Datetime.utcoffset b = None.

Definition merged_same_kind (adoption : Datetime.datetime) (pr : ScoredPR)
  : Prop :=
  match pr_merged_at pr with
  | Some m => same_kind m adoption
  | None => True
  end.

(** The instant of an aware value, the field reading of a naive one. *)
Definition instant (d : Datetime.datetime) : Z :=
  match Datetime.utcoffset d with
  | Some o => Datetime.wall d - o
  | None => Datetime.wall d
  end.

(** The two partitions of the specification: merged strictly before the
    adoption timestamp, merged at it or later. *)
Definition before_partition (adoption : Datetime.datetime)
    (prs : list ScoredPR) : list ScoredPR :=
  filter
    (fun pr =>
       match pr_merged_at pr with
       | Some m => instant m <? instant adoption
       | None => false
       end)
    prs.

Definition after_partition (adoption : Datetime.datetime)
    (prs : list ScoredPR) : list ScoredPR :=
  filter
    (fun pr =>
       match pr_merged_at pr with
       | Some m => instant adoption <=? instant m
       | None => false
       end)
    prs.

(** A PR merged on 2024-01-02 at 10:00 UTC, as [main] builds its entry from
    the [merged_at] string of the API. *)
Definition merged_2024_01_02 : ScoredPR :=
  mkScoredPR 7 "Fix parser" None "alice" 90 false 10 5 2 0 None None
    (Some 24%R) (Some (Datetime.of_fields 2024 1 2 10 0 0 0 (Some 0))) 15.

End Deltas.

(** ** The run: [main] from the fetched records to the payload

    The requests of [GitHubAPI] are taken as answered: a run starts from
    the records they return.  It ends with the payload that [main] hands
    to [build_html]. *)

Module Engine.
Import Deltas.

(** What [main] fetches for one closed PR: the entry of the PR list with its
    [merged_at], the PR details, the reviews and the commits. *)
Record RawPR : Type := mkRawPR {
  raw_number : Z;
  listed_merged_at : option string;
  raw_title : string;
  raw_html_url : option string;
  raw_user_login : option string;
  raw_additions : Z;
  raw_deletions : Z;
  raw_changed_files : Z;
  raw_merged_at : option string;
  raw_created_at : option string;
  raw_reviews : list Extract.RawReview;
  raw_commits : list Extract.RawCommit
}.

(** The parsed command line. *)
Record Args : Type := mkArgs {
  repo : string;
  max_prs : Z;
  months : Z;
  adoption_date : option string;
  score_threshold : Z;
  max_commits_check : Z
}.

(** The system clock: its successive readings, in microseconds of UTC from
    the start of day 0, and the number of readings taken so far. *)
Record World : Type := mkWorld {
  clock : nat -> Z;
  reads : nat
}.

(** [dt.datetime.now(dt.timezone.utc)] *)
Definition now_utc (w : World) : Datetime.datetime * World :=
  (Datetime.mkDatetime (clock w (reads w)) (Some 0),
   mkWorld (clock w) (S (reads w))).

Record WeeklyStats : Type := mkWeekly {
  week : string;
  median_score : option R;
  p25_score : option R;
  p75_score : option R;
  pct_below_threshold : R;
  ci_fail_rate : R;
  median_churn : option R;
  median_size : option R;
  median_review_rounds : option R
}.

Record Payload : Type := mkPayload {
  payload_repo : string;
  generated_at : string;
  payload_adoption_date : option string;
  prs : list ScoredPR;
  weekly : list WeeklyStats;
  payload_score_threshold : Z;
  deltas : list DeltaRecord
}.

Definition truthy (s : option string) : bool :=
  match s with
  | Some (String _ _) => true
  | _ => false
  end.

Definition merged_key (pr : RawPR) : string :=
  match listed_merged_at pr with
  | Some s => s
  | None => ""
  end.

(** The merged PRs, latest merge first, at most [max_prs] of them. *)
Definition select_prs (args : Args) (raw_prs : list RawPR) : list RawPR :=
  let merged_prs := filter (fun pr => truthy (listed_merged_at pr)) raw_prs in
  PyList.take (max_prs args)
    (PyList.sort_by
       (fun a b => negb (String.ltb (merged_key a) (merged_key b)))
       merged_prs).

(** [(a - b).total_seconds() / 3600] when both are there. *)
Definition hours_between (later earlier : option Datetime.datetime)
  : result (option R) :=
  match earlier, later with
  | Some e, Some l => d <- Datetime.sub l e ;; Ok (Some (Datetime.hours d))
  | _, _ => Ok None
  end.

(** The body of the loop over the merged PRs, up to [pr_entry]. *)
Definition process_pr (args : Args) (pr : RawPR) : result ScoredPR :=
  let number := raw_number pr in
  let author :=
    match raw_user_login pr with
    | Some login => login
    | None => "unknown"
    end in
  first_review_time <-
    Extract.compute_first_review_time (raw_reviews pr) author ;;
  churn_ratio <-
    Extract.compute_churn_ratio (raw_commits pr) first_review_time
      (max_commits_check args) ;;
  let ci_failed :=
    Extract.compute_ci_failed (raw_commits pr) (max_commits_check args) in
  merged_at <- parse_iso8601 (raw_merged_at pr) ;;
  created_at <- parse_iso8601 (raw_created_at pr) ;;
  time_to_first_review <- hours_between first_review_time created_at ;;
  time_to_merge <- hours_between merged_at created_at ;;
  let metrics :=
    Scoring.mkMetrics (raw_additions pr) (raw_deletions pr)
      (raw_changed_files pr) (Extract.compute_review_rounds (raw_reviews pr))
      churn_ratio time_to_first_review time_to_merge ci_failed in
  scored <- Scoring.score_pr metrics ;;
  let size := raw_additions pr + raw_deletions pr in
  Ok (mkScoredPR number (raw_title pr) (raw_html_url pr) author (fst scored)
        ci_failed (raw_additions pr) (raw_deletions pr) (raw_changed_files pr)
        (Extract.compute_review_rounds (raw_reviews pr)) churn_ratio
        time_to_first_review time_to_merge merged_at size).

(** [weekly_buckets.setdefault(key, []).append(pr_entry)], the dict in
    insertion order. *)
Fixpoint bucket_append (key : string) (entry : ScoredPR)
    (buckets : list (string * list ScoredPR)) : list (string * list ScoredPR) :=
  match buckets with
  | [] => [(key, [entry])]
  | (k, items) :: rest =>
      if String.eqb k key then (k, (items ++ [entry])%list) :: rest
      else (k, items) :: bucket_append key entry rest
  end.

(** The loop over the merged PRs: [processed_prs] and [weekly_buckets]. *)
Fixpoint main_loop (args : Args) (since : Datetime.datetime)
    (merged_prs : list RawPR) (processed_prs : list ScoredPR)
    (weekly_buckets : list (string * list ScoredPR))
  : result (list ScoredPR * list (string * list ScoredPR)) :=
  match merged_prs with
  | [] => Ok (processed_prs, weekly_buckets)
  | pr :: rest =>
      pr_entry <- process_pr args pr ;;
      let processed_prs := (processed_prs ++ [pr_entry])%list in
      weekly_buckets <-
        match pr_merged_at pr_entry with
        | Some merged_at =>
            recent <- Datetime.ge merged_at since ;;
            Ok (if recent
                then bucket_append (iso_week_key merged_at) pr_entry
                       weekly_buckets
                else weekly_buckets)
        | None => Ok weekly_buckets
        end ;;
      main_loop args since rest processed_prs weekly_buckets
  end.

Definition week_stats (args : Args) (bucket : string * list ScoredPR)
  : result WeeklyStats :=
  let '(week, items) := bucket in
  let scores := map pr_score items in
  let churns := PyList.keep_some pr_churn_ratio items in
  let sizes := map (fun pr => IZR (pr_size pr)) items in
  let rounds := map (fun pr => IZR (pr_review_rounds pr)) items in
  let n := IZR (Z.of_nat (List.length items)) in
  let ci_fail_rate := (IZR (PyList.count pr_ci_failed items) / n)%R in
  let pct_below :=
    (IZR (PyList.count
            (fun pr => Stats.Rltb (pr_score pr) (IZR (score_threshold args)))
            items) / n)%R in
  median_score <- Stats.safe_median scores ;;
  p25 <- Stats.percentile scores 25 ;;
  p75 <- Stats.percentile scores 75 ;;
  median_churn <- Stats.safe_median churns ;;
  median_size <- Stats.safe_median sizes ;;
  median_rounds <- Stats.safe_median rounds ;;
  Ok (mkWeekly week median_score p25 p75 pct_below ci_fail_rate median_churn
        median_size median_rounds).

Fixpoint map_r {A B : Type} (f : A -> result B) (l : list A) : result (list B) :=
  match l with
  | [] => Ok []
  | x :: l' => y <- f x ;; ys <- map_r f l' ;; Ok (y :: ys)
  end.

(** [main], from the fetched PRs to the payload handed to [build_html]. *)
Definition main (args : Args) (raw_prs : list RawPR) (w : World)
  : result (Payload * World) :=
  adoption <- parse_iso8601 (adoption_date args) ;;
  let merged_prs := select_prs args raw_prs in
  let '(now1, w) := now_utc w in
  lookback <- Datetime.timedelta_days (30 * months args) ;;
  since <- Datetime.sub_delta now1 lookback ;;
  state <- main_loop args since merged_prs [] [] ;;
  let '(processed_prs, weekly_buckets) := state in
  weekly_stats <-
    map_r (week_stats args)
      (PyList.sort_by (fun a b => String.leb (fst a) (fst b)) weekly_buckets) ;;
  let '(now2, w) := now_utc w in
  deltas <- build_deltas processed_prs adoption ;;
  Ok (mkPayload (repo args) (Datetime.strftime_minutes now2)
        (adoption_date args) processed_prs weekly_stats (score_threshold args)
        deltas,
      w).

(** The payload of a run, or the exception that ends it. *)
Definition run (args : Args) (raw_prs : list RawPR) (w : World)
  : result Payload :=
  r <- main args raw_prs w ;; Ok (fst r).

(** [pr_details.get("user", {}).get("login", "unknown")] *)
Definition author_of (pr : RawPR) : string :=
  match raw_user_login pr with
  | Some login => login
  | None => "unknown"
  end.

(** Fetched data as the API gives it: counts that are not negative and
    timestamps that are missing or parse to aware values. *)
Definition well_formed_commit_data (commit : Extract.RawCommit) : Prop :=
  match Extract.stats commit with
  | Some (a, d) => 0 <= a /\ 0 <= d
  | None => True
  end
  /\ parses_aware (Extract.committer_date commit).

Record well_formed_pr (args : Args) (pr : RawPR) : Prop := mkWellFormed {
  wf_size : 0 <= raw_additions pr + raw_deletions pr;
  wf_reviews : Forall (Extract.well_submitted (author_of pr)) (raw_reviews pr);
  wf_commits :
    Forall well_formed_commit_data
      (Extract.examined (raw_commits pr) (max_commits_check args));
  wf_merged : parses_aware (raw_merged_at pr);
  wf_created : parses_aware (raw_created_at pr)
}.

(** The lookback of [main] is a [timedelta] and leaves the years 1 to 9999
    when taken from the first clock reading. *)
Definition lookback_in_range (args : Args) (w : World) : Prop :=
  -999999999 <= 30 * months args <= 999999999
  /\ Datetime.in_range
       (clock w (reads w) - 30 * months args * Datetime.us_per_day) = true.

(** What the loop of [main] keeps true of [weekly_buckets]: the keys are
    distinct, no bucket is empty, a bucket holds processed PRs merged in its
    week and inside the lookback window, and every such PR is in the bucket
    of its week. *)
Definition bucket_inv (since : Datetime.datetime) (processed : list ScoredPR)
    (buckets : list (string * list ScoredPR)) : Prop :=
  NoDup (map fst buckets)
  /\ (forall k items,
        In (k, items) buckets ->
        items <> []
        /\ forall e, In e items ->
             In e processed
             /\ exists m, pr_merged_at e = Some m /\ iso_week_key m = k
                          /\ Datetime.ge m since = Ok true)
  /\ (forall e m,
        In e processed -> pr_merged_at e = Some m ->
        Datetime.ge m since = Ok true ->
        exists items, In (iso_week_key m, items) buckets /\ In e items).

(** [a] was merged at the time of [b] or later, by the [merged_at] strings
    that [main] sorts on. *)
Definition later_or_equal (a b : RawPR) : Prop :=
  String.leb (merged_key b) (merged_key a) = true.

(** A timestamp of the PR details that [parse_iso8601] cannot parse. *)
Definition malformed_timestamp (pr : RawPR) : Prop :=
  parse_iso8601 (raw_merged_at pr) = Raise ValueError
  \/ parse_iso8601 (raw_created_at pr) = Raise ValueError.

(** A clock that starts at [start] and advances by one second a reading. *)
Definition ticking (start : Z) : World :=
  mkWorld (fun n => start + Z.of_nat n * Datetime.us_per_second) 0.

(** A clock that gives the same first two readings and then stops at 0. *)
Definition stopped_clock (start : Z) : World :=
  mkWorld
    (fun n =>
       if (n <? 2)%nat then start + Z.of_nat n * Datetime.us_per_second
       else 0)
    0.

Definition noon (year month day : Z) : Z :=
  Datetime.wall (Datetime.of_fields year month day 12 0 0 0 None).

(** The defaults of the command line, for the repository [octo/repo]. *)
Definition default_args : Args := mkArgs "octo/repo" 50 12 None 70 20.

(** Two merged PRs without reviews or commits; the second has a creation
    time that is no ISO 8601 timestamp. *)
Definition good_pr : RawPR :=
  mkRawPR 1 (Some "2024-02-20T10:00:00Z") "Add cache"
    (Some "https://github.com/octo/repo/pull/1") (Some "alice") 10 5 2
    (Some "2024-02-20T10:00:00Z") (Some "2024-02-19T10:00:00Z") [] [].

(** The metrics and the entry that the loop body builds for [good_pr]:
    merged 24 hours after its creation. *)
Definition good_metrics : Scoring.PRMetrics :=
  Scoring.mkMetrics 10 5 2 0 None None (Some (Datetime.hours 86400000000))
    false.

Definition good_entry : ScoredPR :=
  mkScoredPR 1 "Add cache" (Some "https://github.com/octo/repo/pull/1")
    "alice" (Scoring.score_of good_metrics) false 10 5 2 0 None None
    (Some (Datetime.hours 86400000000))
    (Some (Datetime.of_fields 2024 2 20 10 0 0 0 (Some 0))) 15.

Definition bad_pr : RawPR :=
  mkRawPR 2 (Some "2024-02-10T10:00:00Z") "Fix typo"
    (Some "https://github.com/octo/repo/pull/2") (Some "bob") 1 1 1
    (Some "2024-02-10T10:00:00Z") (Some "yesterday") [] [].

End Engine.

(** ** The payload as JSON

    [build_html] hands the payload of [main] to [json.dumps] and puts the
    text into an f-string.  The f-string is outside the embedding: it does
    not parse as Python, its JavaScript braces being single from the
    function [formatHours] on.  What is embedded is the payload as a Python
    value and the encoder of [json]. *)

Module Render.
Import Deltas Engine.

(** The Python values that make up the payload dict. *)
#[warnings="-register-all"]
Inductive pyvalue : Type :=
| PNone
| PBool (b : bool)
| PInt (z : Z)
| PFloat (x : R)
| PStr (s : string)
| PText (t : formatted)
| PDatetime (d : Datetime.datetime)
| PList (items : list pyvalue)
| PDict (entries : list (string * pyvalue)).

Definition opt {A : Type} (f : A -> pyvalue) (x : option A) : pyvalue :=
  match x with
  | Some a => f a
  | None => PNone
  end.

(** The dict [pr_entry] of [main]. *)
Definition pr_entry_value (e : ScoredPR) : pyvalue :=
  PDict
    [ ("number", PInt (pr_number e));
      ("title", PStr (pr_title e));
      ("url", opt PStr (pr_url e));
      ("author", PStr (pr_author e));
      ("score", PFloat (pr_score e));
      ("ci_failed", PBool (pr_ci_failed e));
      ("additions", PInt (pr_additions e));
      ("deletions", PInt (pr_deletions e));
      ("files_changed", PInt (pr_files_changed e));
      ("review_rounds", PInt (pr_review_rounds e));
      ("churn_ratio", opt PFloat (pr_churn_ratio e));
      ("time_to_first_review_hours", opt PFloat (pr_time_to_first_review_hours e));
      ("time_to_merge_hours", opt PFloat (pr_time_to_merge_hours e));
      ("merged_at", opt PDatetime (pr_merged_at e));
      ("size", PInt (pr_size e)) ].

(** A dict of [weekly_stats]. *)
Definition weekly_value (s : WeeklyStats) : pyvalue :=
  PDict
    [ ("week", PStr (week s));
      ("median_score", opt PFloat (median_score s));
      ("p25_score", opt PFloat (p25_score s));
      ("p75_score", opt PFloat (p75_score s));
      ("pct_below_threshold", PFloat (pct_below_threshold s));
      ("ci_fail_rate", PFloat (ci_fail_rate s));
      ("median_churn", opt PFloat (median_churn s));
      ("median_size", opt PFloat (median_size s));
      ("median_review_rounds", opt PFloat (median_review_rounds s)) ].

(** A dict of [build_deltas]. *)
Definition delta_value (d : DeltaRecord) : pyvalue :=
  PDict
    [ ("label", PStr (label d));
      ("before", opt PText (before d));
      ("after", opt PText (after d));
      ("delta", opt PText (delta d)) ].

(** The dict [payload] of [main]. *)
Definition payload_value (p : Payload) : pyvalue :=
  PDict
    [ ("repo", PStr (payload_repo p));
      ("generated_at", PStr (generated_at p));
      ("adoption_date", opt PStr (payload_adoption_date p));
      ("prs", PList (map pr_entry_value (prs p)));
      ("weekly", PList (map weekly_value (weekly p)));
      ("score_threshold", PInt (payload_score_threshold p));
      ("deltas", PList (map delta_value (deltas p))) ].

(** What the default encoder of [json] encodes: every value here but a
    [datetime]. *)
Fixpoint serializable (v : pyvalue) : bool :=
  match v with
  | PDatetime _ => false
  | PList items =>
      (fix all (l : list pyvalue) : bool :=
         match l with
         | [] => true
         | x :: l' => serializable x && all l'
         end) items
  | PDict entries =>
      (fix all (l : list (string * pyvalue)) : bool :=
         match l with
         | [] => true
         | (_, x) :: l' => serializable x && all l'
         end) entries
  | _ => true
  end.

(** The text [json.dumps(v)] returns, kept as the value it encodes. *)
Inductive json_text : Type :=
| Encoded (v : pyvalue).

(** [json.dumps]: a [TypeError] ("Object of type datetime is not JSON
    serializable") on a value the encoder does not know. *)
Definition json_dumps (v : pyvalue) : result json_text :=
  if serializable v then Ok (Encoded v) else Raise TypeError.

End Render.

(** ** The timestamps of the inputs *)

Module Timestamps.
Import Datetime.

Definition two_digits (n : Z) : string :=
  String (digit_char (n / 10)) (String (digit_char (n mod 10)) "").

(** The text [YYYY-MM-DD] that [--adoption-date] asks for. *)
Definition date_text (year month day : Z) : string :=
  two_digits (year / 100) ++ two_digits (year mod 100) ++ "-"
  ++ two_digits month ++ "-" ++ two_digits day.

(** The text [YYYY-MM-DDTHH:MM:SSZ] that the GitHub API gives for a time of
    UTC. *)
Definition utc_timestamp (year month day h mi s : Z) : string :=
  two_digits (year / 100) ++ two_digits (year mod 100) ++ "-"
  ++ two_digits month ++ "-" ++ two_digits day ++ "T"
  ++ two_digits h ++ ":" ++ two_digits mi ++ ":" ++ two_digits s ++ "Z".

End Timestamps.

(** ** The API client: [GitHubAPI] *)

Module Api.

(** *** The [str] methods of [_get_page] *)

(** [needle in s] *)
Fixpoint contains (needle s : string) : bool :=
  String.prefix needle s
  || match s with
     | EmptyString => false
     | String _ s' => contains needle s'
     end.

(** [s.find(c)] for a needle of one character: the first index, or -1. *)
Fixpoint find (c : ascii) (s : string) : Z :=
  match s with
  | EmptyString => -1
  | String c' s' =>
      if Ascii.eqb c' c then 0
      else let i := find c s' in if i <? 0 then -1 else i + 1
  end.

(** [s.split(sep)] for a separator of one character. *)
Fixpoint split (sep : ascii) (s : string) : list string :=
  match s with
  | EmptyString => [EmptyString]
  | String c s' =>
      if Ascii.eqb c sep then EmptyString :: split sep s'
      else
        match split sep s' with
        | part :: parts => String c part :: parts
        | [] => [String c EmptyString]
        end
  end.

(** [s[start:stop]]: a negative index counts from the end, and both are
    clamped to the string. *)
Definition slice (s : string) (start stop : Z) : string :=
  let n := Z.of_nat (String.length s) in
  let clamp i := if i <? 0 then Z.max 0 (i + n) else Z.min i n in
  let a := clamp start in
  let b := clamp stop in
  String.substring (Z.to_nat a) (Z.to_nat (b - a)) s.

(** The text that marks the link of the next page: rel=, and next in double
    quotes. *)
Definition rel_next : string :=
  "rel=" ++ String (ascii_of_nat 34) ("next" ++ String (ascii_of_nat 34) "").

(** The loop of [_get_page] over the parts of the [Link] header. *)
Fixpoint first_next (parts : list string) : option string :=
  match parts with
  | [] => None
  | part :: rest =>
      if contains rel_next part
      then Some (slice part (find "<" part + 1) (find ">" part))
      else first_next rest
  end.

(** [next_url] of [_get_page], from the value of [resp.headers.get("Link")]. *)
Definition next_link (link : option string) : option string :=
  match link with
  | Some (String c l) => first_next (split "," (String c l))
  | _ => None
  end.

(** What a request returns: the decoded body ([[]] for an empty one) and
    the [Link] header. *)
Record Response (item : Type) : Type := mkResponse {
  parsed : list item;
  link : option string
}.
Arguments mkResponse {item} _ _.
Arguments parsed {item} _.
Arguments link {item} _.

(** [_get_page], over the answers of the server, which may raise. *)
Definition get_page {item : Type} (server : string -> result (Response item))
    (url : string) : result (list item * option string) :=
  resp <- server url ;;
  Ok (parsed resp, next_link (link resp)).

(** The loop of [get_paginated]; [budget] is [max_pages - pages]. *)
Fixpoint paginate {item : Type} (server : string -> result (Response item))
    (budget : nat) (next_url : option string) (items : list item)
  : result (list item) :=
  match budget with
  | O => Ok items
  | S budget' =>
      match next_url with
      | Some (String c u) =>
          page <- get_page server (String c u) ;;
          match fst page with
          | [] => Ok items
          | data => paginate server budget' (snd page) (items ++ data)%list
          end
      | _ => Ok items
      end
  end.

Definition get_paginated {item : Type}
    (server : string -> result (Response item)) (url : string) (max_pages : Z)
  : result (list item) :=
  paginate server (Z.to_nat max_pages) (Some url) [].

(** [c] does not occur in [s]. *)
Definition lacks (c : ascii) (s : string) : Prop := find c s = -1.

(** The header [earlier_1,...,earlier_n,ws<url>params], followed by nothing
    or by a comma and [more]. *)
Definition link_header (earlier : list string) (ws url params : string)
    (more : option string) : string :=
  fold_right (fun part rest => part ++ "," ++ rest)
    (ws ++ "<" ++ url ++ ">" ++ params
     ++ match more with
        | Some m => "," ++ m
        | None => ""
        end)
    earlier.

(** The pages with items that the server links from [next_url] on, up to
    a missing link or a page without items. *)
Inductive pages_of {item : Type} (server : string -> result (Response item))
  : option string -> list (Response item) -> Prop :=
| pages_no_link : pages_of server None []
| pages_empty_link : pages_of server (Some "") []
| pages_no_items (url : string) (resp : Response item) :
    url <> "" -> server url = Ok resp -> parsed resp = [] ->
    pages_of server (Some url) []
| pages_next (url : string) (resp : Response item)
    (rest : list (Response item)) :
    url <> "" -> server url = Ok resp -> parsed resp <> [] ->
    pages_of server (next_link (link resp)) rest ->
    pages_of server (Some url) (resp :: rest).

(** A server of two pages of PR numbers, the first linked to the second. *)
Definition two_pages (url : string) : result (Response Z) :=
  if String.eqb url "https://api.github.com/repos/octo/repo/pulls?page=1"
  then
    Ok (mkResponse [1; 2]
          (Some
             ("<https://api.github.com/repos/octo/repo/pulls?page=2>; "
              ++ rel_next
              ++ ", <https://api.github.com/repos/octo/repo/pulls?page=2>; rel=last")))
  else if String.eqb url "https://api.github.com/repos/octo/repo/pulls?page=2"
  then
    Ok (mkResponse [3]
          (Some "<https://api.github.com/repos/octo/repo/pulls?page=1>; rel=prev"))
  else Raise ValueError.

End Api.

(** * Properties *)

(** ** ScoringEngine *)

Module ScoringFacts.
Import Scoring.

Local Open Scope R_scope.

Lemma clamp_bounds (v lo hi : R) : lo <= hi -> lo <= clamp v lo hi <= hi.
Proof.
  intros Hle. unfold clamp. split.
  - apply Rmax_l.
  - apply Rmax_lub; [exact Hle | apply Rmin_l].
Qed.

Lemma clamp_mono (v v' lo hi : R) : v <= v' -> clamp v lo hi <= clamp v' lo hi.
Proof.
  intros Hle. unfold clamp.
  apply Rle_max_compat_l, Rle_min_compat_l, Hle.
Qed.

Lemma log1p_defined (x : R) : -1 < x -> log1p x = Ok (ln (1 + x)).
Proof.
  intros Hx. unfold log1p. destruct (Rlt_dec (-1) x); [reflexivity | contradiction].
Qed.

Lemma log1p_2000 : log1p 2000 = Ok (ln (1 + 2000)).
Proof. apply log1p_defined. lra. Qed.

Lemma score_pr_defined (m : PRMetrics) :
  (0 <= size m)%Z -> score_pr m = Ok (score_of m, components_of m).
Proof.
  intros Hs. unfold score_pr.
  rewrite log1p_defined.
  - rewrite log1p_2000. reflexivity.
  - apply IZR_le in Hs. lra.
Qed.

Lemma score_pr_raises (m : PRMetrics) :
  (size m <= -1)%Z -> score_pr m = Raise ValueError.
Proof.
  intros Hs. unfold score_pr, log1p.
  destruct (Rlt_dec (-1) (IZR (size m))) as [Hlt | _]; [| reflexivity].
  apply IZR_le in Hs. lra.
Qed.

Lemma tfr_risk_bounds (m : PRMetrics) : 0 <= tfr_risk m <= 1.
Proof.
  unfold tfr_risk. destruct (time_to_first_review_hours m).
  - apply clamp_bounds. lra.
  - lra.
Qed.

Lemma ttm_risk_bounds (m : PRMetrics) : 0 <= ttm_risk m <= 1.
Proof.
  unfold ttm_risk. destruct (time_to_merge_hours m).
  - apply clamp_bounds. lra.
  - lra.
Qed.

Lemma ci_risk_bounds (m : PRMetrics) : 0 <= ci_risk m <= 1.
Proof. unfold ci_risk. destruct (ci_failed m); lra. Qed.

Lemma components_bounds (m : PRMetrics) :
  Forall (fun kv => 0 <= snd kv <= 1) (components_of m).
Proof.
  unfold components_of.
  repeat (apply Forall_cons; [simpl |]); try apply Forall_nil;
    solve [ apply clamp_bounds; lra
          | apply tfr_risk_bounds | apply ttm_risk_bounds
          | apply ci_risk_bounds ].
Qed.

(** C1: on every valid metrics record [score_pr] returns, its score lies in
    [[0, 100]] and every entry of its component dict lies in [[0, 1]]. *)
Theorem score_pr_bounds (m : PRMetrics) :
  valid_metrics m ->
  exists score components,
    score_pr m = Ok (score, components)
    /\ 0 <= score <= 100
    /\ Forall (fun kv => 0 <= snd kv <= 1) components.
Proof.
  intros Hv. exists (score_of m), (components_of m).
  split; [| split].
  - apply score_pr_defined. unfold size.
    pose proof (valid_additions m Hv). pose proof (valid_deletions m Hv). lia.
  - apply clamp_bounds. lra.
  - apply components_bounds.
Qed.

Lemma score_pr_bounds_witness :
  let m := mkMetrics 120 30 5 1 (Some (1 / 4)) None (Some 10) true in
  valid_metrics m
  /\ exists score components,
       score_pr m = Ok (score, components)
       /\ 0 <= score <= 100
       /\ Forall (fun kv => 0 <= snd kv <= 1) components.
Proof.
  assert (Hv : valid_metrics
                 (mkMetrics 120 30 5 1 (Some (1 / 4)) None (Some 10) true)).
  { constructor; simpl; try lia; try lra; exact I. }
  split; [exact Hv | apply score_pr_bounds; exact Hv].
Defined.

(** *** Monotonicity *)

Lemma ln_le_mono (x y : R) : 0 < x -> x <= y -> ln x <= ln y.
Proof.
  intros Hx [Hlt | Heq].
  - left. apply ln_increasing; assumption.
  - subst. right. reflexivity.
Qed.

Lemma ln_2001_pos : 0 < ln (1 + 2000).
Proof.
  rewrite <- ln_1. apply ln_increasing; lra.
Qed.

Lemma size_risk_of_mono (m m' : PRMetrics) :
  (0 <= size m)%Z -> (size m <= size m')%Z ->
  size_risk_of m <= size_risk_of m'.
Proof.
  intros H0 Hle. unfold size_risk_of. apply clamp_mono.
  apply IZR_le in H0. apply IZR_le in Hle.
  apply Rmult_le_compat_r.
  - left. apply Rinv_0_lt_compat, ln_2001_pos.
  - apply ln_le_mono; lra.
Qed.

Lemma ratio_risk_mono (x y d : R) :
  0 < d -> x <= y -> clamp (x / d) 0 1 <= clamp (y / d) 0 1.
Proof.
  intros Hd Hle. apply clamp_mono.
  apply Rmult_le_compat_r; [left; apply Rinv_0_lt_compat, Hd | exact Hle].
Qed.

(** The score falls when no component risk falls. *)
Lemma score_of_antitone (m m' : PRMetrics) :
  size_risk_of m <= size_risk_of m' ->
  files_risk m <= files_risk m' ->
  review_rounds_risk m <= review_rounds_risk m' ->
  churn_risk m <= churn_risk m' ->
  tfr_risk m <= tfr_risk m' ->
  ttm_risk m <= ttm_risk m' ->
  ci_risk m <= ci_risk m' ->
  score_of m' <= score_of m.
Proof.
  intros Hs Hf Hr Hc Ht Hm Hci. unfold score_of. apply clamp_mono.
  unfold risk_sum, w_size, w_files, w_review_rounds, w_churn,
    w_time_to_first_review, w_time_to_merge, w_ci_fail.
  lra.
Qed.

Lemma score_of_step (m m' : PRMetrics) :
  (0 <= size m)%Z -> risk_step m m' -> score_of m' <= score_of m.
Proof.
  intros H0 Hstep.
  destruct Hstep as [a d Hle | f Hle | r Hle | c c' Hc Hle
                    | h h' Hh Hle | h h' Hh Hle | Hci];
    apply score_of_antitone;
    try (unfold size_risk_of, size; simpl; apply Rle_refl);
    try (unfold files_risk, review_rounds_risk, churn_risk, tfr_risk,
           ttm_risk, ci_risk; simpl; apply Rle_refl).
  - apply size_risk_of_mono; [exact H0 | exact Hle].
  - unfold files_risk; simpl. apply ratio_risk_mono; [lra | apply IZR_le, Hle].
  - unfold review_rounds_risk; simpl.
    apply ratio_risk_mono; [lra | apply IZR_le, Hle].
  - unfold churn_risk; simpl. rewrite Hc; simpl.
    apply ratio_risk_mono; [lra | exact Hle].
  - unfold tfr_risk; simpl. rewrite Hh.
    apply ratio_risk_mono; [lra | exact Hle].
  - unfold ttm_risk; simpl. rewrite Hh.
    apply ratio_risk_mono; [lra | exact Hle].
  - unfold ci_risk; simpl. rewrite Hci. lra.
Qed.

Lemma risk_step_size (m m' : PRMetrics) :
  risk_step m m' -> (size m <= size m')%Z.
Proof.
  intros Hstep; destruct Hstep; unfold size in *; simpl; lia.
Qed.

(** C2: raising a single risk input of a metrics record, the other inputs
    held fixed, never raises the score [score_pr] returns. *)
Theorem score_pr_monotone (m m' : PRMetrics) :
  (0 <= size m)%Z ->
  risk_step m m' ->
  exists s c s' c',
    score_pr m = Ok (s, c) /\ score_pr m' = Ok (s', c') /\ s' <= s.
Proof.
  intros H0 Hstep.
  exists (score_of m), (components_of m), (score_of m'), (components_of m').
  split; [| split].
  - apply score_pr_defined, H0.
  - apply score_pr_defined. pose proof (risk_step_size m m' Hstep). lia.
  - apply score_of_step; assumption.
Qed.

Lemma score_pr_monotone_witness :
  let m := mkMetrics 120 30 5 1 (Some (1 / 4)) None (Some 10) false in
  exists s c s' c',
    score_pr m = Ok (s, c) /\ score_pr (with_files m 9) = Ok (s', c')
    /\ s' <= s.
Proof.
  apply (score_pr_monotone
           (mkMetrics 120 30 5 1 (Some (1 / 4)) None (Some 10) false)).
  - unfold size; simpl; lia.
  - apply step_files. simpl. lia.
Defined.

(** *** Example A *)

Lemma clamp_inside (v lo hi : R) : lo <= v <= hi -> clamp v lo hi = v.
Proof.
  intros [Hlo Hhi]. unfold clamp.
  rewrite (Rmin_right hi v Hhi). apply Rmax_right, Hlo.
Qed.

Lemma ln_pow_lt (x y : R) (p q : nat) :
  0 < x -> 0 < y -> x ^ p < y ^ q -> INR p * ln x < INR q * ln y.
Proof.
  intros Hx Hy Hlt.
  rewrite <- (ln_pow x Hx p), <- (ln_pow y Hy q).
  apply ln_increasing; [apply pow_lt, Hx | exact Hlt].
Qed.

(** [33/50 < ln 151 / ln 2001 < 53/80], from [2001^33 < 151^50] and
    [151^80 < 2001^53]. *)
Lemma ln_151_2001 :
  33 / 50 < ln 151 / ln 2001 < 53 / 80.
Proof.
  assert (Hlo : INR 33 * ln 2001 < INR 50 * ln 151).
  { apply ln_pow_lt; lra. }
  assert (Hhi : INR 80 * ln 151 < INR 53 * ln 2001).
  { apply ln_pow_lt; lra. }
  rewrite !INR_IZR_INZ in Hlo, Hhi. simpl in Hlo, Hhi.
  assert (Hpos : 0 < ln 2001).
  { rewrite <- ln_1. apply ln_increasing; lra. }
  split.
  - apply Rmult_lt_reg_r with (ln 2001); [exact Hpos |].
    unfold Rdiv at 2. rewrite Rmult_assoc, Rinv_l by lra. lra.
  - apply Rmult_lt_reg_r with (ln 2001); [exact Hpos |].
    unfold Rdiv at 1. rewrite Rmult_assoc, Rinv_l by lra. lra.
Qed.

Lemma score_of_example_A (a d : Z) :
  (a + d = 150)%Z ->
  score_of (example_A a d)
  = 100 * (1 - (ln 151 / ln 2001 * (20 / 100) + 5 / 50 * (10 / 100)
                + 2 / 72 * (10 / 100) + 10 / 240 * (15 / 100))).
Proof.
  intros Hsum. pose proof ln_151_2001 as [Hlo Hhi].
  unfold score_of, risk_sum, size_risk_of, files_risk, review_rounds_risk,
    churn_risk, tfr_risk, ttm_risk, ci_risk, size, w_size, w_files,
    w_review_rounds, w_churn, w_time_to_first_review, w_time_to_merge,
    w_ci_fail; simpl.
  rewrite Hsum.
  replace (1 + 150) with 151 by lra.
  replace (1 + 2000) with 2001 by lra.
  rewrite (clamp_inside (ln 151 / ln 2001)) by lra.
  rewrite (clamp_inside (5 / 50)) by lra.
  rewrite (clamp_inside (0 / 3)) by lra.
  rewrite (clamp_inside (0 / (5 / 10))) by lra.
  rewrite (clamp_inside (2 / 72)) by lra.
  rewrite (clamp_inside (10 / 240)) by lra.
  rewrite clamp_inside by lra.
  lra.
Qed.

(** C4, as the code has it: on Example A (150 changed lines, 5 files, no
    review round, churn 0.0, first review after 2 h, merge after 10 h, CI
    clean) [score_pr] returns a score between 84.8 and 84.9, which is below
    85. *)
Theorem score_pr_example_A (a d : Z) :
  (a + d = 150)%Z ->
  exists score components,
    score_pr (example_A a d) = Ok (score, components)
    /\ 848 / 10 < score < 849 / 10.
Proof.
  intros Hsum.
  exists (score_of (example_A a d)), (components_of (example_A a d)).
  split.
  - apply score_pr_defined. unfold size; simpl. lia.
  - rewrite (score_of_example_A a d Hsum).
    pose proof ln_151_2001 as [Hlo Hhi]. lra.
Qed.

Lemma score_pr_example_A_witness :
  exists score components,
    score_pr (example_A 100 50) = Ok (score, components)
    /\ 848 / 10 < score < 849 / 10.
Proof.
  apply (score_pr_example_A 100 50). reflexivity.
Defined.

(** C4, as the specification states it, fails: the score of Example A is not
    above 85. *)
Lemma score_pr_example_A_not_above_85 :
  ~ (exists score components,
       score_pr (example_A 100 50) = Ok (score, components) /\ 85 < score).
Proof.
  intros (score & components & Heq & Hgt).
  rewrite score_pr_defined in Heq by (unfold size; simpl; lia).
  injection Heq as Hs _. subst score.
  rewrite (score_of_example_A 100 50) in Hgt by reflexivity.
  pose proof ln_151_2001 as [Hlo Hhi]. lra.
Qed.

End ScoringFacts.


(** ** Lists and aggregation *)

Module StatsFacts.
Import PyList Stats.

Section SortBy.
Context {A : Type} (le : A -> A -> bool).

Lemma insert_length (x : A) (l : list A) :
  List.length (insert le x l) = S (List.length l).
Proof.
  induction l as [| y l IH]; simpl; [reflexivity |].
  destruct (le x y); simpl; [reflexivity | rewrite IH; reflexivity].
Qed.

Lemma sort_by_length (l : list A) :
  List.length (sort_by le l) = List.length l.
Proof.
  induction l as [| x l IH]; simpl; [reflexivity |].
  rewrite insert_length, IH. reflexivity.
Qed.

Lemma insert_perm (x : A) (l : list A) : Permutation (x :: l) (insert le x l).
Proof.
  induction l as [| y l IH]; simpl; [apply Permutation_refl |].
  destruct (le x y); [apply Permutation_refl |].
  eapply perm_trans; [apply perm_swap | apply perm_skip, IH].
Qed.

Lemma sort_by_perm (l : list A) : Permutation l (sort_by le l).
Proof.
  induction l as [| x l IH]; simpl; [apply perm_nil |].
  eapply perm_trans; [apply perm_skip, IH | apply insert_perm].
Qed.
End SortBy.

Lemma get_in_range {A : Type} (l : list A) (i : Z) :
  (0 <= i < Z.of_nat (List.length l))%Z -> exists x, get l i = Ok x /\ In x l.
Proof.
  intros [Hlo Hhi]. unfold get.
  destruct (i <? 0)%Z eqn:Hneg; [apply Z.ltb_lt in Hneg; lia |].
  replace ((0 <=? i) && (i <? Z.of_nat (List.length l)))%Z with true
    by (symmetry; apply andb_true_iff; split;
        [apply Z.leb_le | apply Z.ltb_lt]; lia).
  destruct (nth_error l (Z.to_nat i)) as [x |] eqn:Hnth.
  - exists x. split; [reflexivity | eapply nth_error_In, Hnth].
  - apply nth_error_None in Hnth. lia.
Qed.

Lemma Rleb_le (x y : R) : Rleb x y = true <-> (x <= y)%R.
Proof.
  unfold Rleb. destruct (Rle_dec x y); split; intros; try assumption;
    try reflexivity; try discriminate; contradiction.
Qed.

(** [sorted] returns its argument rearranged in non-decreasing order. *)
Lemma sorted_perm (values : list R) : Permutation values (sorted values).
Proof. apply sort_by_perm. Qed.

Lemma insert_sorted (x : R) (l : list R) :
  Sorted Rle l -> Sorted Rle (insert Rleb x l).
Proof.
  induction 1 as [| y l Hs IH Hhd]; simpl.
  - apply Sorted_cons; [apply Sorted_nil | apply HdRel_nil].
  - destruct (Rleb x y) eqn:Hxy.
    + apply Rleb_le in Hxy.
      apply Sorted_cons; [apply Sorted_cons; assumption |].
      apply HdRel_cons, Hxy.
    + assert (Hyx : (y <= x)%R).
      { unfold Rleb in Hxy. destruct (Rle_dec x y); [discriminate | lra]. }
      apply Sorted_cons; [exact IH |].
      destruct l as [| z l]; simpl.
      * apply HdRel_cons, Hyx.
      * destruct (Rleb x z); apply HdRel_cons;
          [exact Hyx | inversion Hhd; assumption].
Qed.

Lemma sorted_Sorted (values : list R) : Sorted Rle (sorted values).
Proof.
  unfold sorted, sort_by.
  induction values as [| x l IH]; simpl;
    [apply Sorted_nil | apply insert_sorted, IH].
Qed.

Lemma sorted_length (values : list R) :
  List.length (sorted values) = List.length values.
Proof. apply sort_by_length. Qed.

(** On data that is not empty [median] returns one value. *)
Lemma median_defined (data : list R) :
  data <> [] -> exists m, median data = Ok m.
Proof.
  intros Hne. unfold median.
  pose proof (sorted_length data) as Hlen.
  assert (Hpos : (0 < Z.of_nat (List.length (sorted data)))%Z).
  { rewrite Hlen. destruct data; [contradiction | simpl; lia]. }
  set (n := Z.of_nat (List.length (sorted data))) in *.
  destruct (n =? 0)%Z eqn:Hz; [apply Z.eqb_eq in Hz; lia |].
  destruct (n mod 2 =? 1)%Z eqn:Hodd.
  - destruct (get_in_range (sorted data) (n / 2)) as (x & Hx & _).
    { split; [apply Z.div_pos; lia | apply Z.div_lt_upper_bound; lia]. }
    exists x. exact Hx.
  - apply Z.eqb_neq in Hodd.
    assert (Hn2 : (2 <= n)%Z).
    { destruct (Z.eq_dec n 1) as [H1 | H1]; [rewrite H1 in Hodd; cbn in Hodd; lia | lia]. }
    destruct (get_in_range (sorted data) (n / 2 - 1)) as (a & Ha & _).
    { split; [| assert (n / 2 < n)%Z by (apply Z.div_lt_upper_bound; lia); lia].
      assert (1 <= n / 2)%Z by (apply Z.div_le_lower_bound; lia). lia. }
    destruct (get_in_range (sorted data) (n / 2)) as (b & Hb & _).
    { split; [apply Z.div_pos; lia | apply Z.div_lt_upper_bound; lia]. }
    rewrite Ha, Hb. simpl. eexists. reflexivity.
Qed.

Lemma safe_median_defined (values : list R) :
  exists m, safe_median values = Ok m /\ (m = None <-> values = []).
Proof.
  destruct values as [| x l].
  - exists None. simpl. split; [reflexivity | tauto].
  - destruct (median_defined (x :: l)) as [m Hm]; [discriminate |].
    exists (Some m). unfold safe_median. rewrite Hm. simpl.
    split; [reflexivity | split; discriminate].
Qed.

Lemma trunc_IZR (z : Z) : trunc (IZR z) = z.
Proof.
  unfold trunc, floor, ceil, Zceil.
  destruct (Rle_dec 0 (IZR z)).
  - apply ZfloorZ.
  - rewrite ZfloorNZ. lia.
Qed.

Lemma ceil_IZR (z : Z) : ceil (IZR z) = z.
Proof. unfold ceil, Zceil. rewrite ZfloorNZ. lia. Qed.

(** The rank of the 50th percentile of an odd number of values. *)
Lemma half_rank (n : Z) :
  (n mod 2 = 1)%Z -> (IZR (n - 1) * (50 / 100))%R = IZR (n / 2).
Proof.
  intros Hodd.
  assert (Hn : (n - 1 = 2 * (n / 2))%Z).
  { pose proof (Z.div_mod n 2). lia. }
  rewrite Hn, mult_IZR. lra.
Qed.

Lemma odd_mod2 (n : nat) : Nat.odd n = true -> (Z.of_nat n mod 2 = 1)%Z.
Proof.
  intros Hodd. apply Nat.odd_spec in Hodd. destruct Hodd as [m ->].
  rewrite Nat2Z.inj_add, Nat2Z.inj_mul. simpl Z.of_nat.
  rewrite Z.add_comm, Z.mul_comm, Z_mod_plus_full. reflexivity.
Qed.

(** *** The middle value *)

Lemma get_nth_error {A : Type} (l : list A) (i : Z) (x : A) :
  0 <= i -> get l i = Ok x -> nth_error l (Z.to_nat i) = Some x.
Proof.
  intros Hi. unfold get.
  destruct (i <? 0) eqn:Hneg; [apply Z.ltb_lt in Hneg; lia |].
  destruct ((0 <=? i) && (i <? Z.of_nat (List.length l))); [| discriminate].
  destruct (nth_error l (Z.to_nat i)); [| discriminate].
  intros Heq; injection Heq as ->. reflexivity.
Qed.

Lemma Rle_transitive : Relations_1.Transitive Rle.
Proof. intros x y z. apply Rle_trans. Qed.

(** An element of a sorted list splits it into the values before it, none
    greater, and the values after it, none smaller. *)
Lemma sorted_split (l : list R) :
  StronglySorted Rle l ->
  forall (i : nat) (x : R),
    nth_error l i = Some x ->
    l = (firstn i l ++ x :: skipn (S i) l)%list
    /\ Forall (fun v => (v <= x)%R) (firstn i l)
    /\ Forall (fun v => (x <= v)%R) (skipn (S i) l).
Proof.
  induction 1 as [| a l Hs IH Ha]; intros i x Hnth.
  - destruct i; discriminate.
  - destruct i as [| i]; simpl in Hnth.
    + injection Hnth as <-. simpl. repeat split; [constructor | exact Ha].
    + destruct (IH i x Hnth) as (Heq & Hlo & Hhi).
      simpl. repeat split.
      * f_equal. exact Heq.
      * constructor; [| exact Hlo].
        rewrite Forall_forall in Ha. apply Ha. eapply nth_error_In, Hnth.
      * exact Hhi.
Qed.

Lemma count_above_perm (x : R) (l l' : list R) :
  Permutation l l' -> count_above x l = count_above x l'.
Proof.
  unfold count_above.
  induction 1 as [| a l l' _ IH | a b l | l l' l'' _ IH1 _ IH2]; simpl.
  - reflexivity.
  - destruct (Rltb x a); simpl; rewrite IH; reflexivity.
  - destruct (Rltb x a), (Rltb x b); reflexivity.
  - rewrite IH1. exact IH2.
Qed.

Lemma count_above_none (x : R) (l : list R) :
  Forall (fun v => (v <= x)%R) l -> count_above x l = 0%nat.
Proof.
  unfold count_above. induction 1 as [| a l Ha _ IH]; simpl; [reflexivity |].
  unfold Rltb at 1. destruct (Rlt_dec x a); [lra | exact IH].
Qed.

Lemma count_above_all (x : R) (l : list R) :
  Forall (fun v => (x < v)%R) l -> count_above x l = List.length l.
Proof.
  unfold count_above. induction 1 as [| a l Ha _ IH]; simpl; [reflexivity |].
  unfold Rltb at 1. destruct (Rlt_dec x a); [simpl; rewrite IH; reflexivity | lra].
Qed.

Lemma count_above_le (x : R) (l : list R) :
  (count_above x l <= List.length l)%nat.
Proof. apply filter_length_le. Qed.

Lemma count_above_app (x : R) (l l' : list R) :
  count_above x (l ++ l') = (count_above x l + count_above x l')%nat.
Proof. unfold count_above. rewrite filter_app, length_app. reflexivity. Qed.

(** A list has at most one middle value. *)
Lemma middle_of_unique (x y : R) (values : list R) :
  middle_of x values -> middle_of y values -> x = y.
Proof.
  assert (Hlt : forall a b, middle_of a values -> middle_of b values ->
                            ~ (a < b)%R).
  { intros a b (la & ua & Hpa & Hna & Hla & Hua)
      (lb & ub & Hpb & Hnb & Hlb & Hub) Hab.
    pose proof (Permutation_length Hpa) as Hlena.
    pose proof (Permutation_length Hpb) as Hlenb.
    rewrite length_app in Hlena, Hlenb. simpl in Hlena, Hlenb.
    pose proof (count_above_perm a _ _ Hpa) as Hca.
    pose proof (count_above_perm a _ _ Hpb) as Hcb.
    rewrite count_above_app in Hca, Hcb.
    rewrite (count_above_none a la Hla) in Hca.
    assert (Hxa : count_above a (a :: ua) = count_above a ua).
    { unfold count_above; simpl. unfold Rltb at 1.
      destruct (Rlt_dec a a); [lra | reflexivity]. }
    rewrite Hxa in Hca.
    assert (Hyb : count_above a (b :: ub) = S (List.length ub)).
    { change (b :: ub) with ([b] ++ ub)%list. rewrite count_above_app.
      rewrite (count_above_all a ub).
      - unfold count_above; simpl. unfold Rltb.
        destruct (Rlt_dec a b); [reflexivity | contradiction].
      - eapply Forall_impl; [| exact Hub]. intros v Hv; simpl in Hv. lra. }
    rewrite Hyb in Hcb.
    pose proof (count_above_le a ua). lia. }
  intros Hx Hy.
  destruct (Rtotal_order x y) as [H | [H | H]]; [| exact H |].
  - exfalso. exact (Hlt x y Hx Hy H).
  - exfalso. exact (Hlt y x Hy Hx H).
Qed.

Lemma median_odd_middle (values : list R) (m : R) :
  Nat.odd (List.length values) = true -> median values = Ok m ->
  middle_of m values.
Proof.
  intros Hodd. unfold median.
  pose proof (sorted_length values) as Hlen.
  pose proof (sorted_perm values) as Hperm.
  pose proof (Sorted_StronglySorted Rle_transitive (sorted_Sorted values)) as Hs.
  set (vs := sorted values) in *.
  assert (Hn : (Z.of_nat (List.length vs) mod 2 = 1)).
  { rewrite Hlen. apply odd_mod2, Hodd. }
  rewrite Hn.
  destruct (Z.of_nat (List.length vs) =? 0) eqn:Hz;
    [apply Z.eqb_eq in Hz; rewrite Hz in Hn; discriminate |].
  simpl (1 =? 1). cbv iota. intros Hget.
  apply get_nth_error in Hget; [| apply Z.div_pos; lia].
  set (i := Z.to_nat (Z.of_nat (List.length vs) / 2)) in *.
  assert (Hi : (List.length vs = 2 * i + 1)%nat).
  { pose proof (Z.div_mod (Z.of_nat (List.length vs)) 2).
    assert (0 <= Z.of_nat (List.length vs) / 2) by (apply Z.div_pos; lia).
    unfold i. lia. }
  destruct (sorted_split vs Hs i m Hget) as (Heq & Hlo & Hhi).
  exists (firstn i vs), (skipn (S i) vs).
  split; [rewrite <- Heq; exact Hperm | split; [| split; assumption]].
  rewrite length_firstn, length_skipn. lia.
Qed.

(** C5: [percentile] of no value is [None] for every [pct], of one value it
    is that value for every [pct], and the 50th percentile of an odd number
    of values is their median: the value [statistics.median] returns, which
    is the middle value of the data. *)
Theorem percentile_median :
  (forall pct, percentile [] pct = Ok None)
  /\ (forall x pct, percentile [x] pct = Ok (Some x))
  /\ (forall values,
        Nat.odd (List.length values) = true ->
        exists m, median values = Ok m
                  /\ middle_of m values
                  /\ percentile values 50 = Ok (Some m)).
Proof.
  split; [reflexivity | split; [reflexivity |]].
  intros values Hodd.
  assert (Hne : values <> []) by (intros ->; discriminate).
  destruct (median_defined values Hne) as [m Hm].
  exists m.
  split; [exact Hm | split; [exact (median_odd_middle values m Hodd Hm) |]].
  destruct values as [| x [| y l]]; [contradiction | |].
  - (* one value *)
    revert Hm. unfold median, sorted; simpl. unfold get; simpl.
    intros Hm; injection Hm as <-. reflexivity.
  - (* three values or more *)
    revert Hm. unfold percentile, median.
    set (vs := sorted (x :: y :: l)).
    set (n := Z.of_nat (List.length vs)).
    assert (Hn : (n mod 2 = 1)%Z).
    { unfold n, vs. rewrite sorted_length. apply odd_mod2, Hodd. }
    assert (Hpos : (n =? 0)%Z = false).
    { apply Z.eqb_neq. unfold n, vs. rewrite sorted_length. simpl. lia. }
    rewrite Hpos, Hn, (half_rank n Hn). simpl (1 =? 1)%Z. cbv iota.
    unfold floor. rewrite ZfloorZ, ceil_IZR, Z.eqb_refl, trunc_IZR.
    intros ->. reflexivity.
Qed.

Lemma percentile_median_witness :
  Nat.odd (List.length [3; 1; 2]%R) = true
  /\ exists m, median [3; 1; 2]%R = Ok m
               /\ middle_of m [3; 1; 2]%R
               /\ percentile [3; 1; 2]%R 50 = Ok (Some m).
Proof.
  split; [reflexivity |].
  apply (proj2 (proj2 percentile_median)). reflexivity.
Defined.

(** The median of [3, 1, 2] is [2]. *)
Lemma median_312 : median [3; 1; 2]%R = Ok 2%R.
Proof.
  unfold median, sorted, sort_by; simpl. unfold Rleb.
  repeat (match goal with
          | |- context [Rle_dec ?a ?b] =>
              destruct (Rle_dec a b); try lra
          end; simpl).
  reflexivity.
Qed.

End StatsFacts.

(** ** MetricExtractor *)

Module ExtractFacts.
Import Extract.

Lemma is_author_false (review : RawReview) (author : string) :
  review_login review <> Some author -> is_author review author = false.
Proof.
  intros Hne. unfold is_author.
  destruct (review_login review) as [login |]; [| reflexivity].
  destruct (String.eqb_spec login author) as [-> | _];
    [contradiction Hne; reflexivity | reflexivity].
Qed.

Lemma parse_iso8601_missing (v : option string) :
  v = None \/ v = Some "" -> parse_iso8601 v = Ok None.
Proof. intros [-> | ->]; reflexivity. Qed.

(** Reviews by the author and reviews without a submission time leave
    [times] as it is. *)
Lemma first_review_loop_skips (reviews : list RawReview) (author : string)
    (times : list Datetime.datetime) :
  (forall review,
     In review reviews -> review_login review <> Some author ->
     unsubmitted review) ->
  first_review_loop reviews author times = Ok times.
Proof.
  induction reviews as [| review rest IH]; intros Hskip; simpl;
    [reflexivity |].
  destruct (is_author review author) eqn:Hauth.
  - apply IH. intros r Hin. apply Hskip. right. exact Hin.
  - assert (Hne : review_login review <> Some author).
    { intros Heq. unfold is_author in Hauth. rewrite Heq in Hauth.
      rewrite String.eqb_refl in Hauth. discriminate. }
    rewrite (parse_iso8601_missing _ (Hskip review (or_introl eq_refl) Hne)).
    simpl. apply IH. intros r Hin. apply Hskip. right. exact Hin.
Qed.

(** One review without a submission time can be taken out of the list. *)
Lemma first_review_loop_skip_one (before after : list RawReview)
    (review : RawReview) (author : string) :
  unsubmitted review ->
  forall times,
    first_review_loop (before ++ review :: after) author times
    = first_review_loop (before ++ after) author times.
Proof.
  intros Hmissing.
  induction before as [| r0 before IH]; intros times; simpl.
  - rewrite (parse_iso8601_missing _ Hmissing). simpl.
    destruct (is_author review author); reflexivity.
  - destruct (is_author r0 author); [apply IH |].
    destruct (parse_iso8601 (submitted_at r0)) as [[t |] | e]; simpl;
      [apply IH | apply IH | reflexivity].
Qed.

(** C10: [compute_first_review_time] skips a review by someone other than
    the author whose [submitted_at] is missing or empty: the result is that
    of the list without it.  So when no such review carries a submission
    time it returns [None] and raises nothing, whatever reviews there
    are. *)
Theorem first_review_time_unsubmitted (reviews : list RawReview)
    (author : string) :
  (forall before review after,
     reviews = (before ++ review :: after)%list ->
     review_login review <> Some author -> unsubmitted review ->
     compute_first_review_time reviews author
     = compute_first_review_time (before ++ after) author)
  /\ ((forall review,
         In review reviews -> review_login review <> Some author ->
         unsubmitted review) ->
      compute_first_review_time reviews author = Ok None).
Proof.
  split.
  - intros before review after -> _ Hmissing. unfold compute_first_review_time.
    rewrite (first_review_loop_skip_one before after review author Hmissing).
    reflexivity.
  - intros Hskip. unfold compute_first_review_time.
    rewrite (first_review_loop_skips reviews author [] Hskip). reflexivity.
Qed.

Lemma first_review_time_unsubmitted_witness :
  compute_first_review_time
    [ mkReview (Some "bob") (Some "APPROVED") None;
      mkReview (Some "alice") (Some "COMMENTED") (Some "2024-01-05T10:00:00Z");
      mkReview None (Some "CHANGES_REQUESTED") (Some "") ]
    "alice"
  = Ok None.
Proof.
  apply (proj2 (first_review_time_unsubmitted _ "alice")).
  intros review [<- | [<- | [<- | []]]] Hne; unfold unsubmitted; simpl.
  - left; reflexivity.
  - contradiction Hne; reflexivity.
  - right; reflexivity.
Defined.

(** With a submitted review by someone else the time is that review's. *)
Lemma first_review_time_present :
  compute_first_review_time
    [ mkReview (Some "bob") (Some "APPROVED") None;
      mkReview (Some "carol") (Some "COMMENTED") (Some "2024-01-05T10:00:00Z");
      mkReview (Some "bob") (Some "APPROVED") (Some "2024-01-04T08:00:00Z") ]
    "alice"
  = Ok (Some (Datetime.of_fields 2024 1 4 8 0 0 0 (Some 0))).
Proof. vm_compute. reflexivity. Qed.

(** *** Churn ratio *)

Lemma gt_comparable (ct frt : Datetime.datetime) :
  comparable (Some frt) (Some ct) -> exists b, Datetime.gt ct frt = Ok b.
Proof.
  unfold comparable, Datetime.gt, Datetime.compare.
  destruct (Datetime.utcoffset ct), (Datetime.utcoffset frt); intros [H1 H2];
    simpl; try (eexists; reflexivity).
  - specialize (H1 eq_refl); discriminate.
  - specialize (H2 eq_refl); discriminate.
Qed.

Lemma commit_changes_nonneg (frt : option Datetime.datetime) (c : RawCommit) :
  well_formed_commit frt c -> 0 <= commit_changes c.
Proof.
  intros [Hst _]. unfold commit_changes.
  destruct (stats c) as [[a d] |]; lia.
Qed.

(** The loop returns for well-formed commits; it adds the line changes of
    the commits to [total_changes], and keeps [after_review_changes] between
    0 and the total. *)
Lemma churn_loop_totals (commits : list RawCommit)
    (frt : option Datetime.datetime) (total after : Z) :
  Forall (well_formed_commit frt) commits ->
  0 <= after <= total ->
  exists total' after',
    churn_loop commits frt total after = Ok (total', after')
    /\ total' = total + total_changes_of commits
    /\ 0 <= after' <= total'.
Proof.
  intros Hwf. revert total after.
  induction Hwf as [| c rest Hc _ IH]; intros total after Hinv; simpl.
  - exists total, after. repeat split; lia.
  - pose proof (commit_changes_nonneg frt c Hc) as Hnn.
    destruct Hc as [_ (t & Hparse & Hcmp)]. rewrite Hparse. simpl.
    assert (Hstep : exists after1,
               match frt, t with
               | Some f, Some ct =>
                   later <- Datetime.gt ct f ;;
                   Ok (if later then after + commit_changes c else after)
               | _, _ => Ok after
               end = Ok after1
               /\ 0 <= after1 <= total + commit_changes c).
    { destruct frt as [f |]; [| exists after; split; [reflexivity | lia]].
      destruct t as [ct |]; [| exists after; split; [reflexivity | lia]].
      destruct (gt_comparable ct f Hcmp) as [b Hb]. rewrite Hb. simpl.
      destruct b; eexists; (split; [reflexivity | lia]). }
    destruct Hstep as (after1 & Hafter & Hinv1). rewrite Hafter. simpl.
    destruct (IH (total + commit_changes c) after1 Hinv1)
      as (total' & after' & Hloop & Htotal & Hinv').
    exists total', after'. repeat split; try lia. exact Hloop.
Qed.

(** What the loop adds to [after_review_changes]: nothing exactly when no
    commit that changes a line is dated after the first review. *)
Lemma churn_loop_after (commits : list RawCommit)
    (frt : option Datetime.datetime) (total after total' after' : Z) :
  Forall (well_formed_commit frt) commits ->
  churn_loop commits frt total after = Ok (total', after') ->
  after <= after'
  /\ (after' = after
      <-> forall c, In c commits -> dated_after frt c -> commit_changes c = 0).
Proof.
  intros Hwf. revert total after.
  induction Hwf as [| c rest Hc _ IH]; intros total after; simpl.
  - intros H. injection H as _ <-.
    split; [lia | split; [intros _ c [] | reflexivity]].
  - pose proof (commit_changes_nonneg frt c Hc) as Hnn.
    destruct Hc as [_ (t & Hparse & Hcmp)]. rewrite Hparse. cbn [bind].
    assert (Hstep : exists after1,
               match frt, t with
               | Some f, Some ct =>
                   later <- Datetime.gt ct f ;;
                   Ok (if later then after + commit_changes c else after)
               | _, _ => Ok after
               end = Ok after1
               /\ after <= after1
               /\ (after1 = after <-> (dated_after frt c -> commit_changes c = 0))).
    { destruct frt as [f |].
      2:{ exists after. split; [reflexivity | split; [lia |]].
          split; [intros _ (f & ct & Hf & _); discriminate | reflexivity]. }
      destruct t as [ct |].
      2:{ exists after. split; [reflexivity | split; [lia |]].
          split; [| reflexivity].
          intros _ (f' & ct & _ & Hp & _). rewrite Hparse in Hp. discriminate. }
      destruct (gt_comparable ct f Hcmp) as [b Hb]. rewrite Hb. cbn [bind].
      destruct b.
      - exists (after + commit_changes c). split; [reflexivity | split; [lia |]].
        split.
        + intros Heq _. lia.
        + intros H. rewrite H; [lia |]. exists f, ct. repeat split; assumption.
      - exists after. split; [reflexivity | split; [lia |]].
        split; [| reflexivity].
        intros _ (f' & ct' & Hf & Hp & Hgt).
        injection Hf as <-. rewrite Hparse in Hp. injection Hp as <-.
        rewrite Hb in Hgt. discriminate. }
    destruct Hstep as (after1 & -> & Hle & Hhead). cbn [bind].
    intros Hloop. destruct (IH _ _ Hloop) as [Hle' Hrest].
    split; [lia |]. split.
    + intros Heq c' [<- | Hin].
      * apply Hhead. lia.
      * apply Hrest; [lia | exact Hin].
    + intros Hall.
      assert (H1 : after1 = after)
        by (apply Hhead; apply Hall; left; reflexivity).
      assert (H2 : after' = after1)
        by (apply Hrest; intros c' Hin; apply Hall; right; exact Hin).
      lia.
Qed.

(** C3, as the code has it: when there are commits and the examined ones
    are well formed, [compute_churn_ratio] returns a ratio in [[0, 1]];
    that ratio is 0.0 when the examined commits change no line, and in
    general it is 0.0 exactly when no examined commit that changes a line is
    dated after the first review, which is so of every commit when there is
    no first review. *)
Theorem churn_ratio_bounds (commits : list RawCommit)
    (frt : option Datetime.datetime) (max_commits_check : Z) :
  commits <> [] ->
  Forall (well_formed_commit frt) (examined commits max_commits_check) ->
  exists ratio,
    compute_churn_ratio commits frt max_commits_check = Ok (Some ratio)
    /\ (0 <= ratio <= 1)%R
    /\ (total_changes_of (examined commits max_commits_check) = 0 ->
        ratio = 0%R)
    /\ (ratio = 0%R
        <-> forall c,
              In c (examined commits max_commits_check) ->
              dated_after frt c -> commit_changes c = 0).
Proof.
  intros Hne Hwf. unfold compute_churn_ratio.
  destruct commits as [| c0 rest]; [contradiction |].
  destruct (churn_loop_totals _ frt 0 0 Hwf) as (total & after & Hloop & Htot & Hinv);
    [lia |].
  destruct (churn_loop_after _ frt 0 0 total after Hwf Hloop) as [_ Hafter].
  rewrite Hloop. simpl.
  destruct (total =? 0) eqn:Hz.
  - apply Z.eqb_eq in Hz. exists 0%R.
    split; [reflexivity |]. split; [lra |]. split; [reflexivity |].
    split; [intros _; apply Hafter; lia | reflexivity].
  - apply Z.eqb_neq in Hz. exists (IZR after / IZR total)%R.
    assert (Hpos : (0 < IZR total)%R) by (apply IZR_lt; lia).
    assert (Ha : (0 <= IZR after)%R) by (apply IZR_le; lia).
    assert (Hle : (IZR after <= IZR total)%R) by (apply IZR_le; lia).
    split; [reflexivity | split; [| split]].
    + split.
      * apply Rmult_le_pos; [exact Ha | left; apply Rinv_0_lt_compat, Hpos].
      * apply Rmult_le_reg_r with (IZR total); [exact Hpos |].
        unfold Rdiv. rewrite Rmult_assoc, Rinv_l by lra. lra.
    + intros Hzero. lia.
    + rewrite <- Hafter. split.
      * intros Hratio. apply eq_IZR.
        apply (f_equal (fun x => (x * IZR total)%R)) in Hratio.
        unfold Rdiv in Hratio.
        rewrite Rmult_assoc, Rinv_l, Rmult_1_r, Rmult_0_l in Hratio by lra.
        exact Hratio.
      * intros ->. unfold Rdiv. apply Rmult_0_l.
Qed.

Lemma churn_ratio_bounds_witness :
  exists ratio,
    compute_churn_ratio
      [ mkCommit (Some (10, 2)) (Some "2024-01-01T09:00:00Z") None None;
        mkCommit (Some (3, 1)) (Some "2024-01-03T09:00:00Z") None None ]
      (Some (Datetime.of_fields 2024 1 2 0 0 0 0 (Some 0))) 20
    = Ok (Some ratio)
    /\ (0 <= ratio <= 1)%R
    /\ (total_changes_of
          (examined
             [ mkCommit (Some (10, 2)) (Some "2024-01-01T09:00:00Z") None None;
               mkCommit (Some (3, 1)) (Some "2024-01-03T09:00:00Z") None None ]
             20) = 0 ->
        ratio = 0%R)
    /\ (ratio = 0%R
        <-> forall c,
              In c
                (examined
                   [ mkCommit (Some (10, 2)) (Some "2024-01-01T09:00:00Z") None
                       None;
                     mkCommit (Some (3, 1)) (Some "2024-01-03T09:00:00Z") None
                       None ]
                   20) ->
              dated_after
                (Some (Datetime.of_fields 2024 1 2 0 0 0 0 (Some 0))) c ->
              commit_changes c = 0).
Proof.
  apply churn_ratio_bounds.
  - discriminate.
  - repeat (apply Forall_cons; [| ]); try apply Forall_nil;
      (split; [simpl; lia |]);
      (eexists; split; [vm_compute; reflexivity |]);
      simpl; split; discriminate.
Defined.

(** C3, as the specification states it, fails: one commit of ten lines
    dated before the first review gives the ratio 0.0, though the examined
    total is 10 and not 0. *)
Lemma churn_ratio_zero_with_changes :
  let commits :=
    [ mkCommit (Some (10, 0)) (Some "2024-01-01T09:00:00Z") None None ] in
  let frt := Some (Datetime.of_fields 2024 1 2 0 0 0 0 (Some 0)) in
  examined commits 20 <> []
  /\ total_changes_of (examined commits 20) = 10
  /\ exists ratio,
       compute_churn_ratio commits frt 20 = Ok (Some ratio)
       /\ ratio = 0%R.
Proof.
  split; [discriminate | split; [reflexivity |]].
  exists (IZR 0 / IZR 10)%R. split; [| lra].
  unfold compute_churn_ratio, examined. simpl firstn.
  unfold churn_loop.
  replace (parse_iso8601 (committer_date _))
    with (Ok (Some (Datetime.of_fields 2024 1 1 9 0 0 0 (Some 0))))
    by (vm_compute; reflexivity).
  reflexivity.
Qed.

End ExtractFacts.

(** ** DeltaCalculator *)

Module DeltasFacts.
Import Deltas.

(** C7: without an adoption timestamp [build_deltas] returns, for every
    list of scored PRs, the four records in the order Median Score, CI Fail
    Rate, Median Churn, Median Size, with [before], [after] and [delta] all
    [None]. *)
Theorem build_deltas_no_adoption (prs : list ScoredPR) :
  build_deltas prs None
  = Ok [ mkDelta "Median Score" None None None;
         mkDelta "CI Fail Rate" None None None;
         mkDelta "Median Churn" None None None;
         mkDelta "Median Size" None None None ].
Proof. reflexivity. Qed.

(** *** [format_delta] *)

Lemma format_delta_absent (b a : option R) (fmt : string) :
  b = None \/ a = None -> format_delta b a fmt = (None, None, None).
Proof.
  intros [-> | ->]; [reflexivity | destruct b; reflexivity].
Qed.

Lemma format_delta_present (b a : R) (fmt : string) :
  format_delta (Some b) (Some a) fmt
  = (Some (Format fmt b), Some (Format fmt a), Some (Format fmt (a - b)%R)).
Proof. reflexivity. Qed.

(** *** The partition, for timestamps of one kind *)

Lemma lt_same_kind (m a : Datetime.datetime) :
  same_kind m a -> Datetime.lt m a = Ok (instant m <? instant a).
Proof.
  unfold same_kind, Datetime.lt, Datetime.compare, instant, Z.ltb.
  destruct (Datetime.utcoffset m), (Datetime.utcoffset a); intros [H1 H2];
    simpl; try reflexivity.
  - specialize (H2 eq_refl); discriminate.
  - specialize (H1 eq_refl); discriminate.
Qed.

Lemma ge_same_kind (m a : Datetime.datetime) :
  same_kind m a -> Datetime.ge m a = Ok (instant a <=? instant m).
Proof.
  unfold same_kind, Datetime.ge, Datetime.compare, instant, Z.leb.
  destruct (Datetime.utcoffset m) as [om |], (Datetime.utcoffset a) as [oa |];
    intros [H1 H2]; simpl.
  - rewrite (Z.compare_antisym (Datetime.wall m - om)).
    destruct (Datetime.wall m - om ?= Datetime.wall a - oa); reflexivity.
  - specialize (H2 eq_refl); discriminate.
  - specialize (H1 eq_refl); discriminate.
  - rewrite (Z.compare_antisym (Datetime.wall m)).
    destruct (Datetime.wall m ?= Datetime.wall a); reflexivity.
Qed.

Lemma filter_r_pure {A : Type} (f : A -> result bool) (g : A -> bool)
    (l : list A) :
  Forall (fun x => f x = Ok (g x)) l -> PyList.filter_r f l = Ok (filter g l).
Proof.
  induction 1 as [| x l Hx _ IH]; simpl; [reflexivity |].
  rewrite Hx, IH. simpl. destruct (g x); reflexivity.
Qed.

Lemma before_prs_same_kind (adoption : Datetime.datetime) (prs : list ScoredPR) :
  Forall (merged_same_kind adoption) prs ->
  PyList.filter_r (merged_before adoption) prs
  = Ok (before_partition adoption prs).
Proof.
  intros Hk. apply filter_r_pure.
  eapply Forall_impl; [| exact Hk].
  intros pr Hpr. unfold merged_before, merged_same_kind in *.
  destruct (pr_merged_at pr); [apply lt_same_kind, Hpr | reflexivity].
Qed.

Lemma after_prs_same_kind (adoption : Datetime.datetime) (prs : list ScoredPR) :
  Forall (merged_same_kind adoption) prs ->
  PyList.filter_r (merged_since adoption) prs
  = Ok (after_partition adoption prs).
Proof.
  intros Hk. apply filter_r_pure.
  eapply Forall_impl; [| exact Hk].
  intros pr Hpr. unfold merged_since, merged_same_kind in *.
  destruct (pr_merged_at pr); [apply ge_same_kind, Hpr | reflexivity].
Qed.

(** Membership in the two partitions. *)
Lemma in_before_partition (adoption : Datetime.datetime)
    (prs : list ScoredPR) (pr : ScoredPR) :
  In pr (before_partition adoption prs)
  <-> In pr prs
      /\ exists m, pr_merged_at pr = Some m /\ instant m < instant adoption.
Proof.
  unfold before_partition. rewrite filter_In.
  destruct (pr_merged_at pr) as [m |].
  - rewrite Z.ltb_lt. split.
    + intros [Hin Hlt]. split; [exact Hin | exists m; split; [reflexivity | exact Hlt]].
    + intros [Hin (m' & Hm & Hlt)]. injection Hm as <-. split; assumption.
  - split; [intros [_ H]; discriminate | intros [_ (m & Hm & _)]; discriminate].
Qed.

Lemma in_after_partition (adoption : Datetime.datetime)
    (prs : list ScoredPR) (pr : ScoredPR) :
  In pr (after_partition adoption prs)
  <-> In pr prs
      /\ exists m, pr_merged_at pr = Some m /\ instant adoption <= instant m.
Proof.
  unfold after_partition. rewrite filter_In.
  destruct (pr_merged_at pr) as [m |].
  - rewrite Z.leb_le. split.
    + intros [Hin Hle]. split; [exact Hin | exists m; split; [reflexivity | exact Hle]].
    + intros [Hin (m' & Hm & Hle)]. injection Hm as <-. split; assumption.
  - split; [intros [_ H]; discriminate | intros [_ (m & Hm & _)]; discriminate].
Qed.

Lemma median_of_defined (key : ScoredPR -> option R) (part : list ScoredPR) :
  exists v, median_of key part = Ok v
            /\ (v = None <-> PyList.keep_some key part = []).
Proof.
  unfold median_of.
  destruct (StatsFacts.safe_median_defined (PyList.keep_some key part))
    as (v & Hv & Hnone).
  destruct (PyList.keep_some key part) as [| x l] eqn:Hk.
  - exists None. split; [reflexivity | tauto].
  - exists v. split; [exact Hv | exact Hnone].
Qed.

Lemma aggregates_defined (part : list ScoredPR) :
  exists score ci churn size,
    aggregates part = Ok [score; ci; churn; size]
    /\ median_of key_score part = Ok score
    /\ rate_of pr_ci_failed part = ci
    /\ median_of key_churn_ratio part = Ok churn
    /\ median_of key_size part = Ok size.
Proof.
  destruct (median_of_defined key_score part) as (score & Hs & _).
  destruct (median_of_defined key_churn_ratio part) as (churn & Hc & _).
  destruct (median_of_defined key_size part) as (size & Hz & _).
  exists score, (rate_of pr_ci_failed part), churn, size.
  unfold aggregates. rewrite Hs, Hc, Hz. simpl. repeat split; reflexivity.
Qed.

(** With an adoption timestamp of the kind of the merge timestamps,
    [build_deltas] returns the four records, each built by [format_delta]
    from the aggregates of the two partitions. *)
Lemma build_deltas_same_kind (prs : list ScoredPR)
    (adoption : Datetime.datetime) :
  Forall (merged_same_kind adoption) prs ->
  exists b1 b2 b3 b4 a1 a2 a3 a4,
    aggregates (before_partition adoption prs) = Ok [b1; b2; b3; b4]
    /\ aggregates (after_partition adoption prs) = Ok [a1; a2; a3; a4]
    /\ build_deltas prs (Some adoption)
       = Ok [ delta_record "Median Score" (format_delta b1 a1 "{:.1f}");
              delta_record "CI Fail Rate" (format_delta b2 a2 "{:.1%}");
              delta_record "Median Churn" (format_delta b3 a3 "{:.1%}");
              delta_record "Median Size" (format_delta b4 a4 "{:.1f}") ].
Proof.
  intros Hk.
  destruct (aggregates_defined (before_partition adoption prs))
    as (b1 & b2 & b3 & b4 & Hb & Hb1 & Hb2 & Hb3 & Hb4).
  destruct (aggregates_defined (after_partition adoption prs))
    as (a1 & a2 & a3 & a4 & Ha & Ha1 & Ha2 & Ha3 & Ha4).
  exists b1, b2, b3, b4, a1, a2, a3, a4.
  split; [exact Hb | split; [exact Ha |]].
  unfold build_deltas.
  rewrite (before_prs_same_kind adoption prs Hk),
    (after_prs_same_kind adoption prs Hk). simpl.
  rewrite Hb1, Ha1, Hb3, Ha3, Hb4, Ha4. simpl.
  rewrite Hb2, Ha2. reflexivity.
Qed.

(** *** A naive adoption date *)

(** [--adoption-date 2024-01-01] parses to a naive value, the [merged_at]
    of the API to an aware one. *)
Lemma adoption_date_naive :
  parse_iso8601 (Some "2024-01-01")
  = Ok (Some (Datetime.of_fields 2024 1 1 0 0 0 0 None)).
Proof. vm_compute. reflexivity. Qed.

Lemma merged_at_aware :
  parse_iso8601 (Some "2024-01-02T10:00:00Z")
  = Ok (Some (Datetime.of_fields 2024 1 2 10 0 0 0 (Some 0))).
Proof. vm_compute. reflexivity. Qed.

(** C6, at a failing input: with the adoption date that [main] parses from
    [--adoption-date 2024-01-01] and a PR merged on 2024-01-02T10:00:00Z,
    [build_deltas] builds no partition; the comparison of the aware merge
    timestamp with the naive adoption date raises [TypeError]. *)
Theorem build_deltas_naive_adoption :
  build_deltas [merged_2024_01_02]
    (Some (Datetime.of_fields 2024 1 1 0 0 0 0 None))
  = Raise TypeError.
Proof. reflexivity. Qed.

(** An order comparison of timestamps of two kinds ends [build_deltas],
    wherever the PR stands in the list. *)
Lemma before_prs_mixed_kinds (adoption : Datetime.datetime)
    (prs : list ScoredPR) :
  Exists (fun pr => ~ merged_same_kind adoption pr) prs ->
  PyList.filter_r (merged_before adoption) prs = Raise TypeError.
Proof.
  intros Hex. induction prs as [| pr rest IH]; [inversion Hex |]. simpl.
  assert (Hhead : (exists b, merged_before adoption pr = Ok b)
                  \/ (merged_before adoption pr = Raise TypeError
                      /\ ~ merged_same_kind adoption pr)).
  { unfold merged_before, merged_same_kind, same_kind, Datetime.lt,
      Datetime.compare.
    destruct (pr_merged_at pr) as [m |]; [| left; eexists; reflexivity].
    destruct (Datetime.utcoffset m), (Datetime.utcoffset adoption); simpl;
      try (left; eexists; reflexivity);
      right; (split; [reflexivity | intros [H1 H2]]);
      try (specialize (H1 eq_refl); discriminate);
      specialize (H2 eq_refl); discriminate. }
  destruct Hhead as [[b Hb] | [Hraise _]].
  - rewrite Hb. simpl. rewrite IH; [reflexivity |].
    inversion Hex as [? ? Hhd | ? ? Htl]; subst; [| exact Htl].
    exfalso. apply Hhd.
    unfold merged_same_kind, merged_before, same_kind, Datetime.lt,
      Datetime.compare in *.
    destruct (pr_merged_at pr) as [m |]; [| exact I].
    destruct (Datetime.utcoffset m), (Datetime.utcoffset adoption);
      simpl in Hb; try discriminate; split; intros; try discriminate;
      reflexivity.
  - rewrite Hraise. reflexivity.
Qed.

Lemma build_deltas_mixed_kinds (prs : list ScoredPR)
    (adoption : Datetime.datetime) :
  Exists (fun pr => ~ merged_same_kind adoption pr) prs ->
  build_deltas prs (Some adoption) = Raise TypeError.
Proof.
  intros Hex. unfold build_deltas.
  rewrite (before_prs_mixed_kinds adoption prs Hex). reflexivity.
Qed.

End DeltasFacts.

(** ** The run *)

Module EngineFacts.
Import Deltas Engine.

(** A PR on which the loop body raises ends the loop with an exception. *)
Lemma main_loop_raises (args : Args) (since : Datetime.datetime)
    (merged_prs : list RawPR) (pr : RawPR) (e : exn) :
  In pr merged_prs -> process_pr args pr = Raise e ->
  forall processed buckets,
    exists e', main_loop args since merged_prs processed buckets = Raise e'.
Proof.
  intros Hin Hraise.
  induction merged_prs as [| pr0 rest IH]; [contradiction |].
  intros processed buckets. simpl.
  destruct (process_pr args pr0) as [entry |e0] eqn:Hp0; simpl;
    [| exists e0; reflexivity].
  destruct Hin as [-> | Hin]; [rewrite Hraise in Hp0; discriminate |].
  destruct (pr_merged_at entry) as [m |]; simpl.
  - destruct (Datetime.ge m since) as [recent | e1]; simpl;
      [| exists e1; reflexivity].
    apply IH, Hin.
  - apply IH, Hin.
Qed.

Lemma run_raises (args : Args) (raw_prs : list RawPR) (w : World)
    (pr : RawPR) (e : exn) :
  In pr (select_prs args raw_prs) -> process_pr args pr = Raise e ->
  exists e', run args raw_prs w = Raise e'.
Proof.
  intros Hin Hraise. unfold run, main.
  destruct (parse_iso8601 (adoption_date args)) as [adoption | e0];
    cbn [bind now_utc]; [| exists e0; reflexivity].
  destruct (Datetime.timedelta_days (30 * months args)) as [lookback | e1];
    cbn [bind]; [| exists e1; reflexivity].
  destruct (Datetime.sub_delta _ lookback) as [since | e2]; cbn [bind];
    [| exists e2; reflexivity].
  destruct (main_loop_raises args since _ pr e Hin Hraise [] []) as [e3 He3].
  rewrite He3. exists e3. reflexivity.
Qed.

Lemma process_pr_malformed (args : Args) (pr : RawPR) :
  malformed_timestamp pr -> exists e, process_pr args pr = Raise e.
Proof.
  intros Hbad. unfold process_pr.
  destruct (Extract.compute_first_review_time _ _) as [frt | e0]; simpl;
    [| exists e0; reflexivity].
  destruct (Extract.compute_churn_ratio _ _ _) as [churn | e1]; simpl;
    [| exists e1; reflexivity].
  destruct Hbad as [Hbad | Hbad].
  - rewrite Hbad. exists ValueError. reflexivity.
  - destruct (parse_iso8601 (raw_merged_at pr)) as [merged | e2]; simpl;
      [| exists e2; reflexivity].
    rewrite Hbad. exists ValueError. reflexivity.
Qed.

(** C8, as the code has it: a PR among those processed whose merge or
    creation timestamp does not parse ends the whole run with an exception;
    the run returns no payload, whatever was computed for the other PRs. *)
Theorem run_aborts_on_malformed_timestamp (args : Args)
    (raw_prs : list RawPR) (w : World) (pr : RawPR) :
  In pr (select_prs args raw_prs) -> malformed_timestamp pr ->
  exists e, run args raw_prs w = Raise e.
Proof.
  intros Hin Hbad.
  destruct (process_pr_malformed args pr Hbad) as [e He].
  exact (run_raises args raw_prs w pr e Hin He).
Qed.

(** *** A run with one malformed PR *)

Lemma good_pr_entry : process_pr default_args good_pr = Ok good_entry.
Proof.
  unfold process_pr, good_pr. cbn -[Scoring.score_pr parse_iso8601 IZR].
  replace (parse_iso8601 (Some "2024-02-20T10:00:00Z"))
    with (Ok (Some (Datetime.of_fields 2024 2 20 10 0 0 0 (Some 0))))
    by (vm_compute; reflexivity).
  replace (parse_iso8601 (Some "2024-02-19T10:00:00Z"))
    with (Ok (Some (Datetime.of_fields 2024 2 19 10 0 0 0 (Some 0))))
    by (vm_compute; reflexivity).
  cbn -[Scoring.score_pr IZR Datetime.of_fields Datetime.sub].
  replace (Datetime.sub _ _) with (Ok 86400000000) by (vm_compute; reflexivity).
  cbn [bind].
  rewrite ScoringFacts.score_pr_defined by (vm_compute; discriminate).
  reflexivity.
Qed.

Lemma bad_pr_raises : process_pr default_args bad_pr = Raise ValueError.
Proof.
  unfold process_pr, bad_pr. cbn -[Scoring.score_pr parse_iso8601 IZR].
  replace (parse_iso8601 (Some "2024-02-10T10:00:00Z"))
    with (Ok (Some (Datetime.of_fields 2024 2 10 10 0 0 0 (Some 0))))
    by (vm_compute; reflexivity).
  replace (parse_iso8601 (Some "yesterday")) with (@Raise (option Datetime.datetime) ValueError)
    by (vm_compute; reflexivity).
  reflexivity.
Qed.

Lemma run_aborts_on_malformed_timestamp_witness :
  exists e,
    run default_args [bad_pr; good_pr] (ticking (noon 2024 3 1)) = Raise e.
Proof.
  apply (run_aborts_on_malformed_timestamp default_args [bad_pr; good_pr]
           (ticking (noon 2024 3 1)) bad_pr).
  - vm_compute. right. left. reflexivity.
  - right. vm_compute. reflexivity.
Defined.

(** C8, as the specification states it, fails: of two merged PRs the first
    one processed yields its entry, the second has the creation time
    [yesterday], and the run ends with the bare [ValueError] of the parser:
    no payload, no entry of the first PR, no PR number in the error. *)
Lemma run_discards_processed_prs :
  select_prs default_args [bad_pr; good_pr] = [good_pr; bad_pr]
  /\ process_pr default_args good_pr = Ok good_entry
  /\ run default_args [bad_pr; good_pr] (ticking (noon 2024 3 1))
     = Raise ValueError.
Proof.
  assert (Hsel : select_prs default_args [bad_pr; good_pr] = [good_pr; bad_pr])
    by (vm_compute; reflexivity).
  split; [exact Hsel | split; [exact good_pr_entry |]].
  unfold run, main. rewrite Hsel.
  cbn [default_args adoption_date months parse_iso8601 bind now_utc].
  replace (Datetime.timedelta_days (30 * 12))
    with (Ok (360 * Datetime.us_per_day)) by (vm_compute; reflexivity).
  cbn [bind].
  destruct (Datetime.sub_delta _ _) as [since |] eqn:Hsince;
    [| vm_compute in Hsince; discriminate].
  cbn [bind main_loop]. rewrite good_pr_entry.
  cbn [bind pr_merged_at good_entry].
  replace (Datetime.ge _ since) with (Ok true)
    by (vm_compute in Hsince; injection Hsince as <-; vm_compute; reflexivity).
  cbn [bind]. rewrite bad_pr_raises. reflexivity.
Qed.

(** *** The system clock *)

(** The entries that the loop appends are those of the loop body, whatever
    the lookback limit. *)
Lemma main_loop_processed (args : Args) (since : Datetime.datetime)
    (merged_prs : list RawPR) :
  forall processed buckets processed' buckets',
    main_loop args since merged_prs processed buckets
    = Ok (processed', buckets') ->
    exists entries,
      map_r (process_pr args) merged_prs = Ok entries
      /\ processed' = (processed ++ entries)%list.
Proof.
  induction merged_prs as [| pr rest IH]; intros processed buckets
    processed' buckets' Hloop; simpl in Hloop.
  - injection Hloop as <- _. exists []. split; [reflexivity |].
    rewrite app_nil_r. reflexivity.
  - simpl. destruct (process_pr args pr) as [entry | e]; simpl in *;
      [| discriminate].
    assert (Hrest : exists buckets1,
               main_loop args since rest (processed ++ [entry])%list buckets1
               = Ok (processed', buckets')).
    { destruct (pr_merged_at entry) as [m |]; simpl in Hloop.
      - destruct (Datetime.ge m since) as [recent | e]; simpl in Hloop;
          [| discriminate].
        eexists. exact Hloop.
      - eexists. exact Hloop. }
    destruct Hrest as [buckets1 Hrest].
    destruct (IH _ _ _ _ Hrest) as (entries & Hmap & Heq).
    exists (entry :: entries). rewrite Hmap. simpl.
    split; [reflexivity |]. rewrite Heq, <- app_assoc. reflexivity.
Qed.

Lemma run_payload (args : Args) (raw_prs : list RawPR) (w : World)
    (p : Payload) :
  run args raw_prs w = Ok p ->
  exists adoption entries,
    parse_iso8601 (adoption_date args) = Ok adoption
    /\ map_r (process_pr args) (select_prs args raw_prs) = Ok entries
    /\ prs p = entries
    /\ build_deltas entries adoption = Ok (deltas p)
    /\ payload_repo p = repo args
    /\ payload_adoption_date p = adoption_date args
    /\ payload_score_threshold p = score_threshold args
    /\ generated_at p
       = Datetime.strftime_minutes
           (Datetime.mkDatetime (clock w (S (reads w))) (Some 0)).
Proof.
  unfold run, main. intros Hrun.
  destruct (parse_iso8601 (adoption_date args)) as [adoption | e0];
    cbn [bind now_utc] in Hrun; [| discriminate].
  destruct (Datetime.timedelta_days (30 * months args)) as [lookback | e1];
    cbn [bind] in Hrun; [| discriminate].
  destruct (Datetime.sub_delta _ lookback) as [since | e2];
    cbn [bind] in Hrun; [| discriminate].
  destruct (main_loop args since _ [] []) as [[processed buckets] | e3]
    eqn:Hloop; cbn [bind] in Hrun; [| discriminate].
  destruct (map_r (week_stats args) _) as [stats | e4]; cbn [bind] in Hrun;
    [| discriminate].
  cbn [clock reads] in Hrun.
  destruct (build_deltas processed adoption) as [ds | e5] eqn:Hd;
    cbn [bind fst] in Hrun; [| discriminate].
  injection Hrun as <-.
  destruct (main_loop_processed _ _ _ _ _ _ _ Hloop) as (entries & Hmap & Heq).
  simpl in Heq. subst processed.
  exists adoption, entries. cbn.
  repeat split; try reflexivity; assumption.
Qed.

(** C9, as the code has it: [main] takes two readings of the system clock
    itself.  Two runs on the same arguments and fetched PRs whose clocks
    give the same two readings end alike; and whatever the clocks, two
    payloads agree on [repo], [adoption_date], [prs], [score_threshold] and
    [deltas]. *)
Theorem run_clock_dependence (args : Args) (raw_prs : list RawPR)
    (w1 w2 : World) :
  (clock w1 (reads w1) = clock w2 (reads w2) ->
   clock w1 (S (reads w1)) = clock w2 (S (reads w2)) ->
   run args raw_prs w1 = run args raw_prs w2)
  /\ (forall p1 p2,
        run args raw_prs w1 = Ok p1 -> run args raw_prs w2 = Ok p2 ->
        payload_repo p1 = payload_repo p2
        /\ payload_adoption_date p1 = payload_adoption_date p2
        /\ prs p1 = prs p2
        /\ payload_score_threshold p1 = payload_score_threshold p2
        /\ deltas p1 = deltas p2).
Proof.
  split.
  - intros H1 H2. unfold run, main.
    destruct (parse_iso8601 (adoption_date args)) as [adoption | e0];
      cbn [bind now_utc]; [| reflexivity].
    destruct (Datetime.timedelta_days (30 * months args)) as [lookback | e1];
      cbn [bind]; [| reflexivity].
    rewrite H1.
    destruct (Datetime.sub_delta _ lookback) as [since | e2]; cbn [bind];
      [| reflexivity].
    destruct (main_loop args since _ [] []) as [[processed buckets] | e3];
      cbn [bind]; [| reflexivity].
    destruct (map_r (week_stats args) _) as [stats | e4]; cbn [bind];
      [| reflexivity].
    cbn [clock reads]. rewrite H2.
    destruct (build_deltas processed adoption) as [ds | e5]; reflexivity.
  - intros p1 p2 Hp1 Hp2.
    destruct (run_payload _ _ _ _ Hp1)
      as (ad1 & en1 & Ha1 & Hm1 & Hprs1 & Hd1 & Hr1 & Had1 & Ht1 & _).
    destruct (run_payload _ _ _ _ Hp2)
      as (ad2 & en2 & Ha2 & Hm2 & Hprs2 & Hd2 & Hr2 & Had2 & Ht2 & _).
    rewrite Ha1 in Ha2. injection Ha2 as <-.
    rewrite Hm1 in Hm2. injection Hm2 as <-.
    rewrite Hd1 in Hd2. injection Hd2 as Hd.
    repeat split; congruence.
Qed.

Lemma run_clock_dependence_witness :
  run default_args [good_pr] (ticking (noon 2024 3 1))
  = run default_args [good_pr] (stopped_clock (noon 2024 3 1)).
Proof.
  apply (proj1 (run_clock_dependence default_args [good_pr]
                  (ticking (noon 2024 3 1)) (stopped_clock (noon 2024 3 1))));
    reflexivity.
Defined.

(** The statistics of a week with one PR. *)
Lemma week_stats_single (args : Args) (key : string) (entry : ScoredPR) :
  exists stats,
    week_stats args (key, [entry]) = Ok stats
    /\ week stats = key
    /\ median_score stats = Some (pr_score entry).
Proof.
  unfold week_stats. cbn [map PyList.keep_some List.length].
  assert (Hm : forall x, Stats.safe_median [x] = Ok (Some x))
    by (intros x; reflexivity).
  rewrite !Hm. cbn [bind Stats.percentile].
  destruct (pr_churn_ratio entry); [rewrite Hm |];
    cbn [bind Stats.safe_median];
    eexists; (split; [reflexivity | split; reflexivity]).
Qed.

(** The run on [good_pr] up to the loop, for a clock reading that leaves
    the lookback limit in range. *)
Lemma run_good_pr (start : Z) (recent : bool) :
  Datetime.in_range (start - 360 * Datetime.us_per_day) = true ->
  Datetime.ge (Datetime.of_fields 2024 2 20 10 0 0 0 (Some 0))
    (Datetime.mkDatetime (start - 360 * Datetime.us_per_day) (Some 0))
  = Ok recent ->
  run default_args [good_pr] (ticking start)
  = (weekly_stats <-
       map_r (week_stats default_args)
         (if recent then [("2024-W08", [good_entry])] else []) ;;
     Ok (mkPayload "octo/repo"
           (Datetime.strftime_minutes
              (Datetime.mkDatetime (start + 1 * Datetime.us_per_second)
                 (Some 0)))
           None [good_entry] weekly_stats 70
           [ mkDelta "Median Score" None None None;
             mkDelta "CI Fail Rate" None None None;
             mkDelta "Median Churn" None None None;
             mkDelta "Median Size" None None None ])).
Proof.
  intros Hrange Hge.
  assert (Hsel : select_prs default_args [good_pr] = [good_pr])
    by (vm_compute; reflexivity).
  unfold run, main. rewrite Hsel.
  cbn [default_args adoption_date months parse_iso8601 bind now_utc ticking
       clock reads repo score_threshold].
  replace (Datetime.timedelta_days (30 * 12))
    with (Ok (360 * Datetime.us_per_day)) by (vm_compute; reflexivity).
  cbn [bind]. unfold Datetime.sub_delta.
  cbn [Datetime.wall Datetime.utcoffset Z.of_nat].
  rewrite Z.mul_0_l, Z.add_0_r, Hrange.
  cbn [bind main_loop]. rewrite good_pr_entry.
  cbn [bind pr_merged_at good_entry app]. rewrite Hge.
  replace (iso_week_key _) with "2024-W08" by (vm_compute; reflexivity).
  destruct recent;
    cbn [bind bucket_append PyList.sort_by fold_right PyList.insert];
    destruct (map_r _ _); reflexivity.
Qed.

(** C9, as the specification states it, fails: [main] has no parameter for
    the current time, and two runs on the same arguments and the same
    fetched PR give different payloads when the system clock differs: read
    on 2024-03-01 the PR is inside the lookback window and has its week,
    read on 2026-01-01 it is outside and there is no week. *)
Lemma run_depends_on_clock :
  exists p1 p2,
    run default_args [good_pr] (ticking (noon 2024 3 1)) = Ok p1
    /\ run default_args [good_pr] (ticking (noon 2026 1 1)) = Ok p2
    /\ map week (weekly p1) = ["2024-W08"] /\ weekly p2 = []
    /\ generated_at p1 = "2024-03-01 12:00 UTC"
    /\ generated_at p2 = "2026-01-01 12:00 UTC"
    /\ p1 <> p2.
Proof.
  destruct (week_stats_single default_args "2024-W08" good_entry)
    as (stats & Hstats & Hweek & _).
  eexists. eexists.
  split; [| split].
  - rewrite (run_good_pr (noon 2024 3 1) true);
      [| vm_compute; reflexivity | vm_compute; reflexivity].
    cbn [map_r]. rewrite Hstats. cbn [bind]. reflexivity.
  - rewrite (run_good_pr (noon 2026 1 1) false);
      [| vm_compute; reflexivity | vm_compute; reflexivity].
    cbn [map_r bind]. reflexivity.
  - cbn [weekly map generated_at]. rewrite Hweek.
    repeat split; try reflexivity.
    intros Heq. apply (f_equal weekly) in Heq. cbn [weekly] in Heq.
    discriminate Heq.
Qed.

(** Without a PR the payloads of two clocks differ in [generated_at]
    alone. *)
Lemma generated_at_reads_the_clock :
  exists p1 p2,
    run default_args [] (ticking (noon 2024 3 1)) = Ok p1
    /\ run default_args [] (ticking (noon 2024 3 2)) = Ok p2
    /\ generated_at p1 = "2024-03-01 12:00 UTC"
    /\ generated_at p2 = "2024-03-02 12:00 UTC"
    /\ weekly p1 = weekly p2.
Proof.
  eexists. eexists.
  split; [vm_compute; reflexivity |].
  split; [vm_compute; reflexivity |].
  repeat split; reflexivity.
Qed.

End EngineFacts.

(** * Further properties of the code *)

(** ** ScoringEngine: the weighted sum *)

Module ScoringMore.
Import Scoring ScoringFacts.

Local Open Scope R_scope.

Lemma weights_sum :
  w_size + w_files + w_review_rounds + w_churn + w_time_to_first_review
  + w_time_to_merge + w_ci_fail = 1.
Proof.
  unfold w_size, w_files, w_review_rounds, w_churn, w_time_to_first_review,
    w_time_to_merge, w_ci_fail. lra.
Qed.

Lemma risk_sum_bounds (m : PRMetrics) :
  0 <= risk_sum (size_risk_of m) m <= 1.
Proof.
  pose proof (clamp_bounds (ln (1 + IZR (size m)) / ln (1 + 2000)) 0 1) as Hs.
  pose proof (clamp_bounds (IZR (files_changed m) / 50) 0 1) as Hf.
  pose proof (clamp_bounds (IZR (review_rounds m) / 3) 0 1) as Hr.
  pose proof (clamp_bounds (or_zero (churn_ratio m) / (5 / 10)) 0 1) as Hc.
  pose proof (tfr_risk_bounds m) as Ht.
  pose proof (ttm_risk_bounds m) as Hm.
  pose proof (ci_risk_bounds m) as Hci.
  unfold risk_sum, size_risk_of, files_risk, review_rounds_risk, churn_risk,
    w_size, w_files, w_review_rounds, w_churn, w_time_to_first_review,
    w_time_to_merge, w_ci_fail.
  lra.
Qed.

Lemma score_of_unclamped (m : PRMetrics) :
  score_of m = 100 * (1 - risk_sum (size_risk_of m) m).
Proof.
  unfold score_of. apply clamp_inside.
  pose proof (risk_sum_bounds m). lra.
Qed.

(** The clamp of the score never engages: the weighted risk is within
    [0, 1]. *)
Lemma score_pr_weighted_sum (m : PRMetrics) :
  (0 <= size m)%Z ->
  exists components,
    score_pr m = Ok (100 * (1 - risk_sum (size_risk_of m) m), components)
    /\ 0 <= risk_sum (size_risk_of m) m <= 1.
Proof.
  intros Hs. exists (components_of m). split.
  - rewrite score_pr_defined by exact Hs. rewrite score_of_unclamped. reflexivity.
  - apply risk_sum_bounds.
Qed.

(** X1: a CI failure costs 10 points.  On a record of size 0 or more
    [score_pr] returns with [ci_failed] false and with [ci_failed] true,
    whatever the other metrics are, and the second score is below the
    first, by 10 points.  Over the reals the difference is exactly 10; the
    float arithmetic of the program rounds the two weighted sums apart, so
    the statement allows a margin of 1e-9, far above what the rounding of
    binary64 adds on scores up to 100. *)
Theorem score_pr_ci_failure_costs_ten (m : PRMetrics) :
  (0 <= size m)%Z ->
  exists s c s' c',
    score_pr (with_ci m false) = Ok (s, c)
    /\ score_pr (with_ci m true) = Ok (s', c')
    /\ s' < s
    /\ s - 10 - 1 / 1000000000 <= s' <= s - 10 + 1 / 1000000000.
Proof.
  intros Hs.
  exists (score_of (with_ci m false)), (components_of (with_ci m false)),
    (score_of (with_ci m true)), (components_of (with_ci m true)).
  split; [apply score_pr_defined; exact Hs |].
  split; [apply score_pr_defined; exact Hs |].
  rewrite !score_of_unclamped.
  unfold risk_sum, size_risk_of, size, files_risk, review_rounds_risk,
    churn_risk, tfr_risk, ttm_risk, ci_risk, w_ci_fail; simpl.
  split; [lra | split; lra].
Qed.

Lemma clamp01_zero (v : R) : clamp v 0 1 = 0 <-> v <= 0.
Proof.
  unfold clamp. split; intros H.
  - unfold Rmax, Rmin in H.
    destruct (Rle_dec 1 v); destruct (Rle_dec 0 _); lra.
  - rewrite Rmin_right by lra. apply Rmax_left. exact H.
Qed.

Lemma clamp01_one (v : R) : clamp v 0 1 = 1 <-> 1 <= v.
Proof.
  unfold clamp. split; intros H.
  - unfold Rmax, Rmin in H.
    destruct (Rle_dec 1 v); destruct (Rle_dec 0 _); lra.
  - rewrite Rmin_left by lra. apply Rmax_right. lra.
Qed.

Lemma ln_le_iff (x y : R) : 0 < x -> 0 < y -> (ln x <= ln y <-> x <= y).
Proof.
  intros Hx Hy. split; intros H.
  - destruct (Rle_lt_dec x y) as [Hle | Hlt]; [exact Hle |].
    pose proof (ln_increasing y x Hy Hlt). lra.
  - apply ln_le_mono; assumption.
Qed.

Lemma size_risk_zero (m : PRMetrics) :
  (0 <= size m)%Z -> (size_risk_of m = 0 <-> size m = 0%Z).
Proof.
  intros Hs. unfold size_risk_of. rewrite clamp01_zero.
  pose proof ln_2001_pos as Hpos. apply IZR_le in Hs.
  assert (Hiff : ln (1 + IZR (size m)) / ln (1 + 2000) <= 0
                 <-> ln (1 + IZR (size m)) <= ln 1).
  { rewrite ln_1. split; intros H.
    - apply Rmult_le_compat_r with (r := ln (1 + 2000)) in H; [| lra].
      unfold Rdiv in H. rewrite Rmult_assoc, Rinv_l in H by lra. lra.
    - unfold Rdiv. rewrite <- (Rmult_0_l (/ ln (1 + 2000))).
      apply Rmult_le_compat_r; [left; apply Rinv_0_lt_compat, Hpos | exact H]. }
  rewrite Hiff, ln_le_iff by lra. split; intros H.
  - apply eq_IZR. lra.
  - rewrite H. lra.
Qed.

Lemma size_risk_one (m : PRMetrics) :
  (0 <= size m)%Z -> (size_risk_of m = 1 <-> (2000 <= size m)%Z).
Proof.
  intros Hs. unfold size_risk_of. rewrite clamp01_one.
  pose proof ln_2001_pos as Hpos. apply IZR_le in Hs.
  assert (Hiff : 1 <= ln (1 + IZR (size m)) / ln (1 + 2000)
                 <-> ln (1 + 2000) <= ln (1 + IZR (size m))).
  { split; intros H.
    - apply Rmult_le_compat_r with (r := ln (1 + 2000)) in H; [| lra].
      unfold Rdiv in H. rewrite Rmult_assoc, Rinv_l in H by lra. lra.
    - apply Rmult_le_reg_r with (ln (1 + 2000)); [exact Hpos |].
      unfold Rdiv. rewrite Rmult_assoc, Rinv_l by lra. lra. }
  rewrite Hiff, ln_le_iff by lra. split; intros H.
  - apply le_IZR. lra.
  - apply IZR_le in H. lra.
Qed.

Lemma duration_risk_zero (x : option R) (d : R) :
  0 < d ->
  (match x with None => 5 / 10 | Some h => clamp (h / d) 0 1 end = 0
   <-> exists h, x = Some h /\ h <= 0).
Proof.
  intros Hd. destruct x as [h |].
  - rewrite clamp01_zero. split.
    + intros H. exists h. split; [reflexivity |].
      apply Rmult_le_compat_r with (r := d) in H; [| lra].
      unfold Rdiv in H. rewrite Rmult_assoc, Rinv_l in H by lra. lra.
    + intros (h' & Heq & Hle). injection Heq as <-.
      unfold Rdiv. rewrite <- (Rmult_0_l (/ d)).
      apply Rmult_le_compat_r; [left; apply Rinv_0_lt_compat, Hd | exact Hle].
  - split; [lra | intros (h & Heq & _); discriminate].
Qed.

Lemma duration_risk_one (x : option R) (d : R) :
  0 < d ->
  (match x with None => 5 / 10 | Some h => clamp (h / d) 0 1 end = 1
   <-> exists h, x = Some h /\ d <= h).
Proof.
  intros Hd. destruct x as [h |].
  - rewrite clamp01_one. split.
    + intros H. exists h. split; [reflexivity |].
      apply Rmult_le_compat_r with (r := d) in H; [| lra].
      unfold Rdiv in H. rewrite Rmult_assoc, Rinv_l in H by lra. lra.
    + intros (h' & Heq & Hle). injection Heq as <-.
      apply Rmult_le_reg_r with d; [exact Hd |].
      unfold Rdiv. rewrite Rmult_assoc, Rinv_l by lra. lra.
  - split; [lra | intros (h & Heq & _); discriminate].
Qed.

Lemma ratio_le_zero (x d : R) : 0 < d -> (x / d <= 0 <-> x <= 0).
Proof.
  intros Hd. split; intros H.
  - apply Rmult_le_compat_r with (r := d) in H; [| lra].
    unfold Rdiv in H. rewrite Rmult_assoc, Rinv_l in H by lra. lra.
  - unfold Rdiv. rewrite <- (Rmult_0_l (/ d)).
    apply Rmult_le_compat_r; [left; apply Rinv_0_lt_compat, Hd | exact H].
Qed.

Lemma ratio_ge_one (x d : R) : 0 < d -> (1 <= x / d <-> d <= x).
Proof.
  intros Hd. split; intros H.
  - apply Rmult_le_compat_r with (r := d) in H; [| lra].
    unfold Rdiv in H. rewrite Rmult_assoc, Rinv_l in H by lra. lra.
  - apply Rmult_le_reg_r with d; [exact Hd |].
    unfold Rdiv. rewrite Rmult_assoc, Rinv_l by lra. lra.
Qed.

(** Over the reals, the score is 100 exactly when every risk is 0. *)
Lemma score_pr_perfect (m : PRMetrics) :
  (0 <= size m)%Z ->
  exists s c,
    score_pr m = Ok (s, c)
    /\ (s = 100
        <-> size m = 0%Z
            /\ (files_changed m <= 0)%Z
            /\ (review_rounds m <= 0)%Z
            /\ or_zero (churn_ratio m) <= 0
            /\ (exists h, time_to_first_review_hours m = Some h /\ h <= 0)
            /\ (exists h, time_to_merge_hours m = Some h /\ h <= 0)
            /\ ci_failed m = false).
Proof.
  intros Hs. exists (score_of m), (components_of m).
  split; [apply score_pr_defined, Hs |].
  rewrite score_of_unclamped.
  pose proof (clamp_bounds (ln (1 + IZR (size m)) / ln (1 + 2000)) 0 1) as Bs.
  pose proof (clamp_bounds (IZR (files_changed m) / 50) 0 1) as Bf.
  pose proof (clamp_bounds (IZR (review_rounds m) / 3) 0 1) as Br.
  pose proof (clamp_bounds (or_zero (churn_ratio m) / (5 / 10)) 0 1) as Bc.
  pose proof (tfr_risk_bounds m) as Bt.
  pose proof (ttm_risk_bounds m) as Bm.
  pose proof (ci_risk_bounds m) as Bci.
  pose proof (size_risk_zero m Hs) as Zs.
  pose proof (clamp01_zero (IZR (files_changed m) / 50)) as Zf.
  pose proof (clamp01_zero (IZR (review_rounds m) / 3)) as Zr.
  pose proof (clamp01_zero (or_zero (churn_ratio m) / (5 / 10))) as Zc.
  pose proof (duration_risk_zero (time_to_first_review_hours m) 72) as Zt.
  pose proof (duration_risk_zero (time_to_merge_hours m) 240) as Zm.
  rewrite ratio_le_zero in Zf, Zr, Zc by lra.
  unfold risk_sum, w_size, w_files, w_review_rounds, w_churn,
    w_time_to_first_review, w_time_to_merge, w_ci_fail.
  fold (tfr_risk m) in Zt. fold (ttm_risk m) in Zm.
  unfold size_risk_of, files_risk, review_rounds_risk, churn_risk in *.
  split.
  - intros H.
    assert (Hci : ci_risk m = 0) by lra.
    repeat split.
    + apply Zs. lra.
    + apply le_IZR, Zf. lra.
    + apply le_IZR, Zr. lra.
    + apply Zc. lra.
    + apply Zt; lra.
    + apply Zm; lra.
    + unfold ci_risk in Hci. destruct (ci_failed m); [lra | reflexivity].
  - intros (H1 & H2 & H3 & H4 & H5 & H6 & H7).
    apply Zs in H1. apply IZR_le in H2, H3. apply Zf in H2. apply Zr in H3.
    apply Zc in H4. apply Zt in H5; [| lra]. apply Zm in H6; [| lra].
    unfold ci_risk. rewrite H7. lra.
Qed.

(** Over the reals, the score is 0 exactly when every risk is 1. *)
Lemma score_pr_zero (m : PRMetrics) :
  (0 <= size m)%Z ->
  exists s c,
    score_pr m = Ok (s, c)
    /\ (s = 0
        <-> (2000 <= size m)%Z
            /\ (50 <= files_changed m)%Z
            /\ (3 <= review_rounds m)%Z
            /\ 5 / 10 <= or_zero (churn_ratio m)
            /\ (exists h, time_to_first_review_hours m = Some h /\ 72 <= h)
            /\ (exists h, time_to_merge_hours m = Some h /\ 240 <= h)
            /\ ci_failed m = true).
Proof.
  intros Hs. exists (score_of m), (components_of m).
  split; [apply score_pr_defined, Hs |].
  rewrite score_of_unclamped.
  pose proof (clamp_bounds (ln (1 + IZR (size m)) / ln (1 + 2000)) 0 1) as Bs.
  pose proof (clamp_bounds (IZR (files_changed m) / 50) 0 1) as Bf.
  pose proof (clamp_bounds (IZR (review_rounds m) / 3) 0 1) as Br.
  pose proof (clamp_bounds (or_zero (churn_ratio m) / (5 / 10)) 0 1) as Bc.
  pose proof (tfr_risk_bounds m) as Bt.
  pose proof (ttm_risk_bounds m) as Bm.
  pose proof (ci_risk_bounds m) as Bci.
  pose proof (size_risk_one m Hs) as Zs.
  pose proof (clamp01_one (IZR (files_changed m) / 50)) as Zf.
  pose proof (clamp01_one (IZR (review_rounds m) / 3)) as Zr.
  pose proof (clamp01_one (or_zero (churn_ratio m) / (5 / 10))) as Zc.
  pose proof (duration_risk_one (time_to_first_review_hours m) 72) as Zt.
  pose proof (duration_risk_one (time_to_merge_hours m) 240) as Zm.
  rewrite ratio_ge_one in Zf, Zr, Zc by lra.
  unfold risk_sum, w_size, w_files, w_review_rounds, w_churn,
    w_time_to_first_review, w_time_to_merge, w_ci_fail.
  fold (tfr_risk m) in Zt. fold (ttm_risk m) in Zm.
  unfold size_risk_of, files_risk, review_rounds_risk, churn_risk in *.
  split.
  - intros H.
    assert (Hci : ci_risk m = 1) by lra.
    repeat split.
    + apply Zs. lra.
    + apply le_IZR, Zf. lra.
    + apply le_IZR, Zr. lra.
    + apply Zc. lra.
    + apply Zt; lra.
    + apply Zm; lra.
    + unfold ci_risk in Hci. destruct (ci_failed m); [reflexivity | lra].
  - intros (H1 & H2 & H3 & H4 & H5 & H6 & H7).
    apply Zs in H1. apply IZR_le in H2, H3. apply Zf in H2. apply Zr in H3.
    apply Zc in H4. apply Zt in H5; [| lra]. apply Zm in H6; [| lra].
    unfold ci_risk. rewrite H7. lra.
Qed.

(** X3: the two ends of the scale, for a record of size 0 or more.  The
    score is 100 when the size is 0, no file is changed, there is no review
    round, the churn is 0 or absent, both durations are present and 0 or
    less, and CI did not fail.  The score is 0 when the size is 2000 or
    more, 50 files or more are changed, there are 3 review rounds or more,
    the churn is 0.5 or more, the first review came after 72 hours or more,
    the merge after 240 hours or more, and CI failed.  (Over the reals these
    are the only records with the scores 100 and 0, [score_pr_perfect] and
    [score_pr_zero]; the float arithmetic of the program rounds a small
    risk away, so only this direction is stated of the code.) *)
Theorem score_pr_extremes (m : PRMetrics) :
  (0 <= size m)%Z ->
  exists s c,
    score_pr m = Ok (s, c)
    /\ (size m = 0%Z
        /\ (files_changed m <= 0)%Z
        /\ (review_rounds m <= 0)%Z
        /\ or_zero (churn_ratio m) <= 0
        /\ (exists h, time_to_first_review_hours m = Some h /\ h <= 0)
        /\ (exists h, time_to_merge_hours m = Some h /\ h <= 0)
        /\ ci_failed m = false ->
        s = 100)
    /\ ((2000 <= size m)%Z
        /\ (50 <= files_changed m)%Z
        /\ (3 <= review_rounds m)%Z
        /\ 5 / 10 <= or_zero (churn_ratio m)
        /\ (exists h, time_to_first_review_hours m = Some h /\ 72 <= h)
        /\ (exists h, time_to_merge_hours m = Some h /\ 240 <= h)
        /\ ci_failed m = true ->
        s = 0).
Proof.
  intros Hs.
  destruct (score_pr_perfect m Hs) as (s & c & Hscore & Hperfect).
  destruct (score_pr_zero m Hs) as (s' & c' & Hscore' & Hzero).
  rewrite Hscore in Hscore'. injection Hscore' as <- <-.
  exists s, c. split; [exact Hscore |].
  split; [apply Hperfect | apply Hzero].
Qed.

Lemma score_pr_extremes_witness :
  exists s c,
    score_pr (mkMetrics 0 0 0 0 None (Some 0) (Some 0) false) = Ok (s, c)
    /\ s = 100.
Proof.
  destruct (score_pr_extremes (mkMetrics 0 0 0 0 None (Some 0) (Some 0) false))
    as (s & c & Hscore & Hperfect & _); [unfold size; simpl; lia |].
  exists s, c. split; [exact Hscore |].
  apply Hperfect. simpl.
  split; [reflexivity |]. split; [lia |]. split; [lia |]. split; [lra |].
  split; [exists 0; split; [reflexivity | lra] |].
  split; [exists 0; split; [reflexivity | lra] | reflexivity].
Defined.

Lemma score_pr_ci_failure_costs_ten_witness :
  exists s c s' c',
    score_pr (with_ci (example_A 100 50) false) = Ok (s, c)
    /\ score_pr (with_ci (example_A 100 50) true) = Ok (s', c')
    /\ s' < s
    /\ s - 10 - 1 / 1000000000 <= s' <= s - 10 + 1 / 1000000000.
Proof.
  apply (score_pr_ci_failure_costs_ten (example_A 100 50)).
  unfold size. simpl. lia.
Defined.

End ScoringMore.

(** ** Aggregation: order, ranks and bounds *)

Module StatsMore.
Import PyList Stats StatsFacts.


Lemma get_in {A : Type} (l : list A) (i : Z) (x : A) :
  get l i = Ok x -> In x l.
Proof.
  unfold get. destruct ((0 <=? _) && _); [| discriminate].
  destruct (nth_error l _) eqn:Hn; [| discriminate].
  intros Heq; injection Heq as <-. eapply nth_error_In, Hn.
Qed.

(** Two sorted arrangements of the same values are the same list. *)
Lemma sorted_perm_eq (l l' : list R) :
  StronglySorted Rle l -> StronglySorted Rle l' -> Permutation l l' -> l = l'.
Proof.
  intros Hs. revert l'.
  induction Hs as [| a t Hst IH Ha]; intros l' Hs' Hp.
  - apply Permutation_nil in Hp. subst. reflexivity.
  - destruct l' as [| b t'];
      [apply Permutation_sym, Permutation_nil in Hp; discriminate |].
    apply StronglySorted_inv in Hs'. destruct Hs' as [Hst' Hb].
    assert (Hab : a = b).
    { rewrite Forall_forall in Ha, Hb.
      assert (Hin_b : In b (a :: t))
        by (eapply Permutation_in; [apply Permutation_sym, Hp | left; reflexivity]).
      assert (Hin_a : In a (b :: t'))
        by (eapply Permutation_in; [exact Hp | left; reflexivity]).
      destruct Hin_b as [-> | Hin_b]; [reflexivity |].
      destruct Hin_a as [-> | Hin_a]; [reflexivity |].
      apply Rle_antisym; [apply Ha, Hin_b | apply Hb, Hin_a]. }
    subst b. f_equal. apply IH; [exact Hst' |].
    eapply Permutation_cons_inv, Hp.
Qed.

Lemma sorted_of_perm (l l' : list R) :
  Permutation l l' -> sorted l = sorted l'.
Proof.
  intros Hp. apply sorted_perm_eq.
  - apply (Sorted_StronglySorted Rle_transitive), sorted_Sorted.
  - apply (Sorted_StronglySorted Rle_transitive), sorted_Sorted.
  - eapply perm_trans; [apply Permutation_sym, sorted_perm |].
    eapply perm_trans; [exact Hp | apply sorted_perm].
Qed.

(** X4: [percentile] and [safe_median] do not depend on the order of the
    values: on two lists that are rearrangements of each other they give
    the same result, for every [pct]. *)
Theorem aggregation_order_independent (values values' : list R) :
  Permutation values values' ->
  (forall pct, percentile values pct = percentile values' pct)
  /\ safe_median values = safe_median values'.
Proof.
  intros Hp. pose proof (Permutation_length Hp) as Hlen.
  pose proof (sorted_of_perm _ _ Hp) as Hs.
  split.
  - intros pct.
    destruct values as [| x [| y t]].
    + apply Permutation_nil in Hp. subst. reflexivity.
    + apply Permutation_length_1_inv in Hp. subst. reflexivity.
    + destruct values' as [| x' [| y' t']]; try discriminate.
      unfold percentile. rewrite Hs. reflexivity.
  - destruct values as [| x t].
    + apply Permutation_nil in Hp. subst. reflexivity.
    + destruct values' as [| x' t']; [discriminate |].
      unfold safe_median, median. rewrite Hs. reflexivity.
Qed.

Lemma aggregation_order_independent_witness :
  (forall pct, percentile [1; 2; 3]%R pct = percentile [3; 1; 2]%R pct)
  /\ safe_median [1; 2; 3]%R = safe_median [3; 1; 2]%R.
Proof.
  apply aggregation_order_independent.
  apply Permutation_sym.
  exact (Permutation_cons_app [1; 2]%R [] 3%R (Permutation_refl [1; 2]%R)).
Defined.

Lemma percentile_rank_bounds (n : Z) (pct : R) :
  1 <= n -> (0 <= pct <= 100)%R ->
  let k := (IZR (n - 1) * (pct / 100))%R in
  (0 <= k <= IZR (n - 1))%R
  /\ 0 <= floor k <= n - 1 /\ 0 <= ceil k <= n - 1
  /\ (floor k = ceil k \/ ceil k = floor k + 1)
  /\ trunc k = floor k.
Proof.
  intros Hn Hpct k.
  assert (Hn1 : (0 <= IZR (n - 1))%R) by (apply IZR_le; lia).
  assert (Hk : (0 <= k <= IZR (n - 1))%R).
  { unfold k. split; [apply Rmult_le_pos; lra |]. nra. }
  pose proof (Zfloor_bound k) as [Hf1 Hf2].
  pose proof (Zceil_bound k) as [Hc1 Hc2].
  unfold floor, ceil, trunc.
  assert (Hf0 : 0 <= Zfloor k) by (apply Zfloor_lub; simpl; lra).
  assert (Hfn : Zfloor k <= n - 1) by (apply le_IZR; lra).
  assert (Hc0 : 0 <= Zceil k) by (apply le_IZR; lra).
  assert (Hcn : Zceil k <= n - 1).
  { assert (IZR (Zceil k) < IZR (n - 1) + 1)%R by lra.
    rewrite <- plus_IZR in H. apply lt_IZR in H. lia. }
  assert (Hfc : Zfloor k <= Zceil k) by (apply le_IZR; lra).
  assert (Hcf : Zceil k <= Zfloor k + 1).
  { assert (IZR (Zceil k) < IZR (Zfloor k) + 1 + 1)%R by lra.
    rewrite <- !plus_IZR in H. apply lt_IZR in H. lia. }
  repeat split; try lra; try lia.
  destruct (Rle_dec 0 k); [reflexivity | lra].
Qed.

(** Within 0 and 100, [percentile] returns a value of the data or a mean
    of two of them, weighted by [t] and [1 - t]. *)
Lemma percentile_convex (values : list R) (pct : R) :
  values <> [] -> (0 <= pct <= 100)%R ->
  exists v v0 v1 t,
    percentile values pct = Ok (Some v)
    /\ In v0 values /\ In v1 values /\ (0 <= t <= 1)%R
    /\ v = (v0 * (1 - t) + v1 * t)%R.
Proof.
  intros Hne Hpct.
  destruct values as [| x [| y t]]; [contradiction | |].
  - exists x, x, x, 0%R. split; [reflexivity |].
    repeat split; try (left; reflexivity); lra.
  - unfold percentile.
    set (vs := sorted (x :: y :: t)).
    assert (Hlen : List.length vs = List.length (x :: y :: t))
      by apply sorted_length.
    assert (Hvs : forall v, In v vs -> In v (x :: y :: t)).
    { intros v Hv.
      eapply Permutation_in; [apply Permutation_sym, sorted_perm | exact Hv]. }
    set (n := Z.of_nat (List.length vs)).
    assert (Hn : 1 <= n) by (unfold n; rewrite Hlen; simpl; lia).
    destruct (percentile_rank_bounds n pct Hn Hpct)
      as (Hk & Hf & Hc & Hfc & Htr).
    set (k := (IZR (n - 1) * (pct / 100))%R) in *.
    destruct (floor k =? ceil k) eqn:Heq.
    + rewrite Htr.
      destruct (get_in_range vs (floor k)) as (v & Hv & Hin); [fold n; lia |].
      rewrite Hv. exists v, v, v, 0%R. split; [reflexivity |].
      repeat split; try (apply Hvs, Hin); lra.
    + apply Z.eqb_neq in Heq.
      destruct Hfc as [Hfc | Hfc]; [contradiction |].
      destruct (get_in_range vs (floor k)) as (v0 & Hv0 & Hin0); [fold n; lia |].
      destruct (get_in_range vs (ceil k)) as (v1 & Hv1 & Hin1); [fold n; lia |].
      rewrite Hv0, Hv1. simpl.
      exists (v0 * (IZR (ceil k) - k) + v1 * (k - IZR (floor k)))%R,
        v0, v1, (k - IZR (floor k))%R.
      pose proof (Zfloor_bound k) as [Hf1 Hf2].
      pose proof (Zceil_bound k) as [Hc1 Hc2].
      unfold floor, ceil in *. rewrite Hfc, plus_IZR in *.
      split; [reflexivity |].
      split; [apply Hvs, Hin0 | split; [apply Hvs, Hin1 |]].
      split; [lra | ring].
Qed.

(** X5: for [pct] from 0 to 100 [percentile] raises nothing: the two ranks
    it indexes are within the sorted list.  It returns [None] on the empty
    list and on no other, and a number on every list with a value. *)
Theorem percentile_in_range_returns (values : list R) (pct : R) :
  (0 <= pct <= 100)%R ->
  exists r,
    percentile values pct = Ok r
    /\ (r = None <-> values = []).
Proof.
  intros Hpct. destruct values as [| x t].
  - exists None. split; [reflexivity | split; reflexivity].
  - destruct (percentile_convex (x :: t) pct) as (v & _ & _ & _ & Hv & _);
      [discriminate | exact Hpct |].
    exists (Some v). split; [exact Hv | split; discriminate].
Qed.

Lemma percentile_in_range_returns_witness :
  exists r,
    percentile [3; 1; 2; 8]%R 25 = Ok r
    /\ (r = None <-> [3; 1; 2; 8]%R = []).
Proof. apply percentile_in_range_returns. lra. Defined.

Lemma sorted_strongly (values : list R) : StronglySorted Rle (sorted values).
Proof. apply (Sorted_StronglySorted Rle_transitive), sorted_Sorted. Qed.

Lemma in_sorted (values : list R) (v : R) : In v (sorted values) <-> In v values.
Proof.
  split; intros H.
  - eapply Permutation_in; [apply Permutation_sym, sorted_perm | exact H].
  - eapply Permutation_in; [apply sorted_perm | exact H].
Qed.

(** The element at rank [i] of the sorted values has [i] values at or below
    it before it and the others at or above it. *)
Lemma get_sorted_rank (values : list R) (i : Z) (v : R) :
  0 <= i -> get (sorted values) i = Ok v ->
  In v values
  /\ (i = 0 -> Forall (fun x => v <= x)%R values)
  /\ (i = Z.of_nat (List.length values) - 1 ->
      Forall (fun x => x <= v)%R values).
Proof.
  intros Hi Hget.
  pose proof (get_in _ _ _ Hget) as Hin. apply (proj1 (in_sorted _ _)) in Hin.
  apply get_nth_error in Hget; [| exact Hi].
  destruct (sorted_split _ (sorted_strongly values) _ _ Hget)
    as (Heq & Hlo & Hhi).
  assert (Hbound : (Z.to_nat i < List.length (sorted values))%nat)
    by (apply nth_error_Some; rewrite Hget; discriminate).
  split; [exact Hin | split].
  - intros ->. simpl in *. rewrite Forall_forall. intros x Hx.
    apply (proj2 (in_sorted _ _)) in Hx. rewrite Heq in Hx.
    destruct Hx as [<- | Hx]; [lra |].
    rewrite Forall_forall in Hhi. apply Hhi, Hx.
  - intros Hlast. rewrite Forall_forall. intros x Hx.
    apply (proj2 (in_sorted _ _)) in Hx. rewrite Heq in Hx.
    apply in_app_or in Hx. destruct Hx as [Hx | [<- | Hx]].
    + rewrite Forall_forall in Hlo. apply Hlo, Hx.
    + lra.
    + exfalso. rewrite skipn_all2 in Hx; [exact Hx |].
      rewrite sorted_length in *. lia.
Qed.

(** X6: on a list with a value, the percentile 0 is the least of the values
    and the percentile 100 the greatest. *)
Theorem percentile_extremes (values : list R) :
  values <> [] ->
  (exists v, percentile values 0 = Ok (Some v)
             /\ In v values /\ Forall (fun x => v <= x)%R values)
  /\ (exists v, percentile values 100 = Ok (Some v)
                /\ In v values /\ Forall (fun x => x <= v)%R values).
Proof.
  intros Hne.
  destruct values as [| x [| y t]]; [contradiction | |].
  - split; exists x; (split; [reflexivity | split; [left; reflexivity |]]);
      (apply Forall_cons; [lra | apply Forall_nil]).
  - unfold percentile.
    set (values := x :: y :: t) in *.
    pose proof (sorted_length values) as Hlen.
    set (n := Z.of_nat (List.length (sorted values))).
    assert (Hn : 2 <= n) by (unfold n; rewrite Hlen; simpl; lia).
    split.
    + replace (IZR (n - 1) * (0 / 100))%R with (IZR 0) by lra.
      unfold floor. rewrite ZfloorZ, ceil_IZR, trunc_IZR. simpl (0 =? 0).
      cbv iota.
      destruct (get_in_range (sorted values) 0) as (v & Hv & _); [fold n; lia |].
      rewrite Hv. exists v. split; [reflexivity |].
      destruct (get_sorted_rank values 0 v (Z.le_refl 0) Hv) as (Hin & H0 & _).
      split; [exact Hin | apply H0; reflexivity].
    + replace (IZR (n - 1) * (100 / 100))%R with (IZR (n - 1)) by lra.
      unfold floor. rewrite ZfloorZ, ceil_IZR, trunc_IZR, Z.eqb_refl.
      destruct (get_in_range (sorted values) (n - 1)) as (v & Hv & _);
        [fold n; lia |].
      rewrite Hv. exists v. split; [reflexivity |].
      destruct (get_sorted_rank values (n - 1) v) as (Hin & _ & Hl);
        [lia | exact Hv |].
      split; [exact Hin | apply Hl]. unfold n. rewrite Hlen. reflexivity.
Qed.

Lemma percentile_extremes_witness :
  (exists v, percentile [3; 1; 2]%R 0 = Ok (Some v)
             /\ In v [3; 1; 2]%R /\ Forall (fun x => v <= x)%R [3; 1; 2]%R)
  /\ (exists v, percentile [3; 1; 2]%R 100 = Ok (Some v)
                /\ In v [3; 1; 2]%R /\ Forall (fun x => x <= v)%R [3; 1; 2]%R).
Proof. apply percentile_extremes. discriminate. Defined.



(** On data [safe_median] returns the mean of two of the values, which are
    one value when their number is odd. *)
Lemma safe_median_convex (values : list R) :
  values <> [] ->
  exists v a b,
    safe_median values = Ok (Some v)
    /\ In a values /\ In b values /\ v = ((a + b) / 2)%R.
Proof.
  intros Hne. destruct values as [| x t]; [contradiction |].
  unfold safe_median, median.
  set (vs := sorted (x :: t)).
  assert (Hlen : List.length vs = List.length (x :: t)) by apply sorted_length.
  assert (Hvs : forall v, In v vs -> In v (x :: t)).
  { intros v Hv. apply (proj1 (in_sorted _ _)), Hv. }
  set (n := Z.of_nat (List.length vs)).
  assert (Hn : 1 <= n) by (unfold n; rewrite Hlen; simpl; lia).
  destruct (n =? 0) eqn:Hz; [apply Z.eqb_eq in Hz; lia |].
  assert (Hhalf : 0 <= n / 2 < n).
  { split; [apply Z.div_pos; lia | apply Z.div_lt_upper_bound; lia]. }
  destruct (n mod 2 =? 1) eqn:Hodd.
  - destruct (get_in_range vs (n / 2)) as (v & Hv & Hin); [fold n; lia |].
    rewrite Hv. simpl. exists v, v, v.
    split; [reflexivity |]. repeat split; try (apply Hvs, Hin). lra.
  - apply Z.eqb_neq in Hodd.
    assert (Hn2 : 2 <= n).
    { destruct (Z.eq_dec n 1) as [H1 | H1];
        [rewrite H1 in Hodd; cbn in Hodd; lia | lia]. }
    assert (1 <= n / 2) by (apply Z.div_le_lower_bound; lia).
    destruct (get_in_range vs (n / 2 - 1)) as (a & Ha & Hina); [fold n; lia |].
    destruct (get_in_range vs (n / 2)) as (b & Hb & Hinb); [fold n; lia |].
    rewrite Ha, Hb. simpl. exists ((a + b) / 2)%R, a, b.
    split; [reflexivity |].
    split; [apply Hvs, Hina | split; [apply Hvs, Hinb | reflexivity]].
Qed.



End StatsMore.

(** ** MetricExtractor: reviews, the cap, CI evidence *)

Module ExtractMore.
Import PyList Extract ExtractFacts.

Lemma filter_length_perm {A : Type} (f : A -> bool) (l l' : list A) :
  Permutation l l' -> List.length (filter f l) = List.length (filter f l').
Proof.
  induction 1 as [| a l l' _ IH | a b l | l l' l'' _ IH1 _ IH2]; simpl.
  - reflexivity.
  - destruct (f a); simpl; rewrite IH; reflexivity.
  - destruct (f a), (f b); reflexivity.
  - rewrite IH1. exact IH2.
Qed.

(** X9: [compute_review_rounds] counts: its result is between 0 and the
    number of reviews, the count of two lists put together is the sum of
    their counts, and the order of the reviews does not matter. *)
Theorem review_rounds_count (reviews reviews' : list RawReview) :
  0 <= compute_review_rounds reviews <= Z.of_nat (List.length reviews)
  /\ compute_review_rounds (reviews ++ reviews')
     = compute_review_rounds reviews + compute_review_rounds reviews'
  /\ (Permutation reviews reviews' ->
      compute_review_rounds reviews = compute_review_rounds reviews').
Proof.
  unfold compute_review_rounds, count. split; [| split].
  - pose proof (filter_length_le
                  (fun review =>
                     match review_state review with
                     | Some st => (st =? "CHANGES_REQUESTED")%string
                     | None => false
                     end) reviews).
    lia.
  - rewrite filter_app, length_app. lia.
  - intros Hp. f_equal. apply filter_length_perm, Hp.
Qed.

Lemma min_from_aware (rest : list Datetime.datetime) :
  forall t,
    aware t -> Forall aware rest ->
    exists m,
      Datetime.min_from t rest = Ok m
      /\ aware m /\ In m (t :: rest)
      /\ forall x, In x (t :: rest) -> Deltas.instant m <= Deltas.instant x.
Proof.
  induction rest as [| y rest IH]; intros t Ht Hrest; simpl.
  - exists t. repeat split; [exact Ht | left; reflexivity |].
    intros x [<- | []]. lia.
  - inversion Hrest as [| ? ? Hy Hrest']; subst.
    unfold Datetime.lt, Datetime.compare.
    unfold aware in Ht, Hy.
    destruct (Datetime.utcoffset y) as [oy |] eqn:Ey; [| contradiction].
    destruct (Datetime.utcoffset t) as [ot |] eqn:Et; [| contradiction].
    simpl.
    destruct (Z.compare_spec (Datetime.wall y - oy) (Datetime.wall t - ot))
      as [Hc | Hc | Hc].
    + destruct (IH t) as (m & Hm & Hma & Hin & Hmin);
        [unfold aware; rewrite Et; discriminate | exact Hrest' |].
      exists m. split; [exact Hm | split; [exact Hma | split]].
      * destruct Hin as [<- | Hin]; [left; reflexivity | right; right; exact Hin].
      * intros x [<- | [<- | Hx]].
        -- apply Hmin. left; reflexivity.
        -- specialize (Hmin t (or_introl eq_refl)).
           unfold Deltas.instant in *. rewrite Ey. rewrite Et in Hmin. lia.
        -- apply Hmin. right; exact Hx.
    + destruct (IH y) as (m & Hm & Hma & Hin & Hmin);
        [unfold aware; rewrite Ey; discriminate | exact Hrest' |].
      exists m. split; [exact Hm | split; [exact Hma | split]].
      * destruct Hin as [<- | Hin]; [right; left; reflexivity | right; right; exact Hin].
      * intros x [<- | [<- | Hx]].
        -- specialize (Hmin y (or_introl eq_refl)).
           unfold Deltas.instant in *. rewrite Et. rewrite Ey in Hmin. lia.
        -- apply Hmin. left; reflexivity.
        -- apply Hmin. right; exact Hx.
    + destruct (IH t) as (m & Hm & Hma & Hin & Hmin);
        [unfold aware; rewrite Et; discriminate | exact Hrest' |].
      exists m. split; [exact Hm | split; [exact Hma | split]].
      * destruct Hin as [<- | Hin]; [left; reflexivity | right; right; exact Hin].
      * intros x [<- | [<- | Hx]].
        -- apply Hmin. left; reflexivity.
        -- specialize (Hmin t (or_introl eq_refl)).
           unfold Deltas.instant in *. rewrite Ey. rewrite Et in Hmin. lia.
        -- apply Hmin. right; exact Hx.
Qed.

Lemma first_review_loop_times (reviews : list RawReview) (author : string) :
  Forall (well_submitted author) reviews ->
  forall times,
    exists ts,
      first_review_loop reviews author times = Ok (times ++ ts)%list
      /\ Forall aware ts
      /\ forall t,
           In t ts
           <-> exists review,
                 In review reviews /\ is_author review author = false
                 /\ parse_iso8601 (submitted_at review) = Ok (Some t).
Proof.
  induction 1 as [| review rest Hr _ IH]; intros times; simpl.
  - exists []. rewrite app_nil_r. split; [reflexivity | split; [constructor |]].
    intros t. split; [intros [] | intros (r & [] & _)].
  - destruct (is_author review author) eqn:Hauth.
    + destruct (IH times) as (ts & Hloop & Haw & Hin).
      exists ts. split; [exact Hloop | split; [exact Haw |]].
      intros t. rewrite Hin. split.
      * intros (r & Hr1 & Hr2 & Hr3). exists r. split; [right |]; tauto.
      * intros (r & [<- | Hr1] & Hr2 & Hr3); [congruence |].
        exists r. tauto.
    + destruct Hr as [Hr | (t0 & Hparse & Haware)]; [congruence |].
      rewrite Hparse. simpl. destruct t0 as [d |].
      * destruct (IH (times ++ [d])%list) as (ts & Hloop & Haw & Hin).
        exists (d :: ts). rewrite Hloop, <- app_assoc. simpl.
        split; [reflexivity | split].
        -- constructor; [apply Haware; reflexivity | exact Haw].
        -- intros t. split.
           ++ intros [<- | Ht].
              ** exists review. split; [left; reflexivity | split; assumption].
              ** apply Hin in Ht. destruct Ht as (r & Hr1 & Hr2 & Hr3).
                 exists r. split; [right |]; tauto.
           ++ intros (r & [<- | Hr1] & Hr2 & Hr3).
              ** rewrite Hparse in Hr3. injection Hr3 as <-. left; reflexivity.
              ** right. apply Hin. exists r. tauto.
      * destruct (IH times) as (ts & Hloop & Haw & Hin).
        exists ts. split; [exact Hloop | split; [exact Haw |]].
        intros t. rewrite Hin. split.
        -- intros (r & Hr1 & Hr2 & Hr3). exists r. split; [right |]; tauto.
        -- intros (r & [<- | Hr1] & Hr2 & Hr3); [congruence |].
           exists r. tauto.
Qed.

(** X10: on reviews that are by the author or carry a [submitted_at] that
    parses to nothing or to an aware time, [compute_first_review_time]
    returns; the result is [None] exactly when no review by somebody else
    has a submission time, and else it is the submission time of a review
    by somebody else that is not later than that of any other. *)
Theorem first_review_time_earliest (reviews : list RawReview) (author : string) :
  Forall (well_submitted author) reviews ->
  exists res,
    compute_first_review_time reviews author = Ok res
    /\ (res = None
        <-> forall review,
              In review reviews -> is_author review author = false ->
              parse_iso8601 (submitted_at review) = Ok None)
    /\ forall m,
         res = Some m ->
         (exists review,
            In review reviews /\ is_author review author = false
            /\ parse_iso8601 (submitted_at review) = Ok (Some m))
         /\ forall review t,
              In review reviews -> is_author review author = false ->
              parse_iso8601 (submitted_at review) = Ok (Some t) ->
              Deltas.instant m <= Deltas.instant t.
Proof.
  intros Hwf. unfold compute_first_review_time.
  destruct (first_review_loop_times reviews author Hwf []) as (ts & Hloop & Haw & Hin).
  rewrite Hloop. simpl.
  destruct ts as [| t rest].
  - exists None. split; [reflexivity | split].
    + split; [| reflexivity]. intros _ review Hr Hauth.
      rewrite Forall_forall in Hwf.
      destruct (Hwf review Hr) as [Ha | (t0 & Hp & _)]; [congruence |].
      destruct t0 as [d |]; [| exact Hp].
      exfalso. apply (proj2 (Hin d)). exists review. tauto.
    + discriminate.
  - inversion Haw as [| ? ? Ht Hrest]; subst.
    destruct (min_from_aware rest t Ht Hrest) as (m & Hm & _ & Hmin_in & Hmin).
    rewrite Hm. simpl. exists (Some m). split; [reflexivity | split].
    + split; [discriminate |]. intros Hnone. exfalso.
      destruct (proj1 (Hin t) (or_introl eq_refl)) as (r & Hr1 & Hr2 & Hr3).
      rewrite (Hnone r Hr1 Hr2) in Hr3. discriminate.
    + intros m' Heq. injection Heq as <-. split.
      * apply Hin, Hmin_in.
      * intros review t' Hr Hauth Hp. apply Hmin. apply Hin.
        exists review. tauto.
Qed.

Lemma first_review_time_earliest_witness :
  exists res,
    compute_first_review_time
      [ mkReview (Some "carol") (Some "COMMENTED") (Some "2024-01-05T10:00:00Z");
        mkReview (Some "alice") (Some "COMMENTED") (Some "garbage");
        mkReview (Some "bob") (Some "APPROVED") (Some "2024-01-04T08:00:00Z") ]
      "alice" = Ok res
    /\ res = Some (Datetime.of_fields 2024 1 4 8 0 0 0 (Some 0)).
Proof.
  destruct (first_review_time_earliest
              [ mkReview (Some "carol") (Some "COMMENTED")
                  (Some "2024-01-05T10:00:00Z");
                mkReview (Some "alice") (Some "COMMENTED") (Some "garbage");
                mkReview (Some "bob") (Some "APPROVED")
                  (Some "2024-01-04T08:00:00Z") ]
              "alice") as (res & Hres & _).
  - repeat (apply Forall_cons; [| ]); try apply Forall_nil.
    + right. eexists. split; [vm_compute; reflexivity |].
      intros d Hd. injection Hd as <-. discriminate.
    + left. reflexivity.
    + right. eexists. split; [vm_compute; reflexivity |].
      intros d Hd. injection Hd as <-. discriminate.
  - exists res. split; [exact Hres |].
    vm_compute in Hres. injection Hres as <-. reflexivity.
Defined.

Lemma parse_iso8601_error (v : option string) (e : exn) :
  parse_iso8601 v = Raise e -> e = ValueError.
Proof.
  unfold parse_iso8601. destruct v as [[| c s] |]; try discriminate.
  unfold Datetime.fromisoformat.
  destruct (Datetime.parse_date _) as [[[[y m] d] [| c0 tstr]] |]; simpl;
    try discriminate; try congruence.
  destruct (Datetime.split_tz tstr) as [t tz].
  destruct (Datetime.parse_hh_mm_ss_ff t) as [[[[h mi] sec] us] |]; simpl;
    try congruence.
  destruct ((h <? 24) && (mi <? 60) && (sec <? 60)); simpl; try congruence.
  destruct tz as [[neg o] |]; simpl; try discriminate.
  destruct (Datetime.parse_offset neg o); simpl; try discriminate; congruence.
Qed.

Lemma first_review_loop_author (before after : list RawReview)
    (review : RawReview) (author : string) :
  is_author review author = true ->
  forall times,
    first_review_loop (before ++ review :: after) author times
    = first_review_loop (before ++ after) author times.
Proof.
  intros Hauth.
  induction before as [| r0 before IH]; intros times; simpl.
  - rewrite Hauth. reflexivity.
  - destruct (is_author r0 author); [apply IH |].
    destruct (parse_iso8601 (submitted_at r0)) as [[t |] | e]; simpl;
      [apply IH | apply IH | reflexivity].
Qed.

Lemma first_review_loop_raises (reviews : list RawReview) (author : string) :
  Exists (fun review =>
            is_author review author = false
            /\ exists e, parse_iso8601 (submitted_at review) = Raise e)
    reviews ->
  forall times, first_review_loop reviews author times = Raise ValueError.
Proof.
  induction reviews as [| r rest IH]; intros Hex times; [inversion Hex |].
  simpl. destruct (is_author r author) eqn:Hauth.
  - apply IH. inversion Hex as [? ? [Hf _] | ? ? Htl]; subst;
      [congruence | exact Htl].
  - destruct (parse_iso8601 (submitted_at r)) as [[t |] | e] eqn:Hp; simpl.
    + apply IH. inversion Hex as [? ? [_ [e He]] | ? ? Htl]; subst;
        [congruence | exact Htl].
    + apply IH. inversion Hex as [? ? [_ [e He]] | ? ? Htl]; subst;
        [congruence | exact Htl].
    + rewrite (parse_iso8601_error _ _ Hp). reflexivity.
Qed.

(** X11: the reviews of the author are skipped before their timestamp is
    read: taking one out of the list leaves the result of
    [compute_first_review_time] as it is, whatever its [submitted_at]
    holds.  A review by somebody else whose [submitted_at] does not parse
    ends the function with [ValueError]. *)
Theorem first_review_time_author_and_errors (reviews : list RawReview)
    (author : string) :
  (forall before review after,
     reviews = (before ++ review :: after)%list ->
     review_login review = Some author ->
     compute_first_review_time reviews author
     = compute_first_review_time (before ++ after) author)
  /\ (Exists (fun review =>
                review_login review <> Some author
                /\ exists e, parse_iso8601 (submitted_at review) = Raise e)
        reviews ->
      compute_first_review_time reviews author = Raise ValueError).
Proof.
  split.
  - intros before review after -> Hlogin. unfold compute_first_review_time.
    rewrite first_review_loop_author; [reflexivity |].
    unfold is_author. rewrite Hlogin. apply String.eqb_refl.
  - intros Hex. unfold compute_first_review_time.
    rewrite first_review_loop_raises; [reflexivity |].
    eapply Exists_impl; [| exact Hex].
    intros r [Hne He]. split; [apply is_author_false, Hne | exact He].
Qed.

Lemma first_review_time_author_and_errors_witness :
  compute_first_review_time
    [ mkReview (Some "alice") None (Some "garbage");
      mkReview (Some "bob") None (Some "2024-01-04T08:00:00Z");
      mkReview (Some "carol") None (Some "01/05/2024") ]
    "alice" = Raise ValueError.
Proof.
  apply (proj2 (first_review_time_author_and_errors _ "alice")).
  apply Exists_cons_tl, Exists_cons_tl, Exists_cons_hd.
  split; [discriminate | exists ValueError; vm_compute; reflexivity].
Defined.

(** *** Churn ratio: the cap, no first review *)

Lemma examined_app (commits extra : list RawCommit) (cap : Z) :
  (Z.to_nat cap <= List.length commits)%nat ->
  examined (commits ++ extra) cap = examined commits cap.
Proof.
  intros Hle. unfold examined. rewrite firstn_app.
  replace (Z.to_nat cap - List.length commits)%nat with 0%nat by lia.
  simpl. apply app_nil_r.
Qed.

(** X12: [compute_churn_ratio] reads the first [max_commits_check] commits
    alone: on a list with a commit, commits added after that many do not
    change the result, and with a cap of 0 or less the ratio is 0.0. *)
Theorem churn_ratio_cap (commits extra : list RawCommit)
    (frt : option Datetime.datetime) (cap : Z) :
  commits <> [] ->
  ((Z.to_nat cap <= List.length commits)%nat ->
   compute_churn_ratio (commits ++ extra) frt cap
   = compute_churn_ratio commits frt cap)
  /\ (cap <= 0 -> compute_churn_ratio commits frt cap = Ok (Some 0%R)).
Proof.
  intros Hne. destruct commits as [| c t]; [contradiction |]. split.
  - intros Hle. pose proof (examined_app (c :: t) extra cap Hle) as Hex.
    change ((c :: t) ++ extra)%list with (c :: t ++ extra)%list in *.
    unfold compute_churn_ratio. rewrite Hex. reflexivity.
  - intros Hcap. unfold compute_churn_ratio, examined.
    replace (Z.to_nat cap) with 0%nat by lia. reflexivity.
Qed.

Lemma churn_ratio_cap_witness :
  compute_churn_ratio
    ([ mkCommit (Some (1, 1)) (Some "2024-01-01T09:00:00Z") None None ]
       ++ [ mkCommit (Some (5, 5)) (Some "not a date") None None ])
    None 1
  = compute_churn_ratio
      [ mkCommit (Some (1, 1)) (Some "2024-01-01T09:00:00Z") None None ]
      None 1.
Proof.
  apply churn_ratio_cap; [discriminate | simpl; lia].
Defined.

Lemma churn_loop_no_review (commits : list RawCommit) :
  Forall (fun c => exists t, parse_iso8601 (committer_date c) = Ok t) commits ->
  forall total after,
    churn_loop commits None total after
    = Ok (total + total_changes_of commits, after).
Proof.
  induction 1 as [| c rest [t Ht] _ IH]; intros total after; simpl.
  - f_equal. f_equal. lia.
  - rewrite Ht. simpl. rewrite IH. f_equal. f_equal. lia.
Qed.

(** X13: without a first review time, on a list with a commit whose
    examined committer dates parse, the churn ratio is 0.0, whatever the
    commits changed. *)
Theorem churn_ratio_without_review (commits : list RawCommit) (cap : Z) :
  commits <> [] ->
  Forall (fun c => exists t, parse_iso8601 (committer_date c) = Ok t)
    (examined commits cap) ->
  exists ratio,
    compute_churn_ratio commits None cap = Ok (Some ratio) /\ ratio = 0%R.
Proof.
  intros Hne Hp. unfold compute_churn_ratio.
  destruct commits as [| c t]; [contradiction |].
  rewrite (churn_loop_no_review _ Hp). simpl.
  destruct (_ =? 0); eexists; (split; [reflexivity |]); [reflexivity |].
  unfold Rdiv. apply Rmult_0_l.
Qed.

Lemma churn_ratio_without_review_witness :
  exists ratio,
    compute_churn_ratio
      [ mkCommit (Some (10, 2)) (Some "2024-01-01T09:00:00Z") None None;
        mkCommit None None None None ] None 20
    = Ok (Some ratio) /\ ratio = 0%R.
Proof.
  apply churn_ratio_without_review; [discriminate |].
  repeat (apply Forall_cons; [eexists; vm_compute; reflexivity |]).
  apply Forall_nil.
Defined.

(** *** CI evidence *)

(** X14: [compute_ci_failed] reads the first [max_commits_check] commits
    alone: commits added after that many do not change the result; a
    failure found stays found with more commits and a larger cap; and with
    a cap of 0 or less the result is false. *)
Theorem ci_failed_cap (commits extra : list RawCommit) (cap cap' : Z) :
  ((Z.to_nat cap <= List.length commits)%nat ->
   compute_ci_failed (commits ++ extra) cap = compute_ci_failed commits cap)
  /\ (cap <= cap' -> compute_ci_failed commits cap = true ->
      compute_ci_failed (commits ++ extra) cap' = true)
  /\ (cap <= 0 -> compute_ci_failed commits cap = false).
Proof.
  unfold compute_ci_failed. split; [| split].
  - intros Hle. rewrite examined_app by exact Hle. reflexivity.
  - intros Hle Hfail. apply existsb_exists in Hfail.
    destruct Hfail as (c & Hin & Hc). apply existsb_exists. exists c.
    split; [| exact Hc]. unfold examined in *.
    assert (Hinc : forall n n' (l l' : list RawCommit),
               (n <= n')%nat -> In c (firstn n l) -> In c (firstn n' (l ++ l'))).
    { intros n n' l. revert n n'.
      induction l as [| a l IH]; intros n n' l' Hnn Hc'.
      - rewrite firstn_nil in Hc'. contradiction.
      - destruct n as [| n]; [contradiction |].
        destruct n' as [| n']; [lia |]. simpl in *.
        destruct Hc' as [-> | Hc']; [left; reflexivity |].
        right. apply (IH n n'); [lia | exact Hc']. }
    apply (Hinc (Z.to_nat cap)); [lia | exact Hin].
  - intros Hcap. unfold examined. replace (Z.to_nat cap) with 0%nat by lia.
    reflexivity.
Qed.

Lemma ci_failed_cap_witness :
  compute_ci_failed
    ([ mkCommit None None (Some [Some "failure"]) None ]
       ++ [ mkCommit None None None None ]) 5 = true.
Proof.
  apply (proj1 (proj2 (ci_failed_cap
                         [ mkCommit None None (Some [Some "failure"]) None ]
                         [ mkCommit None None None None ] 1 5)));
    [lia | reflexivity].
Defined.

End ExtractMore.

(** ** DeltaCalculator: the two sides *)

Module DeltasMore.
Import PyList Deltas DeltasFacts.

Lemma merged_before_kind (adoption : Datetime.datetime) (pr : ScoredPR) :
  (exists b, merged_before adoption pr = Ok b) <-> merged_same_kind adoption pr.
Proof.
  unfold merged_before, merged_same_kind, same_kind, Datetime.lt,
    Datetime.compare.
  destruct (pr_merged_at pr) as [m |]; [| split; [intros _; exact I | eexists; reflexivity]].
  destruct (Datetime.utcoffset m), (Datetime.utcoffset adoption); simpl; split;
    try (intros _; eexists; reflexivity);
    try (intros _; split; intros; try discriminate; reflexivity);
    try (intros [b Hb]; discriminate);
    intros [H1 H2];
    try (specialize (H1 eq_refl); discriminate);
    specialize (H2 eq_refl); discriminate.
Qed.

Lemma filter_r_defined_inv {A : Type} (f : A -> result bool) (l out : list A) :
  filter_r f l = Ok out -> Forall (fun x => exists b, f x = Ok b) l.
Proof.
  revert out. induction l as [| x l IH]; intros out H; [constructor |].
  simpl in H. destruct (f x) as [b | e] eqn:Hx; [| discriminate]. simpl in H.
  destruct (filter_r f l) as [rest | e] eqn:Hl; [| discriminate].
  constructor; [exists b; exact Hx | eapply IH; reflexivity].
Qed.

Lemma filter_r_raises {A : Type} (f : A -> result bool) (l : list A) (e : exn) :
  filter_r f l = Raise e -> exists x, In x l /\ f x = Raise e.
Proof.
  induction l as [| x l IH]; intros H; [discriminate |].
  simpl in H. destruct (f x) as [b | e0] eqn:Hx; simpl in H.
  - destruct (filter_r f l) as [rest | e1]; simpl in H; [discriminate |].
    injection H as <-. destruct IH as (y & Hy & Hfy); [reflexivity |].
    exists y. split; [right; exact Hy | exact Hfy].
  - injection H as <-. exists x. split; [left; reflexivity | exact Hx].
Qed.

Lemma build_deltas_labels (prs : list ScoredPR) (adoption : option Datetime.datetime)
    (ds : list DeltaRecord) :
  build_deltas prs adoption = Ok ds ->
  map label ds = ["Median Score"; "CI Fail Rate"; "Median Churn"; "Median Size"].
Proof.
  unfold build_deltas. destruct adoption as [a |].
  - destruct (filter_r (merged_before a) prs) as [b |]; simpl; [| discriminate].
    destruct (filter_r (merged_since a) prs) as [af |]; simpl; [| discriminate].
    destruct (median_of key_score b); simpl; [| discriminate].
    destruct (median_of key_score af); simpl; [| discriminate].
    destruct (median_of key_churn_ratio b); simpl; [| discriminate].
    destruct (median_of key_churn_ratio af); simpl; [| discriminate].
    destruct (median_of key_size b); simpl; [| discriminate].
    destruct (median_of key_size af); simpl; [| discriminate].
    intros H. injection H as <-.
    unfold delta_record.
    repeat match goal with
           | |- context [format_delta ?x ?y ?f] =>
               destruct (format_delta x y f) as [[? ?] ?]
           end.
    reflexivity.
  - intros H. injection H as <-. reflexivity.
Qed.

(** X15: with an adoption date, [build_deltas] returns exactly when every
    [merged_at] present is of the kind of the adoption date (both naive or
    both aware); the one exception that it raises is [TypeError]; and what
    it returns are the four records labelled Median Score, CI Fail Rate,
    Median Churn and Median Size, in this order. *)
Theorem build_deltas_returns_iff (prs : list ScoredPR)
    (adoption : Datetime.datetime) :
  ((exists ds, build_deltas prs (Some adoption) = Ok ds)
   <-> Forall (merged_same_kind adoption) prs)
  /\ (forall e, build_deltas prs (Some adoption) = Raise e -> e = TypeError)
  /\ (forall ds, build_deltas prs (Some adoption) = Ok ds ->
      map label ds
      = ["Median Score"; "CI Fail Rate"; "Median Churn"; "Median Size"]).
Proof.
  split; [| split].
  - split.
    + intros [ds Hds]. unfold build_deltas in Hds.
      destruct (filter_r (merged_before adoption) prs) as [b |] eqn:Hb;
        [| discriminate].
      apply filter_r_defined_inv in Hb.
      eapply Forall_impl; [| exact Hb].
      intros pr. apply merged_before_kind.
    + intros Hk.
      destruct (build_deltas_same_kind prs adoption Hk)
        as (b1 & b2 & b3 & b4 & a1 & a2 & a3 & a4 & _ & _ & H).
      eexists. exact H.
  - intros e He. unfold build_deltas in He.
    destruct (filter_r (merged_before adoption) prs) as [b | e0] eqn:Hb;
      simpl in He.
    + destruct (filter_r (merged_since adoption) prs) as [af | e1] eqn:Ha;
        simpl in He.
      * destruct (median_of_defined key_score b) as (v1 & H1 & _).
        destruct (median_of_defined key_score af) as (v2 & H2 & _).
        destruct (median_of_defined key_churn_ratio b) as (v3 & H3 & _).
        destruct (median_of_defined key_churn_ratio af) as (v4 & H4 & _).
        destruct (median_of_defined key_size b) as (v5 & H5 & _).
        destruct (median_of_defined key_size af) as (v6 & H6 & _).
        rewrite H1, H2, H3, H4, H5, H6 in He. discriminate.
      * injection He as <-.
        destruct (filter_r_raises _ _ _ Ha) as (pr & _ & Hpr).
        unfold merged_since, Datetime.ge, Datetime.compare in Hpr.
        destruct (pr_merged_at pr) as [m |]; [| discriminate].
        destruct (Datetime.utcoffset m), (Datetime.utcoffset adoption);
          simpl in Hpr; congruence.
    + injection He as <-.
      destruct (filter_r_raises _ _ _ Hb) as (pr & _ & Hpr).
      unfold merged_before, Datetime.lt, Datetime.compare in Hpr.
      destruct (pr_merged_at pr) as [m |]; [| discriminate].
      destruct (Datetime.utcoffset m), (Datetime.utcoffset adoption);
        simpl in Hpr; congruence.
  - intros ds. apply build_deltas_labels.
Qed.

Lemma build_deltas_returns_iff_witness :
  exists ds,
    build_deltas [merged_2024_01_02]
      (Some (Datetime.of_fields 2024 1 1 0 0 0 0 (Some 0))) = Ok ds.
Proof.
  apply (proj2 (proj1 (build_deltas_returns_iff [merged_2024_01_02]
                         (Datetime.of_fields 2024 1 1 0 0 0 0 (Some 0))))).
  apply Forall_cons; [| apply Forall_nil].
  simpl. split; discriminate.
Defined.

Lemma keep_some_nil {A B : Type} (f : A -> option B) : keep_some f [] = [].
Proof. reflexivity. Qed.

Lemma aggregates_nil : aggregates [] = Ok [None; None; None; None].
Proof. reflexivity. Qed.

Lemma filter_none {A : Type} (f : A -> bool) (l : list A) :
  (forall x, In x l -> f x = false) -> filter f l = [].
Proof.
  induction l as [| x l IH]; intros H; [reflexivity |]. simpl.
  rewrite (H x (or_introl eq_refl)). apply IH. intros y Hy. apply H. right; exact Hy.
Qed.

(** X16: when no PR was merged before the adoption date, or none at or
    after it, [build_deltas] has nothing to compare: the four records hold
    [None] for before, after and delta, the values of the other side
    included. *)
Theorem build_deltas_empty_side (prs : list ScoredPR)
    (adoption : Datetime.datetime) :
  Forall (merged_same_kind adoption) prs ->
  (forall pr m, In pr prs -> pr_merged_at pr = Some m ->
                instant adoption <= instant m)
  \/ (forall pr m, In pr prs -> pr_merged_at pr = Some m ->
                   instant m < instant adoption) ->
  build_deltas prs (Some adoption)
  = Ok [ mkDelta "Median Score" None None None;
         mkDelta "CI Fail Rate" None None None;
         mkDelta "Median Churn" None None None;
         mkDelta "Median Size" None None None ].
Proof.
  intros Hk Hside.
  destruct (build_deltas_same_kind prs adoption Hk)
    as (b1 & b2 & b3 & b4 & a1 & a2 & a3 & a4 & Hb & Ha & H).
  rewrite H. destruct Hside as [Hafter | Hbefore].
  - assert (Hnil : before_partition adoption prs = []).
    { unfold before_partition. apply filter_none. intros pr Hin.
      destruct (pr_merged_at pr) as [m |] eqn:Hm; [| reflexivity].
      apply Z.ltb_ge. eapply Hafter; eassumption. }
    rewrite Hnil, aggregates_nil in Hb.
    injection Hb as <- <- <- <-. reflexivity.
  - assert (Hnil : after_partition adoption prs = []).
    { unfold after_partition. apply filter_none. intros pr Hin.
      destruct (pr_merged_at pr) as [m |] eqn:Hm; [| reflexivity].
      apply Z.leb_gt. eapply Hbefore; eassumption. }
    rewrite Hnil, aggregates_nil in Ha.
    injection Ha as <- <- <- <-.
    destruct b1, b2, b3, b4; reflexivity.
Qed.

Lemma build_deltas_empty_side_witness :
  build_deltas [merged_2024_01_02]
    (Some (Datetime.of_fields 2024 1 1 0 0 0 0 (Some 0)))
  = Ok [ mkDelta "Median Score" None None None;
         mkDelta "CI Fail Rate" None None None;
         mkDelta "Median Churn" None None None;
         mkDelta "Median Size" None None None ].
Proof.
  apply build_deltas_empty_side.
  - apply Forall_cons; [| apply Forall_nil]. simpl. split; discriminate.
  - left. intros pr m [<- | []] Hm. simpl in Hm. injection Hm as <-.
    vm_compute. discriminate.
Defined.

(** X17: for timestamps of one kind the two comprehensions of
    [build_deltas] split the PRs that have a [merged_at]: each of them is
    in exactly one of [before_prs] and [after_prs], those merged strictly
    before the adoption date in the first, those merged at it or later in
    the second; a PR without [merged_at] is in neither. *)
Theorem build_deltas_partition (prs : list ScoredPR)
    (adoption : Datetime.datetime) :
  Forall (merged_same_kind adoption) prs ->
  exists before_prs after_prs,
    filter_r (merged_before adoption) prs = Ok before_prs
    /\ filter_r (merged_since adoption) prs = Ok after_prs
    /\ Permutation (before_prs ++ after_prs)
         (filter (fun pr => match pr_merged_at pr with
                            | Some _ => true
                            | None => false
                            end) prs)
    /\ (forall pr, In pr before_prs ->
          exists m, pr_merged_at pr = Some m /\ instant m < instant adoption)
    /\ (forall pr, In pr after_prs ->
          exists m, pr_merged_at pr = Some m /\ instant adoption <= instant m).
Proof.
  intros Hk.
  exists (before_partition adoption prs), (after_partition adoption prs).
  split; [apply before_prs_same_kind, Hk |].
  split; [apply after_prs_same_kind, Hk |].
  split; [| split].
  - clear Hk. unfold before_partition, after_partition.
    induction prs as [| pr prs IH]; simpl; [apply perm_nil |].
    destruct (pr_merged_at pr) as [m |]; [| exact IH].
    destruct (Z.ltb_spec (instant m) (instant adoption)) as [Hlt | Hge].
    + replace (instant adoption <=? instant m) with false
        by (symmetry; apply Z.leb_gt; exact Hlt).
      simpl. apply perm_skip, IH.
    + replace (instant adoption <=? instant m) with true
        by (symmetry; apply Z.leb_le; exact Hge).
      apply Permutation_sym. eapply perm_trans.
      * apply perm_skip, Permutation_sym, IH.
      * apply Permutation_middle.
  - intros pr Hin. apply in_before_partition in Hin. tauto.
  - intros pr Hin. apply in_after_partition in Hin. tauto.
Qed.

Lemma build_deltas_partition_witness :
  exists before_prs after_prs,
    filter_r (merged_before (Datetime.of_fields 2024 1 1 0 0 0 0 (Some 0)))
      [merged_2024_01_02] = Ok before_prs
    /\ filter_r (merged_since (Datetime.of_fields 2024 1 1 0 0 0 0 (Some 0)))
         [merged_2024_01_02] = Ok after_prs
    /\ before_prs = [] /\ after_prs = [merged_2024_01_02].
Proof.
  destruct (build_deltas_partition [merged_2024_01_02]
              (Datetime.of_fields 2024 1 1 0 0 0 0 (Some 0)))
    as (b & a & Hb & Ha & _).
  - apply Forall_cons; [| apply Forall_nil]. simpl. split; discriminate.
  - exists b, a. split; [exact Hb | split; [exact Ha |]].
    vm_compute in Hb, Ha. injection Hb as <-. injection Ha as <-.
    split; reflexivity.
Defined.

End DeltasMore.

(** ** The run: selection and weekly buckets *)

Module EngineMore.
Import PyList Deltas DeltasFacts Engine EngineFacts.

Lemma string_leb_trans (a b c : string) :
  String.leb a b = true -> String.leb b c = true -> String.leb a c = true.
Proof.
  unfold String.leb. revert b c.
  induction a as [| x a IH]; intros [| y b] [| z c]; simpl; try congruence.
  unfold Ascii.compare.
  destruct (N.compare_spec (N_of_ascii x) (N_of_ascii y)) as [Hxy | Hxy | Hxy];
    destruct (N.compare_spec (N_of_ascii y) (N_of_ascii z)) as [Hyz | Hyz | Hyz];
    destruct (N.compare_spec (N_of_ascii x) (N_of_ascii z)) as [Hxz | Hxz | Hxz];
    try congruence; try lia.
  apply IH.
Qed.

Lemma string_ltb_leb (a b : string) :
  String.leb a b = true -> a <> b -> String.ltb a b = true.
Proof.
  unfold String.leb, String.ltb. intros Hle Hne.
  destruct (String.compare a b) eqn:Hc; try congruence.
  apply String.compare_eq_iff in Hc. contradiction.
Qed.

Section SortByOrder.
Context {A : Type} (le : A -> A -> bool).
Hypothesis le_total : forall x y, le x y = true \/ le y x = true.
Hypothesis le_trans : forall x y z, le x y = true -> le y z = true -> le x z = true.

Lemma insert_in (x y : A) (l : list A) :
  In y (insert le x l) <-> y = x \/ In y l.
Proof.
  induction l as [| z l IH]; simpl; [intuition congruence |].
  destruct (le x z); simpl; [intuition congruence |].
  rewrite IH. intuition congruence.
Qed.

Lemma insert_strongly_sorted (x : A) (l : list A) :
  StronglySorted (fun a b => le a b = true) l ->
  StronglySorted (fun a b => le a b = true) (insert le x l).
Proof.
  induction 1 as [| y l Hs IH Hy]; simpl.
  - constructor; constructor.
  - destruct (le x y) eqn:Hxy.
    + constructor; [constructor; assumption |].
      constructor; [exact Hxy |].
      rewrite Forall_forall in *. intros z Hz. eapply le_trans; [exact Hxy |].
      apply Hy, Hz.
    + constructor; [exact IH |].
      rewrite Forall_forall in *. intros z Hz. apply insert_in in Hz.
      destruct Hz as [-> | Hz]; [| apply Hy, Hz].
      destruct (le_total x y) as [H | H]; [congruence | exact H].
Qed.

Lemma sort_by_strongly_sorted (l : list A) :
  StronglySorted (fun a b => le a b = true) (sort_by le l).
Proof.
  induction l as [| x l IH]; simpl; [constructor |].
  apply insert_strongly_sorted, IH.
Qed.
End SortByOrder.

Lemma in_firstn {A : Type} (n : nat) (l : list A) (x : A) :
  In x (firstn n l) -> In x l.
Proof.
  intros H. rewrite <- (firstn_skipn n l). apply in_or_app. left; exact H.
Qed.

Lemma in_skipn {A : Type} (n : nat) (l : list A) (x : A) :
  In x (skipn n l) -> In x l.
Proof.
  intros H. rewrite <- (firstn_skipn n l). apply in_or_app. right; exact H.
Qed.

Lemma strongly_sorted_split {A : Type} (R : A -> A -> Prop) (l : list A) (n : nat) :
  StronglySorted R l ->
  StronglySorted R (firstn n l)
  /\ forall a b, In a (firstn n l) -> In b (skipn n l) -> R a b.
Proof.
  intros Hs. revert n. induction Hs as [| x l Hs IH Hx]; intros n.
  - rewrite firstn_nil, skipn_nil. split; [constructor | intros a b []].
  - destruct n as [| n]; simpl; [split; [constructor | intros a b []] |].
    destruct (IH n) as [Hf Hsplit]. rewrite Forall_forall in Hx. split.
    + constructor; [exact Hf |]. rewrite Forall_forall.
      intros y Hy. apply Hx. eapply in_firstn, Hy.
    + intros a b [<- | Ha] Hb; [apply Hx; eapply in_skipn, Hb |].
      apply Hsplit; assumption.
Qed.

Lemma merged_order_total (x y : RawPR) :
  negb (String.ltb (merged_key x) (merged_key y)) = true
  \/ negb (String.ltb (merged_key y) (merged_key x)) = true.
Proof.
  unfold String.ltb. rewrite (String.compare_antisym (merged_key y)).
  destruct (String.compare (merged_key x) (merged_key y)); simpl; auto.
Qed.

Lemma merged_order_leb (x y : RawPR) :
  negb (String.ltb (merged_key x) (merged_key y))
  = String.leb (merged_key y) (merged_key x).
Proof.
  unfold String.ltb, String.leb. rewrite (String.compare_antisym (merged_key y)).
  destruct (String.compare (merged_key x) (merged_key y)); reflexivity.
Qed.

Lemma merged_order_trans (x y z : RawPR) :
  negb (String.ltb (merged_key x) (merged_key y)) = true ->
  negb (String.ltb (merged_key y) (merged_key z)) = true ->
  negb (String.ltb (merged_key x) (merged_key z)) = true.
Proof.
  rewrite !merged_order_leb. intros H1 H2. eapply string_leb_trans; eassumption.
Qed.

Lemma take_split {A : Type} (n : Z) (l : list A) :
  exists k, take n l = firstn k l
            /\ (0 <= n -> k = Z.to_nat n).
Proof.
  unfold take. destruct (n <? 0) eqn:Hn.
  - eexists. split; [reflexivity |]. apply Z.ltb_lt in Hn. lia.
  - eexists. split; [reflexivity | reflexivity].
Qed.

(** X18: the PRs that [main] processes are the latest merges of the list:
    the selection and what it drops are together the PRs with a
    [merged_at], the selection is ordered from the latest [merged_at]
    string down, nothing dropped is later than something kept, and for
    [max_prs] of 0 or more the selection has [max_prs] entries or all the
    merged PRs, whichever is fewer. *)
Theorem select_prs_latest (args : Args) (raw_prs : list RawPR) :
  exists dropped,
    Permutation (select_prs args raw_prs ++ dropped)
      (filter (fun pr => truthy (listed_merged_at pr)) raw_prs)
    /\ StronglySorted later_or_equal (select_prs args raw_prs)
    /\ (forall kept pr,
          In kept (select_prs args raw_prs) -> In pr dropped ->
          later_or_equal kept pr)
    /\ (0 <= max_prs args ->
        Z.of_nat (List.length (select_prs args raw_prs))
        = Z.min (max_prs args)
            (Z.of_nat
               (List.length
                  (filter (fun pr => truthy (listed_merged_at pr)) raw_prs)))).
Proof.
  unfold select_prs.
  set (merged := filter (fun pr => truthy (listed_merged_at pr)) raw_prs).
  set (le := fun a b => negb (String.ltb (merged_key a) (merged_key b))).
  set (ordered := sort_by le merged).
  assert (Hs : StronglySorted later_or_equal ordered).
  { pose proof (sort_by_strongly_sorted le merged_order_total
                  merged_order_trans merged) as H.
    clear -H. fold ordered in H.
    induction H as [| x l _ IH Hx]; constructor; [exact IH |].
    eapply Forall_impl; [| exact Hx].
    intros y Hy. unfold later_or_equal. rewrite <- merged_order_leb. exact Hy. }
  destruct (take_split (max_prs args) ordered) as (k & Hk & Hk0).
  rewrite Hk.
  destruct (strongly_sorted_split later_or_equal ordered k Hs) as [Hf Hsplit].
  exists (skipn k ordered).
  split; [| split; [exact Hf | split; [exact Hsplit |]]].
  - rewrite firstn_skipn. apply Permutation_sym, StatsFacts.sort_by_perm.
  - intros H0. rewrite (Hk0 H0), length_firstn.
    unfold ordered. rewrite StatsFacts.sort_by_length. lia.
Qed.

Lemma bucket_append_keys (k : string) (e : ScoredPR)
    (b : list (string * list ScoredPR)) (k' : string) :
  In k' (map fst (bucket_append k e b)) <-> k' = k \/ In k' (map fst b).
Proof.
  induction b as [| [k0 items] b IH]; simpl; [intuition congruence |].
  destruct (String.eqb_spec k0 k) as [-> | Hne]; simpl; [intuition congruence |].
  rewrite IH. intuition congruence.
Qed.

Lemma bucket_append_nodup (k : string) (e : ScoredPR)
    (b : list (string * list ScoredPR)) :
  NoDup (map fst b) -> NoDup (map fst (bucket_append k e b)).
Proof.
  induction b as [| [k0 items] b IH]; simpl; intros Hnd.
  - constructor; [intros [] | constructor].
  - inversion Hnd as [| ? ? Hnin Hnd']; subst.
    destruct (String.eqb_spec k0 k) as [-> | Hne]; simpl.
    + constructor; assumption.
    + constructor; [| apply IH, Hnd'].
      rewrite bucket_append_keys. intros [-> | Hin]; [congruence | contradiction].
Qed.

Lemma bucket_append_in (k : string) (e : ScoredPR)
    (b : list (string * list ScoredPR)) (k' : string) (items' : list ScoredPR) :
  NoDup (map fst b) ->
  In (k', items') (bucket_append k e b) ->
  (k' <> k /\ In (k', items') b)
  \/ (k' = k /\ (items' = [e]
                 \/ exists items, In (k, items) b /\ items' = (items ++ [e])%list)).
Proof.
  induction b as [| [k0 items] b IH]; simpl; intros Hnd.
  - intros [H | []]. injection H as <- <-.
    right. split; [reflexivity | left; reflexivity].
  - inversion Hnd as [| ? ? Hnin Hnd']; subst.
    destruct (String.eqb_spec k0 k) as [-> | Hne]; simpl.
    + intros [H | H].
      * injection H as <- <-. right. split; [reflexivity |].
        right. exists items. split; [left; reflexivity | reflexivity].
      * left. split; [| right; exact H].
        intros ->. apply Hnin. apply (in_map fst) in H. exact H.
    + intros [H | H].
      * injection H as <- <-. left. split; [exact Hne | left; reflexivity].
      * destruct (IH Hnd' H) as [[Hne' Hin] | [-> Hcase]].
        -- left. split; [exact Hne' | right; exact Hin].
        -- right. split; [reflexivity |].
           destruct Hcase as [-> | (its & Hin & ->)]; [left; reflexivity |].
           right. exists its. split; [right; exact Hin | reflexivity].
Qed.

Lemma bucket_append_keeps (k : string) (e : ScoredPR)
    (b : list (string * list ScoredPR)) (k' : string) (items : list ScoredPR) :
  In (k', items) b ->
  exists items', In (k', items') (bucket_append k e b) /\ incl items items'.
Proof.
  induction b as [| [k0 its] b IH]; simpl; [intros [] |].
  destruct (String.eqb_spec k0 k) as [-> | Hne]; intros [H | H].
  - injection H as <- <-. exists (its ++ [e])%list.
    split; [left; reflexivity | apply incl_appl, incl_refl].
  - exists items. split; [right; exact H | apply incl_refl].
  - injection H as <- <-. exists its.
    split; [left; reflexivity | apply incl_refl].
  - destruct (IH H) as (items' & Hin & Hincl).
    exists items'. split; [right; exact Hin | exact Hincl].
Qed.

Lemma bucket_append_holds (k : string) (e : ScoredPR)
    (b : list (string * list ScoredPR)) :
  exists items, In (k, items) (bucket_append k e b) /\ In e items.
Proof.
  induction b as [| [k0 its] b IH]; simpl.
  - exists [e]. split; left; reflexivity.
  - destruct (String.eqb_spec k0 k) as [-> | Hne].
    + exists (its ++ [e])%list. split; [left; reflexivity |].
      apply in_or_app. right. left. reflexivity.
    + destruct IH as (items & Hin & He). exists items.
      split; [right; exact Hin | exact He].
Qed.

Lemma bucket_inv_skip (since : Datetime.datetime) (processed : list ScoredPR)
    (buckets : list (string * list ScoredPR)) (entry : ScoredPR) :
  bucket_inv since processed buckets ->
  (forall m, pr_merged_at entry = Some m -> Datetime.ge m since <> Ok true) ->
  bucket_inv since (processed ++ [entry]) buckets.
Proof.
  intros (Hnd & Hitems & Hcover) Hold.
  split; [exact Hnd | split].
  - intros k items Hin. destruct (Hitems k items Hin) as [Hne Hall].
    split; [exact Hne |]. intros e He. destruct (Hall e He) as [Hp Hrest].
    split; [apply in_or_app; left; exact Hp | exact Hrest].
  - intros e m He Hm Hge. apply in_app_or in He.
    destruct He as [He | [<- | []]]; [eapply Hcover; eassumption |].
    exfalso. exact (Hold m Hm Hge).
Qed.

Lemma bucket_inv_append (since : Datetime.datetime) (processed : list ScoredPR)
    (buckets : list (string * list ScoredPR)) (entry : ScoredPR)
    (m : Datetime.datetime) :
  bucket_inv since processed buckets ->
  pr_merged_at entry = Some m -> Datetime.ge m since = Ok true ->
  bucket_inv since (processed ++ [entry])
    (bucket_append (iso_week_key m) entry buckets).
Proof.
  intros (Hnd & Hitems & Hcover) Hm Hge.
  assert (Hentry : In entry (processed ++ [entry])
                   /\ exists m0, pr_merged_at entry = Some m0
                                 /\ iso_week_key m0 = iso_week_key m
                                 /\ Datetime.ge m0 since = Ok true).
  { split; [apply in_or_app; right; left; reflexivity |].
    exists m. repeat split; assumption. }
  split; [apply bucket_append_nodup, Hnd | split].
  - intros k items Hin.
    destruct (bucket_append_in _ _ _ _ _ Hnd Hin)
      as [[Hne Hold] | [-> [-> | (its & Hold & ->)]]].
    + destruct (Hitems k items Hold) as [Hne' Hall].
      split; [exact Hne' |]. intros e He. destruct (Hall e He) as [Hp Hrest].
      split; [apply in_or_app; left; exact Hp | exact Hrest].
    + split; [discriminate |]. intros e [<- | []]. exact Hentry.
    + destruct (Hitems _ its Hold) as [_ Hall].
      split; [intros Hnil; apply app_eq_nil in Hnil; destruct Hnil; discriminate |].
      intros e He. apply in_app_or in He.
      destruct He as [He | [<- | []]]; [| exact Hentry].
      destruct (Hall e He) as [Hp Hrest].
      split; [apply in_or_app; left; exact Hp | exact Hrest].
  - intros e m' He Hm' Hge'. apply in_app_or in He.
    destruct He as [He | [<- | []]].
    + destruct (Hcover e m' He Hm' Hge') as (items & Hin & Hei).
      destruct (bucket_append_keeps (iso_week_key m) entry _ _ _ Hin)
        as (items' & Hin' & Hincl).
      exists items'. split; [exact Hin' | apply Hincl, Hei].
    + rewrite Hm in Hm'. injection Hm' as <-. apply bucket_append_holds.
Qed.

Lemma main_loop_inv (args : Args) (since : Datetime.datetime)
    (merged_prs : list RawPR) :
  forall processed buckets processed' buckets',
    bucket_inv since processed buckets ->
    main_loop args since merged_prs processed buckets
    = Ok (processed', buckets') ->
    bucket_inv since processed' buckets'.
Proof.
  induction merged_prs as [| pr rest IH];
    intros processed buckets processed' buckets' Hinv Hloop; simpl in Hloop.
  - injection Hloop as <- <-. exact Hinv.
  - destruct (process_pr args pr) as [entry |]; [| discriminate].
    cbn [bind] in Hloop.
    destruct (pr_merged_at entry) as [m |] eqn:Hm.
    + destruct (Datetime.ge m since) as [[|] |] eqn:Hge; cbn [bind] in Hloop;
        [| | discriminate].
      * eapply IH; [| exact Hloop]. apply bucket_inv_append; assumption.
      * eapply IH; [| exact Hloop]. apply bucket_inv_skip; [exact Hinv |].
        intros m' Hm'. rewrite Hm in Hm'. injection Hm' as <-. congruence.
    + cbn [bind] in Hloop. eapply IH; [| exact Hloop].
      apply bucket_inv_skip; [exact Hinv |]. intros m' Hm'. congruence.
Qed.

Lemma bucket_inv_nil (since : Datetime.datetime) : bucket_inv since [] [].
Proof.
  split; [constructor | split]; [intros k items [] | intros e m []].
Qed.

(** What an entry of [processed_prs] holds, read off the loop body. *)
Lemma process_pr_entry (args : Args) (pr : RawPR) (entry : ScoredPR) :
  process_pr args pr = Ok entry ->
  pr_number entry = raw_number pr
  /\ pr_title entry = raw_title pr
  /\ pr_url entry = raw_html_url pr
  /\ pr_author entry = author_of pr
  /\ pr_additions entry = raw_additions pr
  /\ pr_deletions entry = raw_deletions pr
  /\ pr_files_changed entry = raw_changed_files pr
  /\ pr_size entry = raw_additions pr + raw_deletions pr
  /\ pr_review_rounds entry = Extract.compute_review_rounds (raw_reviews pr)
  /\ pr_ci_failed entry
     = Extract.compute_ci_failed (raw_commits pr) (max_commits_check args)
  /\ parse_iso8601 (raw_merged_at pr) = Ok (pr_merged_at entry)
  /\ (0 <= pr_score entry <= 100)%R.
Proof.
  unfold process_pr. fold (author_of pr).
  destruct (Extract.compute_first_review_time _ _) as [frt |]; [| discriminate].
  cbn [bind].
  destruct (Extract.compute_churn_ratio _ _ _) as [churn |]; [| discriminate].
  cbn [bind].
  destruct (parse_iso8601 (raw_merged_at pr)) as [merged |]; [| discriminate].
  cbn [bind].
  destruct (parse_iso8601 (raw_created_at pr)) as [created |]; [| discriminate].
  cbn [bind].
  destruct (hours_between frt created) as [tfr |]; [| discriminate].
  cbn [bind].
  destruct (hours_between merged created) as [ttm |]; [| discriminate].
  cbn [bind].
  destruct (Scoring.score_pr _) as [[score comps] |] eqn:Hscore; [| discriminate].
  cbn [bind fst]. intros H. injection H as <-. cbn.
  assert (Hb : (0 <= score <= 100)%R).
  { unfold Scoring.score_pr in Hscore.
    destruct (Scoring.log1p _) as [num |]; [| discriminate].
    destruct (Scoring.log1p 2000) as [den |]; [| discriminate].
    cbn [bind] in Hscore. injection Hscore as <- _.
    apply ScoringFacts.clamp_bounds. lra. }
  repeat split; try reflexivity; apply Hb.
Qed.

Lemma map_r_forall2 {A B : Type} (f : A -> result B) (l : list A) (out : list B) :
  map_r f l = Ok out <-> Forall2 (fun x y => f x = Ok y) l out.
Proof.
  revert out. induction l as [| x l IH]; intros out; simpl.
  - split; [intros H; injection H as <-; constructor |
            intros H; inversion H; reflexivity].
  - split.
    + destruct (f x) as [y |] eqn:Hx; [| discriminate]. cbn [bind].
      destruct (map_r f l) as [ys |]; [| discriminate]. cbn [bind].
      intros H. injection H as <-. constructor; [exact Hx | apply IH; reflexivity].
    + intros H. inversion H as [| ? y ? ys Hx Hrest]; subst.
      rewrite Hx. cbn [bind]. apply IH in Hrest. rewrite Hrest. reflexivity.
Qed.

Lemma timedelta_days_ok (n delta : Z) :
  Datetime.timedelta_days n = Ok delta ->
  delta = n * Datetime.us_per_day /\ -999999999 <= n <= 999999999.
Proof.
  unfold Datetime.timedelta_days.
  destruct ((-999999999 <=? n) && (n <=? 999999999)) eqn:Hb; [| discriminate].
  intros H. injection H as <-. apply andb_true_iff in Hb. destruct Hb as [H1 H2].
  apply Z.leb_le in H1, H2. split; [reflexivity | lia].
Qed.

(** The steps of a run that returns. *)
Lemma run_inversion (args : Args) (raw_prs : list RawPR) (w : World)
    (p : Payload) :
  run args raw_prs w = Ok p ->
  exists adoption since processed buckets,
    parse_iso8601 (adoption_date args) = Ok adoption
    /\ Datetime.sub_delta (Datetime.mkDatetime (clock w (reads w)) (Some 0))
         (30 * months args * Datetime.us_per_day) = Ok since
    /\ main_loop args since (select_prs args raw_prs) [] []
       = Ok (processed, buckets)
    /\ map_r (week_stats args)
         (sort_by (fun a b => String.leb (fst a) (fst b)) buckets)
       = Ok (weekly p)
    /\ build_deltas processed adoption = Ok (deltas p)
    /\ prs p = processed
    /\ payload_repo p = repo args
    /\ payload_adoption_date p = adoption_date args
    /\ payload_score_threshold p = score_threshold args
    /\ generated_at p
       = Datetime.strftime_minutes
           (Datetime.mkDatetime (clock w (S (reads w))) (Some 0)).
Proof.
  unfold run, main. intros Hrun.
  destruct (parse_iso8601 (adoption_date args)) as [adoption | e0];
    cbn [bind now_utc] in Hrun; [| discriminate].
  destruct (Datetime.timedelta_days (30 * months args)) as [lookback | e1] eqn:Htd;
    cbn [bind] in Hrun; [| discriminate].
  apply timedelta_days_ok in Htd. destruct Htd as [-> _].
  destruct (Datetime.sub_delta _ _) as [since | e2] eqn:Hsince;
    cbn [bind] in Hrun; [| discriminate].
  destruct (main_loop args since _ [] []) as [[processed buckets] | e3]
    eqn:Hloop; cbn [bind] in Hrun; [| discriminate].
  destruct (map_r (week_stats args) _) as [stats | e4] eqn:Hstats;
    cbn [bind] in Hrun; [| discriminate].
  cbn [clock reads] in Hrun.
  destruct (build_deltas processed adoption) as [ds | e5] eqn:Hd;
    cbn [bind fst] in Hrun; [| discriminate].
  injection Hrun as <-.
  exists adoption, since, processed, buckets. cbn.
  repeat split; try reflexivity; assumption.
Qed.

Lemma week_stats_week (args : Args) (bucket : string * list ScoredPR)
    (stats : WeeklyStats) :
  week_stats args bucket = Ok stats -> week stats = fst bucket.
Proof.
  destruct bucket as [k items]. unfold week_stats.
  destruct (Stats.safe_median _); [| discriminate]. cbn [bind].
  destruct (Stats.percentile _ 25); [| discriminate]. cbn [bind].
  destruct (Stats.percentile _ 75); [| discriminate]. cbn [bind].
  destruct (Stats.safe_median _); [| discriminate]. cbn [bind].
  destruct (Stats.safe_median _); [| discriminate]. cbn [bind].
  destruct (Stats.safe_median _); [| discriminate]. cbn [bind].
  intros H. injection H as <-. reflexivity.
Qed.

Lemma week_stats_keys (args : Args) (buckets : list (string * list ScoredPR))
    (stats : list WeeklyStats) :
  map_r (week_stats args) buckets = Ok stats ->
  map week stats = map fst buckets.
Proof.
  intros H. apply map_r_forall2 in H.
  induction H as [| b s bs ss Hb _ IH]; simpl; [reflexivity |].
  rewrite (week_stats_week _ _ _ Hb), IH. reflexivity.
Qed.

Lemma key_order_total (x y : string * list ScoredPR) :
  String.leb (fst x) (fst y) = true \/ String.leb (fst y) (fst x) = true.
Proof. apply String.leb_total. Qed.

Lemma key_order_trans (x y z : string * list ScoredPR) :
  String.leb (fst x) (fst y) = true -> String.leb (fst y) (fst z) = true ->
  String.leb (fst x) (fst z) = true.
Proof. apply string_leb_trans. Qed.

Lemma sorted_keys_strict (buckets : list (string * list ScoredPR)) :
  NoDup (map fst buckets) ->
  StronglySorted (fun a b => String.ltb a b = true)
    (map fst (sort_by (fun a b => String.leb (fst a) (fst b)) buckets)).
Proof.
  intros Hnd.
  pose proof (sort_by_strongly_sorted
                (fun a b : string * list ScoredPR => String.leb (fst a) (fst b))
                key_order_total key_order_trans buckets) as Hs.
  pose proof (StatsFacts.sort_by_perm
                (fun a b : string * list ScoredPR => String.leb (fst a) (fst b))
                buckets) as Hp.
  assert (Hnd' : NoDup (map fst (sort_by
                   (fun a b : string * list ScoredPR => String.leb (fst a) (fst b))
                   buckets))).
  { eapply Permutation_NoDup; [apply Permutation_map, Hp | exact Hnd]. }
  clear Hp Hnd.
  induction Hs as [| x l Hs IH Hx]; simpl; [constructor |].
  simpl in Hnd'. inversion Hnd' as [| ? ? Hnin Hnd'']; subst.
  constructor; [apply IH, Hnd'' |].
  rewrite Forall_forall in *. intros k Hk.
  apply in_map_iff in Hk. destruct Hk as (y & <- & Hy).
  apply string_ltb_leb; [apply Hx, Hy |].
  intros Heq. apply Hnin. rewrite Heq. apply in_map, Hy.
Qed.

Lemma run_good_pr_returns :
  exists p, run default_args [good_pr] (ticking (noon 2024 3 1)) = Ok p.
Proof.
  destruct (EngineFacts.week_stats_single default_args "2024-W08" good_entry)
    as (stats & Hstats & _).
  rewrite (EngineFacts.run_good_pr (noon 2024 3 1) true);
    [| vm_compute; reflexivity | vm_compute; reflexivity].
  cbn [map_r]. rewrite Hstats. cbn [bind]. eexists. reflexivity.
Qed.

(** X19: in the payload of a run the weeks are in strictly ascending order
    of their keys, so no week is there twice, and a key is there exactly
    when it is the ISO week of a processed PR merged at or after the
    lookback limit, the first reading of the clock minus [30 * months]
    days. *)
Theorem weekly_weeks (args : Args) (raw_prs : list RawPR) (w : World)
    (p : Payload) :
  run args raw_prs w = Ok p ->
  exists since,
    Datetime.sub_delta (Datetime.mkDatetime (clock w (reads w)) (Some 0))
      (30 * months args * Datetime.us_per_day) = Ok since
    /\ StronglySorted (fun a b => String.ltb a b = true) (map week (weekly p))
    /\ forall k,
         In k (map week (weekly p))
         <-> exists e m,
               In e (prs p) /\ pr_merged_at e = Some m
               /\ Datetime.ge m since = Ok true /\ iso_week_key m = k.
Proof.
  intros Hrun.
  destruct (run_inversion _ _ _ _ Hrun)
    as (adoption & since & processed & buckets & _ & Hsince & Hloop & Hstats
        & _ & Hprs & _).
  exists since. split; [exact Hsince |].
  pose proof (main_loop_inv _ _ _ _ _ _ _ (bucket_inv_nil since) Hloop)
    as (Hnd & Hitems & Hcover).
  rewrite (week_stats_keys _ _ _ Hstats), Hprs.
  split; [apply sorted_keys_strict, Hnd |].
  intros k.
  assert (Hperm : forall x, In x (map fst (sort_by
                     (fun a b : string * list ScoredPR =>
                        String.leb (fst a) (fst b)) buckets))
                            <-> In x (map fst buckets)).
  { intros x. split; apply Permutation_in, Permutation_map;
      [apply Permutation_sym |]; apply StatsFacts.sort_by_perm. }
  rewrite Hperm. split.
  - intros Hk. apply in_map_iff in Hk. destruct Hk as ([k' items] & <- & Hin).
    destruct (Hitems k' items Hin) as [Hne Hall].
    destruct items as [| e items]; [contradiction |].
    destruct (Hall e (or_introl eq_refl)) as (Hp & m & Hm & Hk & Hge).
    exists e, m. repeat split; assumption.
  - intros (e & m & He & Hm & Hge & <-).
    destruct (Hcover e m He Hm Hge) as (items & Hin & _).
    apply in_map_iff. exists (iso_week_key m, items). split; [reflexivity | exact Hin].
Qed.

Lemma weekly_weeks_witness :
  exists p,
    run default_args [good_pr] (ticking (noon 2024 3 1)) = Ok p
    /\ StronglySorted (fun a b => String.ltb a b = true) (map week (weekly p)).
Proof.
  destruct run_good_pr_returns as [p Hp]. exists p. split; [exact Hp |].
  destruct (weekly_weeks default_args [good_pr] (ticking (noon 2024 3 1)) p Hp)
    as (since & _ & Hsorted & _).
  exact Hsorted.
Defined.

Lemma rate_bounds {A : Type} (f : A -> bool) (items : list A) :
  items <> [] ->
  (0 <= IZR (count f items) / IZR (Z.of_nat (List.length items)) <= 1)%R.
Proof.
  intros Hne. unfold count.
  pose proof (filter_length_le f items) as Hle.
  assert (Hpos : (0 < IZR (Z.of_nat (List.length items)))%R).
  { apply IZR_lt. destruct items; [contradiction | simpl; lia]. }
  assert (H0 : (0 <= IZR (Z.of_nat (List.length (filter f items))))%R)
    by (apply IZR_le; lia).
  assert (H1 : (IZR (Z.of_nat (List.length (filter f items)))
                <= IZR (Z.of_nat (List.length items)))%R)
    by (apply IZR_le; lia).
  split.
  - apply Rmult_le_pos; [exact H0 | left; apply Rinv_0_lt_compat, Hpos].
  - apply Rmult_le_reg_r with (IZR (Z.of_nat (List.length items))); [exact Hpos |].
    unfold Rdiv. rewrite Rmult_assoc, Rinv_l by lra. lra.
Qed.

Lemma week_stats_ranges (args : Args) (k : string) (items : list ScoredPR)
    (s : WeeklyStats) :
  items <> [] ->
  Forall (fun e => 0 <= pr_score e <= 100)%R items ->
  week_stats args (k, items) = Ok s ->
  (exists v, median_score s = Some v /\ (0 <= v <= 100)%R)
  /\ (exists v, p25_score s = Some v /\ (0 <= v <= 100)%R)
  /\ (exists v, p75_score s = Some v /\ (0 <= v <= 100)%R)
  /\ (0 <= pct_below_threshold s <= 1)%R
  /\ (0 <= ci_fail_rate s <= 1)%R
  /\ (exists v, median_size s = Some v)
  /\ (exists v, median_review_rounds s = Some v).
Proof.
  intros Hne Hscores. unfold week_stats.
  assert (Hmap : forall (f : ScoredPR -> R), map f items <> []).
  { intros f. destruct items; [contradiction | discriminate]. }
  assert (Hin : forall v, In v (map pr_score items) -> (0 <= v <= 100)%R).
  { intros v Hv. apply in_map_iff in Hv. destruct Hv as (e & <- & He).
    rewrite Forall_forall in Hscores. apply Hscores, He. }
  destruct (StatsMore.safe_median_convex _ (Hmap pr_score))
    as (v & a & b & Hv & Ha & Hb & ->).
  destruct (StatsMore.percentile_convex _ 25 (Hmap pr_score))
    as (v25 & a25 & b25 & t25 & Hv25 & Ha25 & Hb25 & Ht25 & ->); [lra |].
  destruct (StatsMore.percentile_convex _ 75 (Hmap pr_score))
    as (v75 & a75 & b75 & t75 & Hv75 & Ha75 & Hb75 & Ht75 & ->); [lra |].
  destruct (StatsMore.safe_median_convex _ (Hmap (fun pr => IZR (pr_size pr))))
    as (vs & _ & _ & Hvs & _).
  destruct (StatsMore.safe_median_convex _
              (Hmap (fun pr => IZR (pr_review_rounds pr))))
    as (vr & _ & _ & Hvr & _).
  rewrite Hv, Hv25, Hv75, Hvs, Hvr. cbn [bind].
  destruct (StatsFacts.safe_median_defined (keep_some pr_churn_ratio items))
    as (mc & Hmc & _).
  rewrite Hmc. cbn [bind]. intros H. injection H as <-. cbn.
  pose proof (Hin a Ha). pose proof (Hin b Hb).
  pose proof (Hin a25 Ha25). pose proof (Hin b25 Hb25).
  pose proof (Hin a75 Ha75). pose proof (Hin b75 Hb75).
  split; [eexists; split; [reflexivity | lra] |].
  split; [eexists; split; [reflexivity | split; nra] |].
  split; [eexists; split; [reflexivity | split; nra] |].
  split; [apply rate_bounds, Hne |].
  split; [apply rate_bounds, Hne |].
  split; eexists; reflexivity.
Qed.

Lemma main_loop_scores (args : Args) (since : Datetime.datetime)
    (merged_prs : list RawPR) (processed : list ScoredPR)
    (buckets : list (string * list ScoredPR)) :
  main_loop args since merged_prs [] [] = Ok (processed, buckets) ->
  Forall2 (fun pr e => process_pr args pr = Ok e) merged_prs processed.
Proof.
  intros Hloop.
  destruct (main_loop_processed _ _ _ _ _ _ _ Hloop) as (entries & Hmap & ->).
  simpl. apply map_r_forall2, Hmap.
Qed.

(** X20: every week of the payload of a run has a median, a 25th and a 75th
    percentile of the score, all within 0 and 100, a rate of PRs below the
    threshold and a rate of CI failures within 0 and 1, and a median size
    and a median number of review rounds: no bucket is empty. *)
Theorem weekly_stats_ranges (args : Args) (raw_prs : list RawPR) (w : World)
    (p : Payload) :
  run args raw_prs w = Ok p ->
  Forall
    (fun s =>
       (exists v, median_score s = Some v /\ (0 <= v <= 100)%R)
       /\ (exists v, p25_score s = Some v /\ (0 <= v <= 100)%R)
       /\ (exists v, p75_score s = Some v /\ (0 <= v <= 100)%R)
       /\ (0 <= pct_below_threshold s <= 1)%R
       /\ (0 <= ci_fail_rate s <= 1)%R
       /\ (exists v, median_size s = Some v)
       /\ (exists v, median_review_rounds s = Some v))
    (weekly p).
Proof.
  intros Hrun.
  destruct (run_inversion _ _ _ _ Hrun)
    as (adoption & since & processed & buckets & _ & _ & Hloop & Hstats & _).
  pose proof (main_loop_inv _ _ _ _ _ _ _ (bucket_inv_nil since) Hloop)
    as (_ & Hitems & _).
  pose proof (main_loop_scores _ _ _ _ _ Hloop) as Hentries.
  assert (Hscore : forall e, In e processed -> (0 <= pr_score e <= 100)%R).
  { clear -Hentries. induction Hentries as [| pr e prs es Hpe _ IH];
      intros e' He'; [destruct He' |].
    destruct He' as [<- | He']; [| apply IH, He'].
    apply (process_pr_entry _ _ _ Hpe). }
  apply map_r_forall2 in Hstats.
  set (sorted_buckets :=
         sort_by (fun a b : string * list ScoredPR => String.leb (fst a) (fst b))
           buckets) in *.
  assert (Hb : forall b, In b sorted_buckets -> In b buckets).
  { intros b. apply Permutation_in, Permutation_sym, StatsFacts.sort_by_perm. }
  clearbody sorted_buckets.
  induction Hstats as [| [k items] s bs ss Hs _ IH]; constructor.
  - destruct (Hitems k items (Hb _ (or_introl eq_refl))) as [Hne Hall].
    apply (week_stats_ranges args k items s Hne); [| exact Hs].
    rewrite Forall_forall. intros e He. apply Hscore, (Hall e He).
  - apply IH. intros b Hin. apply Hb. right; exact Hin.
Qed.

Lemma weekly_stats_ranges_witness :
  exists p,
    run default_args [good_pr] (ticking (noon 2024 3 1)) = Ok p
    /\ Forall (fun s => (0 <= ci_fail_rate s <= 1)%R) (weekly p).
Proof.
  destruct run_good_pr_returns as [p Hp]. exists p. split; [exact Hp |].
  eapply Forall_impl;
    [| exact (weekly_stats_ranges default_args [good_pr]
                (ticking (noon 2024 3 1)) p Hp)].
  intros s (_ & _ & _ & _ & Hrate & _). exact Hrate.
Defined.

(** X21: the [prs] of the payload of a run are the selected PRs, one entry
    each and in the order of the selection: the entry has the number, the
    author, the additions and the deletions of its PR, their sum as size,
    the count of its reviews that request changes, the parsed [merged_at]
    of the PR details, and a score within 0 and 100. *)
Theorem payload_prs_follow_selection (args : Args) (raw_prs : list RawPR)
    (w : World) (p : Payload) :
  run args raw_prs w = Ok p ->
  Forall2
    (fun pr e =>
       pr_number e = raw_number pr
       /\ pr_author e = author_of pr
       /\ pr_size e = pr_additions e + pr_deletions e
       /\ pr_additions e = raw_additions pr
       /\ pr_deletions e = raw_deletions pr
       /\ pr_review_rounds e = Extract.compute_review_rounds (raw_reviews pr)
       /\ parse_iso8601 (raw_merged_at pr) = Ok (pr_merged_at e)
       /\ (0 <= pr_score e <= 100)%R)
    (select_prs args raw_prs) (prs p).
Proof.
  intros Hrun.
  destruct (run_inversion _ _ _ _ Hrun)
    as (adoption & since & processed & buckets & _ & _ & Hloop & _ & _ & -> & _).
  pose proof (main_loop_scores _ _ _ _ _ Hloop) as Hentries.
  eapply Forall2_impl; [| exact Hentries]. intros pr e Hpe.
  destruct (process_pr_entry _ _ _ Hpe)
    as (H1 & H2 & H3 & H4 & H5 & H6 & H7 & H8 & H9 & H10 & H11 & H12).
  repeat split; try assumption; try apply H12. congruence.
Qed.

Lemma payload_prs_follow_selection_witness :
  exists p,
    run default_args [good_pr] (ticking (noon 2024 3 1)) = Ok p
    /\ List.length (prs p) = 1%nat.
Proof.
  destruct run_good_pr_returns as [p Hp]. exists p. split; [exact Hp |].
  pose proof (payload_prs_follow_selection default_args [good_pr]
                (ticking (noon 2024 3 1)) p Hp) as Hentries.
  apply Forall2_length in Hentries. rewrite <- Hentries.
  vm_compute. reflexivity.
Defined.

(** *** A run on well-formed data returns *)

Lemma first_review_time_defined (reviews : list Extract.RawReview)
    (author : string) :
  Forall (Extract.well_submitted author) reviews ->
  exists res,
    Extract.compute_first_review_time reviews author = Ok res
    /\ forall d, res = Some d -> aware d.
Proof.
  intros Hwf. unfold Extract.compute_first_review_time.
  destruct (ExtractMore.first_review_loop_times reviews author Hwf [])
    as (ts & Hloop & Haw & _).
  rewrite Hloop. simpl. destruct ts as [| t rest].
  - exists None. split; [reflexivity | discriminate].
  - inversion Haw as [| ? ? Ht Hrest]; subst.
    destruct (ExtractMore.min_from_aware rest t Ht Hrest) as (m & Hm & Hma & _).
    rewrite Hm. simpl. exists (Some m). split; [reflexivity |].
    intros d Hd. injection Hd as <-. exact Hma.
Qed.

Lemma churn_ratio_defined (commits : list Extract.RawCommit)
    (frt : option Datetime.datetime) (cap : Z) :
  (forall d, frt = Some d -> aware d) ->
  Forall well_formed_commit_data (Extract.examined commits cap) ->
  exists churn, Extract.compute_churn_ratio commits frt cap = Ok churn.
Proof.
  intros Hfrt Hwf. unfold Extract.compute_churn_ratio.
  destruct commits as [| c t]; [eexists; reflexivity |].
  assert (Hwf' : Forall (Extract.well_formed_commit frt)
                   (Extract.examined (c :: t) cap)).
  { eapply Forall_impl; [| exact Hwf].
    intros c0 [Hst (t0 & Hp & Haw)]. split; [exact Hst |].
    exists t0. split; [exact Hp |].
    unfold Extract.comparable. destruct frt as [f |]; [| exact I].
    destruct t0 as [ct |]; [| exact I].
    specialize (Hfrt f eq_refl). specialize (Haw ct eq_refl).
    unfold aware in *. split; intros H; contradiction. }
  destruct (ExtractFacts.churn_loop_totals _ frt 0 0 Hwf')
    as (total & after & Hloop & _); [lia |].
  rewrite Hloop. simpl. destruct (total =? 0); eexists; reflexivity.
Qed.

Lemma hours_between_defined (later earlier : option Datetime.datetime) :
  (forall d, later = Some d -> aware d) ->
  (forall d, earlier = Some d -> aware d) ->
  exists h, hours_between later earlier = Ok h.
Proof.
  intros Hl He. unfold hours_between.
  destruct earlier as [e |]; [| eexists; reflexivity].
  destruct later as [l |]; [| eexists; reflexivity].
  specialize (Hl l eq_refl). specialize (He e eq_refl).
  unfold aware in *. unfold Datetime.sub.
  destruct (Datetime.utcoffset l); [| contradiction].
  destruct (Datetime.utcoffset e); [| contradiction].
  eexists. reflexivity.
Qed.

Lemma process_pr_defined (args : Args) (pr : RawPR) :
  well_formed_pr args pr ->
  exists entry,
    process_pr args pr = Ok entry
    /\ forall m, pr_merged_at entry = Some m -> aware m.
Proof.
  intros [Hsize Hrev Hcom (merged & Hmerged & Hma) (created & Hcreated & Hca)].
  unfold process_pr. fold (author_of pr).
  destruct (first_review_time_defined _ _ Hrev) as (frt & Hfrt & Hfa).
  rewrite Hfrt. cbn [bind].
  destruct (churn_ratio_defined _ frt _ Hfa Hcom) as (churn & Hchurn).
  rewrite Hchurn. cbn [bind]. rewrite Hmerged, Hcreated. cbn [bind].
  destruct (hours_between_defined frt created Hfa Hca) as (tfr & Htfr).
  destruct (hours_between_defined merged created Hma Hca) as (ttm & Httm).
  rewrite Htfr, Httm. cbn [bind].
  rewrite ScoringFacts.score_pr_defined by exact Hsize.
  cbn [bind fst]. eexists. split; [reflexivity |]. cbn. exact Hma.
Qed.

Lemma main_loop_defined (args : Args) (since : Datetime.datetime)
    (merged_prs : list RawPR) :
  aware since -> Forall (well_formed_pr args) merged_prs ->
  forall processed buckets,
    exists processed' buckets',
      main_loop args since merged_prs processed buckets
      = Ok (processed', buckets').
Proof.
  intros Hsince Hwf.
  induction Hwf as [| pr rest Hpr _ IH]; intros processed buckets; simpl.
  - eexists. eexists. reflexivity.
  - destruct (process_pr_defined args pr Hpr) as (entry & Hentry & Hma).
    rewrite Hentry. cbn [bind].
    destruct (pr_merged_at entry) as [m |]; cbn [bind]; [| apply IH].
    specialize (Hma m eq_refl). unfold aware in *.
    unfold Datetime.ge, Datetime.compare.
    destruct (Datetime.utcoffset m); [| contradiction].
    destruct (Datetime.utcoffset since); [| contradiction].
    cbn [bind]. apply IH.
Qed.

Lemma percentile_defined (values : list R) (pct : R) :
  (0 <= pct <= 100)%R -> exists v, Stats.percentile values pct = Ok v.
Proof.
  intros Hpct. destruct values as [| x t]; [eexists; reflexivity |].
  destruct (StatsMore.percentile_convex (x :: t) pct) as (v & _ & _ & _ & Hv & _);
    [discriminate | exact Hpct |].
  eexists. exact Hv.
Qed.

Lemma week_stats_defined (args : Args) (bucket : string * list ScoredPR) :
  exists stats, week_stats args bucket = Ok stats.
Proof.
  destruct bucket as [k items]. unfold week_stats.
  destruct (StatsFacts.safe_median_defined (map pr_score items)) as (m1 & H1 & _).
  destruct (percentile_defined (map pr_score items) 25) as (p25 & H25); [lra |].
  destruct (percentile_defined (map pr_score items) 75) as (p75 & H75); [lra |].
  destruct (StatsFacts.safe_median_defined (keep_some pr_churn_ratio items))
    as (m2 & H2 & _).
  destruct (StatsFacts.safe_median_defined
              (map (fun pr => IZR (pr_size pr)) items)) as (m3 & H3 & _).
  destruct (StatsFacts.safe_median_defined
              (map (fun pr => IZR (pr_review_rounds pr)) items)) as (m4 & H4 & _).
  rewrite H1, H25, H75, H2, H3, H4. cbn [bind]. eexists. reflexivity.
Qed.

Lemma map_r_defined {A B : Type} (f : A -> result B) (l : list A) :
  (forall x, exists y, f x = Ok y) -> exists out, map_r f l = Ok out.
Proof.
  intros Hf. induction l as [| x l [out IH]]; simpl; [eexists; reflexivity |].
  destruct (Hf x) as [y Hy]. rewrite Hy, IH. cbn [bind]. eexists. reflexivity.
Qed.

Lemma sub_delta_aware (a since : Datetime.datetime) (delta : Z) :
  aware a -> Datetime.sub_delta a delta = Ok since -> aware since.
Proof.
  unfold Datetime.sub_delta, aware.
  destruct (Datetime.in_range _); [| discriminate].
  intros Ha H. injection H as <-. exact Ha.
Qed.

(** X22: on well-formed data a run returns a payload: when the adoption
    date is absent or parses to an aware value, the lookback stays within
    the range of [timedelta] and of the calendar, and every selected PR has
    a size of 0 or more and timestamps that are absent or parse to aware
    values, [main] raises nothing up to the payload, which has one entry
    for each selected PR and four delta records. *)
Theorem run_returns (args : Args) (raw_prs : list RawPR) (w : World) :
  parses_aware (adoption_date args) ->
  lookback_in_range args w ->
  Forall (well_formed_pr args) (select_prs args raw_prs) ->
  exists p,
    run args raw_prs w = Ok p
    /\ List.length (prs p) = List.length (select_prs args raw_prs)
    /\ List.length (deltas p) = 4%nat.
Proof.
  intros (adoption & Hadoption & Haa) [Hmonths Hrange] Hwf.
  assert (Hrun : exists p, run args raw_prs w = Ok p).
  { unfold run, main. rewrite Hadoption. cbn [bind now_utc].
    unfold Datetime.timedelta_days.
    replace ((-999999999 <=? 30 * months args) && (30 * months args <=? 999999999))
      with true
      by (symmetry; apply andb_true_iff; split; apply Z.leb_le; lia).
    cbn [bind]. unfold Datetime.sub_delta at 1.
    cbn [Datetime.wall Datetime.utcoffset]. rewrite Hrange. cbn [bind].
    set (since := Datetime.mkDatetime _ (Some 0)).
    assert (Hsince : aware since) by (unfold aware; simpl; discriminate).
    destruct (main_loop_defined args since _ Hsince Hwf [] [])
      as (processed & buckets & Hloop).
    rewrite Hloop. cbn [bind].
    destruct (map_r_defined (week_stats args)
                (sort_by (fun a b => String.leb (fst a) (fst b)) buckets)
                (week_stats_defined args)) as (stats & Hstats).
    rewrite Hstats. cbn [bind].
    assert (Hd : exists ds, build_deltas processed adoption = Ok ds).
    { destruct adoption as [a |]; [| eexists; reflexivity].
      destruct (build_deltas_same_kind processed a)
        as (b1 & b2 & b3 & b4 & a1 & a2 & a3 & a4 & _ & _ & H);
        [| eexists; exact H].
      pose proof (main_loop_scores _ _ _ _ _ Hloop) as Hentries.
      specialize (Haa a eq_refl).
      clear -Hentries Hwf Haa.
      induction Hentries as [| pr e prs es Hpe _ IH]; constructor.
      - inversion Hwf as [| ? ? Hpr _]; subst.
        destruct (process_pr_defined args pr Hpr) as (e' & He' & Hma).
        rewrite Hpe in He'. injection He' as <-.
        unfold merged_same_kind, same_kind.
        destruct (pr_merged_at e) as [m |]; [| exact I].
        specialize (Hma m eq_refl). unfold aware in *.
        split; intros H; contradiction.
      - apply IH. inversion Hwf; assumption. }
    destruct Hd as [ds Hd]. rewrite Hd. cbn [bind]. eexists. reflexivity. }
  destruct Hrun as [p Hrun]. exists p. split; [exact Hrun |].
  destruct (run_inversion _ _ _ _ Hrun)
    as (ad & since & processed & buckets & _ & _ & Hloop & _ & Hd & -> & _).
  split.
  - pose proof (main_loop_scores _ _ _ _ _ Hloop) as Hentries.
    symmetry. eapply Forall2_length, Hentries.
  - pose proof (DeltasMore.build_deltas_labels _ _ _ Hd) as Hl.
    apply (f_equal (@List.length _)) in Hl. rewrite length_map in Hl. exact Hl.
Qed.

Lemma run_returns_witness :
  exists p,
    run default_args [good_pr] (ticking (noon 2024 3 1)) = Ok p
    /\ List.length (prs p) = List.length (select_prs default_args [good_pr])
    /\ List.length (deltas p) = 4%nat.
Proof.
  apply run_returns.
  - exists None. split; [reflexivity | discriminate].
  - split; [vm_compute; split; discriminate | vm_compute; reflexivity].
  - replace (select_prs default_args [good_pr]) with [good_pr]
      by (vm_compute; reflexivity).
    apply Forall_cons; [| apply Forall_nil].
    constructor.
    + vm_compute. discriminate.
    + apply Forall_nil.
    + apply Forall_nil.
    + eexists. split; [vm_compute; reflexivity |].
      intros d Hd. injection Hd as <-. discriminate.
    + eexists. split; [vm_compute; reflexivity |].
      intros d Hd. injection Hd as <-. discriminate.
Defined.

End EngineMore.

(** ** The payload as JSON *)

Module RenderMore.
Import Deltas Engine EngineMore Render.

Lemma all_serializable (l : list pyvalue) :
  (fix all (l : list pyvalue) : bool :=
     match l with
     | [] => true
     | x :: l' => serializable x && all l'
     end) l = forallb serializable l.
Proof. induction l as [| x l IH]; simpl; [reflexivity | rewrite IH; reflexivity]. Qed.

Lemma opt_serializable {A : Type} (f : A -> pyvalue) (x : option A) :
  (forall a, serializable (f a) = true) -> serializable (opt f x) = true.
Proof. intros H. destruct x; simpl; [apply H | reflexivity]. Qed.

Lemma pr_entry_serializable (e : ScoredPR) :
  serializable (pr_entry_value e)
  = match pr_merged_at e with Some _ => false | None => true end.
Proof.
  unfold pr_entry_value. cbn [serializable].
  rewrite !opt_serializable by reflexivity. cbn [andb].
  destruct (pr_merged_at e); reflexivity.
Qed.

Lemma weekly_serializable (s : WeeklyStats) :
  serializable (weekly_value s) = true.
Proof.
  unfold weekly_value. cbn [serializable].
  rewrite !opt_serializable by reflexivity. reflexivity.
Qed.

Lemma delta_serializable (d : DeltaRecord) :
  serializable (delta_value d) = true.
Proof.
  unfold delta_value. cbn [serializable].
  rewrite !opt_serializable by reflexivity. reflexivity.
Qed.

Lemma payload_serializable (p : Payload) :
  serializable (payload_value p)
  = forallb (fun e => match pr_merged_at e with Some _ => false | None => true end)
      (prs p).
Proof.
  unfold payload_value. cbn [serializable].
  rewrite (opt_serializable PStr) by reflexivity. cbn [andb].
  rewrite (all_serializable (map pr_entry_value (prs p))),
    (all_serializable (map weekly_value (weekly p))),
    (all_serializable (map delta_value (deltas p))).
  assert (Hw : forallb serializable (map weekly_value (weekly p)) = true).
  { apply forallb_forall. intros v Hv. apply in_map_iff in Hv.
    destruct Hv as (s & <- & _). apply weekly_serializable. }
  assert (Hd : forallb serializable (map delta_value (deltas p)) = true).
  { apply forallb_forall. intros v Hv. apply in_map_iff in Hv.
    destruct Hv as (s & <- & _). apply delta_serializable. }
  rewrite Hw, Hd, !andb_true_r.
  induction (prs p) as [| e l IH]; simpl; [reflexivity |].
  rewrite IH. f_equal. apply pr_entry_serializable.
Qed.

Lemma json_dumps_raises (p : Payload) :
  Exists (fun e => pr_merged_at e <> None) (prs p) ->
  json_dumps (payload_value p) = Raise TypeError.
Proof.
  unfold json_dumps. rewrite payload_serializable.
  intros Hex.
  replace (forallb _ (prs p)) with false; [reflexivity |].
  symmetry. apply not_true_is_false. intros Hall.
  rewrite forallb_forall in Hall. apply Exists_exists in Hex.
  destruct Hex as (e & He & Hm). specialize (Hall e He).
  destruct (pr_merged_at e); [discriminate | contradiction].
Qed.

Lemma json_dumps_returns (p : Payload) :
  Forall (fun e => pr_merged_at e = None) (prs p) ->
  json_dumps (payload_value p) = Ok (Encoded (payload_value p)).
Proof.
  unfold json_dumps. rewrite payload_serializable.
  intros Hall.
  replace (forallb _ (prs p)) with true; [reflexivity |].
  symmetry. apply forallb_forall. intros e He.
  rewrite Forall_forall in Hall. rewrite (Hall e He). reflexivity.
Qed.

(** X23: the payload that [main] builds is not what [json.dumps] encodes:
    each PR entry holds under [merged_at] the parsed [datetime], which the
    encoder of [json] does not know.  [json.dumps(payload)] returns the text
    exactly when no PR entry has a [merged_at], and raises [TypeError] as
    soon as one has; every other part of the payload, the weeks and the
    deltas included, is encoded. *)
Theorem payload_json_dumps (p : Payload) :
  (Forall (fun e => pr_merged_at e = None) (prs p) ->
   json_dumps (payload_value p) = Ok (Encoded (payload_value p)))
  /\ (Exists (fun e => pr_merged_at e <> None) (prs p) ->
      json_dumps (payload_value p) = Raise TypeError)
  /\ ((exists text, json_dumps (payload_value p) = Ok text)
      <-> Forall (fun e => pr_merged_at e = None) (prs p)).
Proof.
  assert (Hcases : Forall (fun e => pr_merged_at e = None) (prs p)
                   \/ Exists (fun e => pr_merged_at e <> None) (prs p)).
  { induction (prs p) as [| e l IH]; [left; constructor |].
    destruct (pr_merged_at e) as [d |] eqn:Hm.
    - right. apply Exists_cons_hd. congruence.
    - destruct IH as [IH | IH]; [left; constructor; assumption |].
      right. apply Exists_cons_tl. exact IH. }
  split; [apply json_dumps_returns |].
  split; [apply json_dumps_raises |].
  split.
  - intros [text Htext]. destruct Hcases as [Hall | Hex]; [exact Hall |].
    rewrite (json_dumps_raises p Hex) in Htext. discriminate.
  - intros Hall. eexists. apply json_dumps_returns. exact Hall.
Qed.

Lemma parse_truthy (v : option string) (t : option Datetime.datetime) :
  truthy v = true -> parse_iso8601 v = Ok t -> t <> None.
Proof.
  destruct v as [[| c s] |]; try discriminate. intros _. simpl.
  destruct (Datetime.fromisoformat _); [| discriminate].
  cbn [bind]. intros H. injection H as <-. discriminate.
Qed.

Lemma Forall2_Exists {A B : Type} (R : A -> B -> Prop) (P : A -> Prop)
    (Q : B -> Prop) (l : list A) (l' : list B) :
  (forall x y, R x y -> P x -> Q y) ->
  Forall2 R l l' -> Exists P l -> Exists Q l'.
Proof.
  intros HPQ HR. induction HR as [| x y l l' Hxy _ IH]; intros Hex.
  - inversion Hex.
  - inversion Hex as [? ? Hx | ? ? Hl]; subst.
    + apply Exists_cons_hd. exact (HPQ x y Hxy Hx).
    + apply Exists_cons_tl. exact (IH Hl).
Qed.

Lemma run_keeps_merged_at (args : Args) (raw_prs : list RawPR) (w : World)
    (p : Payload) :
  run args raw_prs w = Ok p ->
  Exists (fun pr => truthy (raw_merged_at pr) = true)
    (select_prs args raw_prs) ->
  Exists (fun e => pr_merged_at e <> None) (prs p).
Proof.
  intros Hrun.
  destruct (run_inversion _ _ _ _ Hrun)
    as (adoption & since & processed & buckets & _ & _ & Hloop & _ & _ & -> & _).
  apply (Forall2_Exists (fun pr e => process_pr args pr = Ok e));
    [| exact (main_loop_scores _ _ _ _ _ Hloop)].
  intros pr e Hpe Ht.
  destruct (process_pr_entry _ _ _ Hpe)
    as (_ & _ & _ & _ & _ & _ & _ & _ & _ & _ & Hm & _).
  exact (parse_truthy _ _ Ht Hm).
Qed.

Lemma parse_falsy (v : option string) :
  truthy v = false -> parse_iso8601 v = Ok None.
Proof. destruct v as [[| c s] |]; [reflexivity | discriminate | reflexivity]. Qed.

(** X24: a run with a merged PR returns a payload that [json.dumps]
    refuses: when the run returns and the details of some selected PR carry
    a [merged_at], as those of every merged PR of the API do,
    [json.dumps(payload)] raises [TypeError]; when no selected PR carries
    one, the payload is encoded. *)
Theorem run_payload_json_dumps (args : Args) (raw_prs : list RawPR)
    (w : World) (p : Payload) :
  run args raw_prs w = Ok p ->
  (Exists (fun pr => truthy (raw_merged_at pr) = true)
     (select_prs args raw_prs) ->
   json_dumps (payload_value p) = Raise TypeError)
  /\ (Forall (fun pr => truthy (raw_merged_at pr) = false)
        (select_prs args raw_prs) ->
      json_dumps (payload_value p) = Ok (Encoded (payload_value p))).
Proof.
  intros Hrun. split.
  - intros Hex. apply json_dumps_raises.
    exact (run_keeps_merged_at _ _ _ _ Hrun Hex).
  - intros Hall. apply json_dumps_returns.
    destruct (run_inversion _ _ _ _ Hrun)
      as (adoption & since & processed & buckets & _ & _ & Hloop & _ & _ & ->
          & _).
    pose proof (main_loop_scores _ _ _ _ _ Hloop) as Hentries.
    clear Hloop Hrun.
    induction Hentries as [| pr e l l' Hpe _ IH]; constructor.
    + destruct (process_pr_entry _ _ _ Hpe)
        as (_ & _ & _ & _ & _ & _ & _ & _ & _ & _ & Hm & _).
      inversion Hall as [| ? ? Ht _]; subst.
      rewrite (parse_falsy _ Ht) in Hm. congruence.
    + apply IH. inversion Hall; assumption.
Qed.

Lemma run_payload_json_dumps_witness :
  exists p,
    run default_args [good_pr] (ticking (noon 2024 3 1)) = Ok p
    /\ json_dumps (payload_value p) = Raise TypeError.
Proof.
  destruct run_good_pr_returns as [p Hp]. exists p. split; [exact Hp |].
  apply (run_payload_json_dumps default_args [good_pr]
           (ticking (noon 2024 3 1)) p Hp).
  vm_compute. apply Exists_cons_hd. reflexivity.
Defined.

End RenderMore.

(** ** The timestamp texts *)

Module ParseMore.
Import Datetime Timestamps.

Lemma digit_cases (d : Z) :
  0 <= d <= 9 ->
  d = 0 \/ d = 1 \/ d = 2 \/ d = 3 \/ d = 4 \/ d = 5 \/ d = 6 \/ d = 7
  \/ d = 8 \/ d = 9.
Proof. lia. Qed.

Ltac each_digit H :=
  apply digit_cases in H;
  repeat (destruct H as [H | H]); subst.

Lemma digit_digit_char (d : Z) : 0 <= d <= 9 -> digit (digit_char d) = Some d.
Proof. intros H. each_digit H; reflexivity. Qed.

Lemma digit_char_plain (d : Z) :
  0 <= d <= 9 ->
  Ascii.eqb (digit_char d) "Z" = false
  /\ Ascii.eqb (digit_char d) "+" = false
  /\ Ascii.eqb (digit_char d) "-" = false.
Proof. intros H. each_digit H; repeat split; reflexivity. Qed.

Lemma two_digits_range (n : Z) :
  0 <= n < 100 -> 0 <= n / 10 <= 9 /\ 0 <= n mod 10 <= 9.
Proof.
  intros H. split.
  - split; [apply Z.div_pos; lia |].
    assert (n / 10 < 10) by (apply Z.div_lt_upper_bound; lia). lia.
  - pose proof (Z.mod_pos_bound n 10). lia.
Qed.

Lemma digits_two (n acc : Z) (rest : string) :
  0 <= n < 100 ->
  digits 2 (two_digits n ++ rest) acc = Some (100 * acc + n, rest).
Proof.
  intros H. destruct (two_digits_range n H) as [Hq Hr].
  unfold two_digits. cbn [digits append].
  rewrite (digit_digit_char _ Hq), (digit_digit_char _ Hr).
  f_equal. f_equal. pose proof (Z.div_mod n 10). lia.
Qed.

Lemma replace_Z_two (n : Z) (rest : string) :
  0 <= n < 100 ->
  replace_Z (two_digits n ++ rest) = two_digits n ++ replace_Z rest.
Proof.
  intros H. destruct (two_digits_range n H) as [Hq Hr].
  unfold two_digits. cbn [replace_Z append].
  rewrite (proj1 (digit_char_plain _ Hq)), (proj1 (digit_char_plain _ Hr)).
  reflexivity.
Qed.

Lemma split_tz_two (n : Z) (rest : string) :
  0 <= n < 100 ->
  split_tz (two_digits n ++ rest)
  = let '(t, tz) := split_tz rest in (two_digits n ++ t, tz).
Proof.
  intros H. destruct (two_digits_range n H) as [Hq Hr].
  unfold two_digits. cbn [split_tz append].
  destruct (digit_char_plain _ Hq) as (_ & Hq1 & Hq2).
  destruct (digit_char_plain _ Hr) as (_ & Hr1 & Hr2).
  rewrite Hq1, Hq2, Hr1, Hr2. destruct (split_tz rest). reflexivity.
Qed.

Lemma year_parts (year : Z) :
  1 <= year <= 9999 -> 0 <= year / 100 < 100 /\ 0 <= year mod 100 < 100.
Proof.
  intros H. split.
  - split; [apply Z.div_pos; lia | apply Z.div_lt_upper_bound; lia].
  - apply Z.mod_pos_bound. lia.
Qed.

Lemma replace_Z_utc_timestamp (year month day h mi s : Z) :
  1 <= year <= 9999 -> 0 <= month < 100 -> 0 <= day < 100 ->
  0 <= h < 100 -> 0 <= mi < 100 -> 0 <= s < 100 ->
  replace_Z (utc_timestamp year month day h mi s)
  = two_digits (year / 100) ++ two_digits (year mod 100) ++ "-"
    ++ two_digits month ++ "-" ++ two_digits day ++ "T"
    ++ two_digits h ++ ":" ++ two_digits mi ++ ":" ++ two_digits s
    ++ "+00:00".
Proof.
  intros Hy Hm Hd Hh Hmi Hs. destruct (year_parts year Hy) as [Hy1 Hy2].
  unfold utc_timestamp.
  rewrite (replace_Z_two _ _ Hy1), (replace_Z_two _ _ Hy2).
  change (replace_Z ("-" ++ ?x)) with ("-" ++ replace_Z x).
  cbn [append replace_Z Ascii.eqb Bool.eqb].
  rewrite (replace_Z_two _ _ Hm).
  cbn [append replace_Z Ascii.eqb Bool.eqb].
  rewrite (replace_Z_two _ _ Hd).
  cbn [append replace_Z Ascii.eqb Bool.eqb].
  rewrite (replace_Z_two _ _ Hh).
  cbn [append replace_Z Ascii.eqb Bool.eqb].
  rewrite (replace_Z_two _ _ Hmi).
  cbn [append replace_Z Ascii.eqb Bool.eqb].
  rewrite (replace_Z_two _ _ Hs).
  reflexivity.
Qed.

Lemma digits_two_more (k : nat) (n acc : Z) (rest : string) :
  0 <= n < 100 ->
  digits (S (S k)) (two_digits n ++ rest) acc = digits k rest (100 * acc + n).
Proof.
  intros H. destruct (two_digits_range n H) as [Hq Hr].
  unfold two_digits. cbn [digits append].
  rewrite (digit_digit_char _ Hq), (digit_digit_char _ Hr).
  f_equal. pose proof (Z.div_mod n 10). lia.
Qed.

Lemma parse_date_fields (year month day : Z) (rest : string) :
  1 <= year <= 9999 -> 1 <= month <= 12 ->
  1 <= day <= days_in_month year month ->
  parse_date
    (two_digits (year / 100) ++ two_digits (year mod 100) ++ "-"
     ++ two_digits month ++ "-" ++ two_digits day ++ rest)
  = Some (year, month, day, rest).
Proof.
  intros Hy Hm Hd. destruct (year_parts year Hy) as [Hy1 Hy2].
  assert (Hdm : days_in_month year month <= 31).
  { unfold days_in_month. destruct ((month =? 2) && is_leap year); [lia |].
    assert (Hc : month = 1 \/ month = 2 \/ month = 3 \/ month = 4
                 \/ month = 5 \/ month = 6 \/ month = 7 \/ month = 8
                 \/ month = 9 \/ month = 10 \/ month = 11 \/ month = 12)
      by lia.
    repeat (destruct Hc as [Hc | Hc]); subst; simpl; lia. }
  unfold parse_date.
  rewrite digits_two_more by exact Hy1.
  rewrite digits_two by exact Hy2.
  replace (100 * (100 * 0 + year / 100) + year mod 100) with year
    by (pose proof (Z.div_mod year 100); lia).
  cbn [append expect Ascii.eqb Bool.eqb].
  rewrite digits_two by lia.
  cbn [append expect Ascii.eqb Bool.eqb].
  rewrite digits_two by lia.
  replace (100 * 0 + month) with month by lia.
  replace (100 * 0 + day) with day by lia.
  replace ((1 <=? year) && (1 <=? month) && (month <=? 12) && (1 <=? day)
           && (day <=? days_in_month year month)) with true; [reflexivity |].
  symmetry. repeat (apply andb_true_iff; split); apply Z.leb_le; lia.
Qed.

Lemma parse_time_fields (h mi s : Z) :
  0 <= h < 100 -> 0 <= mi < 100 -> 0 <= s < 100 ->
  parse_hh_mm_ss_ff (two_digits h ++ ":" ++ two_digits mi ++ ":" ++ two_digits s)
  = Some (h, mi, s, 0).
Proof.
  intros Hh Hmi Hs. unfold parse_hh_mm_ss_ff.
  rewrite digits_two by exact Hh.
  cbn [append expect Ascii.eqb Bool.eqb].
  rewrite digits_two by exact Hmi.
  cbn [append expect Ascii.eqb Bool.eqb].
  replace (two_digits s) with (two_digits s ++ "")
    by (unfold two_digits; reflexivity).
  rewrite digits_two by exact Hs.
  repeat f_equal; lia.
Qed.

Lemma split_tz_time (h mi s : Z) :
  0 <= h < 100 -> 0 <= mi < 100 -> 0 <= s < 100 ->
  split_tz (two_digits h ++ ":" ++ two_digits mi ++ ":" ++ two_digits s
            ++ "+00:00")
  = (two_digits h ++ ":" ++ two_digits mi ++ ":" ++ two_digits s,
     Some (false, "00:00")).
Proof.
  intros Hh Hmi Hs.
  rewrite split_tz_two by exact Hh.
  cbn [append split_tz Ascii.eqb Bool.eqb].
  rewrite split_tz_two by exact Hmi.
  cbn [append split_tz Ascii.eqb Bool.eqb].
  rewrite split_tz_two by exact Hs.
  cbn [append split_tz Ascii.eqb Bool.eqb].
  unfold two_digits. reflexivity.
Qed.

Lemma parse_utc_timestamp (year month day h mi s : Z) :
  1 <= year <= 9999 -> 1 <= month <= 12 ->
  1 <= day <= days_in_month year month ->
  0 <= h < 24 -> 0 <= mi < 60 -> 0 <= s < 60 ->
  parse_iso8601 (Some (utc_timestamp year month day h mi s))
  = Ok (Some (of_fields year month day h mi s 0 (Some 0))).
Proof.
  intros Hy Hm Hd Hh Hmi Hs.
  assert (Hne : exists c r, utc_timestamp year month day h mi s = String c r).
  { unfold utc_timestamp, two_digits. cbn [append]. eexists. eexists.
    reflexivity. }
  destruct Hne as (c & r & Hne). unfold parse_iso8601.
  rewrite Hne, <- Hne. clear c r Hne.
  assert (Hdm : day < 100).
  { unfold days_in_month in Hd. destruct ((month =? 2) && is_leap year); [lia |].
    assert (Hc : month = 1 \/ month = 2 \/ month = 3 \/ month = 4
                 \/ month = 5 \/ month = 6 \/ month = 7 \/ month = 8
                 \/ month = 9 \/ month = 10 \/ month = 11 \/ month = 12)
      by lia.
    repeat (destruct Hc as [Hc | Hc]); subst; simpl in Hd; lia. }
  rewrite replace_Z_utc_timestamp by lia.
  unfold fromisoformat.
  rewrite (parse_date_fields year month day _ Hy Hm Hd).
  cbn [append].
  pose proof (split_tz_time h mi s) as Hsplit.
  pose proof (parse_time_fields h mi s) as Htime.
  cbn [append] in Hsplit, Htime.
  rewrite Hsplit, Htime by lia.
  replace ((h <? 24) && (mi <? 60) && (s <? 60)) with true
    by (symmetry; repeat (apply andb_true_iff; split); apply Z.ltb_lt; lia).
  reflexivity.
Qed.

Lemma parse_date_text (year month day : Z) :
  1 <= year <= 9999 -> 1 <= month <= 12 ->
  1 <= day <= days_in_month year month ->
  parse_iso8601 (Some (date_text year month day))
  = Ok (Some (of_fields year month day 0 0 0 0 None)).
Proof.
  intros Hy Hm Hd.
  pose proof (parse_date_fields year month day "" Hy Hm Hd) as Hdate.
  assert (Htext : date_text year month day
                  = two_digits (year / 100) ++ two_digits (year mod 100) ++ "-"
                    ++ two_digits month ++ "-" ++ two_digits day ++ "")
    by (unfold date_text, two_digits; reflexivity).
  assert (Hday : day < 100).
  { unfold days_in_month in Hd. destruct ((month =? 2) && is_leap year); [lia |].
    assert (Hc : month = 1 \/ month = 2 \/ month = 3 \/ month = 4
                 \/ month = 5 \/ month = 6 \/ month = 7 \/ month = 8
                 \/ month = 9 \/ month = 10 \/ month = 11 \/ month = 12)
      by lia.
    repeat (destruct Hc as [Hc | Hc]); subst; simpl in Hd; lia. }
  assert (Hrep : replace_Z (date_text year month day) = date_text year month day).
  { destruct (year_parts year Hy) as [Hy1 Hy2]. unfold date_text.
    rewrite (replace_Z_two _ _ Hy1), (replace_Z_two _ _ Hy2).
    cbn [append replace_Z Ascii.eqb Bool.eqb].
    rewrite replace_Z_two by lia.
    cbn [append replace_Z Ascii.eqb Bool.eqb].
    replace (two_digits day) with (two_digits day ++ "")
      by (unfold two_digits; reflexivity).
    rewrite replace_Z_two by lia. reflexivity. }
  assert (Hne : exists c r, date_text year month day = String c r).
  { unfold date_text, two_digits. cbn [append]. eexists. eexists.
    reflexivity. }
  destruct Hne as (c & r & Hne). unfold parse_iso8601.
  rewrite Hne, <- Hne. clear c r Hne.
  rewrite Hrep. unfold fromisoformat. rewrite Htext, Hdate. reflexivity.
Qed.

(** X25: what [parse_iso8601] makes of the two texts that [main] meets,
    for a date of the calendar: the text [YYYY-MM-DD] of [--adoption-date]
    parses to the naive midnight of that date, and the text
    [YYYY-MM-DDTHH:MM:SSZ] of the API parses to the aware value of these
    fields at the UTC offset 0. *)
Theorem parse_iso8601_github_texts (year month day : Z) :
  1 <= year <= 9999 -> 1 <= month <= 12 ->
  1 <= day <= days_in_month year month ->
  parse_iso8601 (Some (date_text year month day))
  = Ok (Some (of_fields year month day 0 0 0 0 None))
  /\ forall h mi s,
       0 <= h < 24 -> 0 <= mi < 60 -> 0 <= s < 60 ->
       parse_iso8601 (Some (utc_timestamp year month day h mi s))
       = Ok (Some (of_fields year month day h mi s 0 (Some 0))).
Proof.
  intros Hy Hm Hd. split.
  - apply parse_date_text; assumption.
  - intros h mi s. apply parse_utc_timestamp; assumption.
Qed.

Lemma parse_iso8601_github_texts_witness :
  parse_iso8601 (Some "2024-02-20")
  = Ok (Some (of_fields 2024 2 20 0 0 0 0 None))
  /\ parse_iso8601 (Some "2024-02-20T10:00:00Z")
     = Ok (Some (of_fields 2024 2 20 10 0 0 0 (Some 0))).
Proof.
  assert (Hd : 1 <= 20 <= days_in_month 2024 2)
    by (change (days_in_month 2024 2) with 29; lia).
  destruct (parse_iso8601_github_texts 2024 2 20) as [Hdate Htime];
    [lia | lia | exact Hd |].
  split; [exact Hdate |].
  apply (Htime 10 0 0); lia.
Defined.

End ParseMore.

(** ** The adoption date of a run *)

Module AdoptionMore.
Import PyList Deltas Engine EngineMore.

Lemma run_upto_deltas (args : Args) (raw_prs : list RawPR) (w : World)
    (adoption : option Datetime.datetime) :
  parse_iso8601 (adoption_date args) = Ok adoption ->
  lookback_in_range args w ->
  Forall (well_formed_pr args) (select_prs args raw_prs) ->
  exists processed stats,
    Forall2 (fun pr e => process_pr args pr = Ok e /\ well_formed_pr args pr)
      (select_prs args raw_prs) processed
    /\ run args raw_prs w
       = (ds <- build_deltas processed adoption ;;
          Ok (mkPayload (repo args)
                (Datetime.strftime_minutes
                   (Datetime.mkDatetime (clock w (S (reads w))) (Some 0)))
                (adoption_date args) processed stats (score_threshold args)
                ds)).
Proof.
  intros Hadoption [Hmonths Hrange] Hwf.
  unfold run, main. rewrite Hadoption. cbn [bind now_utc].
  unfold Datetime.timedelta_days.
  replace ((-999999999 <=? 30 * months args) && (30 * months args <=? 999999999))
    with true
    by (symmetry; apply andb_true_iff; split; apply Z.leb_le; lia).
  cbn [bind]. unfold Datetime.sub_delta at 1.
  cbn [Datetime.wall Datetime.utcoffset]. rewrite Hrange. cbn [bind].
  set (since := Datetime.mkDatetime _ (Some 0)).
  assert (Hsince : aware since) by (unfold aware; simpl; discriminate).
  destruct (main_loop_defined args since _ Hsince Hwf [] [])
    as (processed & buckets & Hloop).
  rewrite Hloop. cbn [bind].
  destruct (map_r_defined (week_stats args)
              (sort_by (fun a b => String.leb (fst a) (fst b)) buckets)
              (week_stats_defined args)) as (stats & Hstats).
  rewrite Hstats. cbn [bind clock reads].
  exists processed, stats.
  split; [| destruct (build_deltas processed adoption); reflexivity].
  pose proof (main_loop_scores _ _ _ _ _ Hloop) as Hentries.
  clear -Hentries Hwf.
  induction Hentries as [| pr e prs es Hpe _ IH]; constructor.
  - split; [exact Hpe | inversion Hwf; assumption].
  - apply IH. inversion Hwf; assumption.
Qed.

(** X26: a naive adoption date ends the run: when [--adoption-date] parses
    to a naive value, as the documented [YYYY-MM-DD] does, and the details
    of a selected PR carry a [merged_at] that parses to an aware value, as
    the timestamps of the API do, [main] returns no payload; on data that
    is well-formed otherwise the exception is the [TypeError] of the
    comparison in [build_deltas]. *)
Theorem run_naive_adoption_date (args : Args) (raw_prs : list RawPR)
    (w : World) (adoption : Datetime.datetime) :
  parse_iso8601 (adoption_date args) = Ok (Some adoption) ->
  Datetime.utcoffset adoption = None ->
  Exists
    (fun pr =>
       exists m, parse_iso8601 (raw_merged_at pr) = Ok (Some m) /\ aware m)
    (select_prs args raw_prs) ->
  (exists e, run args raw_prs w = Raise e)
  /\ (lookback_in_range args w ->
      Forall (well_formed_pr args) (select_prs args raw_prs) ->
      run args raw_prs w = Raise TypeError).
Proof.
  intros Hadoption Hnaive Hex.
  assert (Hkind :
            forall pr e,
              process_pr args pr = Ok e ->
              (exists m, parse_iso8601 (raw_merged_at pr) = Ok (Some m)
                         /\ aware m) ->
              ~ merged_same_kind adoption e).
  { intros pr e Hpe (m & Hm & Haware).
    destruct (process_pr_entry _ _ _ Hpe)
      as (_ & _ & _ & _ & _ & _ & _ & _ & _ & _ & Hparse & _).
    rewrite Hm in Hparse. injection Hparse as Hparse.
    unfold merged_same_kind, same_kind. rewrite <- Hparse.
    intros [_ H]. apply Haware, H, Hnaive. }
  split.
  - destruct (run args raw_prs w) as [p | e] eqn:Hrun; [| exists e; reflexivity].
    exfalso.
    destruct (run_inversion _ _ _ _ Hrun)
      as (adoption' & since & processed & buckets & Ha & _ & Hloop & _ & Hd & _).
    rewrite Hadoption in Ha. injection Ha as <-.
    rewrite DeltasFacts.build_deltas_mixed_kinds in Hd; [discriminate |].
    apply (RenderMore.Forall2_Exists
             (fun pr e => process_pr args pr = Ok e)
             (fun pr => exists m, parse_iso8601 (raw_merged_at pr) = Ok (Some m)
                                  /\ aware m)
             _ (select_prs args raw_prs) processed);
      [exact Hkind | exact (main_loop_scores _ _ _ _ _ Hloop) | exact Hex].
  - intros Hlook Hwf.
    destruct (run_upto_deltas _ _ _ _ Hadoption Hlook Hwf)
      as (processed & stats & Hentries & ->).
    rewrite DeltasFacts.build_deltas_mixed_kinds; [reflexivity |].
    apply (RenderMore.Forall2_Exists
             (fun pr e => process_pr args pr = Ok e /\ well_formed_pr args pr)
             (fun pr => exists m, parse_iso8601 (raw_merged_at pr) = Ok (Some m)
                                  /\ aware m)
             _ (select_prs args raw_prs) processed);
      [| exact Hentries | exact Hex].
    intros pr e [Hpe _]. exact (Hkind pr e Hpe).
Qed.

Lemma run_naive_adoption_date_witness :
  run (mkArgs "octo/repo" 50 12 (Some "2024-01-01") 70 20) [good_pr]
    (ticking (noon 2024 3 1))
  = Raise TypeError.
Proof.
  assert (Hsel : select_prs (mkArgs "octo/repo" 50 12 (Some "2024-01-01") 70 20)
                   [good_pr] = [good_pr]) by (vm_compute; reflexivity).
  apply (run_naive_adoption_date _ _ _
           (Datetime.of_fields 2024 1 1 0 0 0 0 None)).
  - vm_compute. reflexivity.
  - reflexivity.
  - rewrite Hsel. apply Exists_cons_hd.
    exists (Datetime.of_fields 2024 2 20 10 0 0 0 (Some 0)).
    split; [vm_compute; reflexivity | discriminate].
  - split; [vm_compute; split; discriminate | vm_compute; reflexivity].
  - rewrite Hsel. apply Forall_cons; [| apply Forall_nil].
    constructor.
    + vm_compute. discriminate.
    + apply Forall_nil.
    + apply Forall_nil.
    + eexists. split; [vm_compute; reflexivity |].
      intros d Hd. injection Hd as <-. discriminate.
    + eexists. split; [vm_compute; reflexivity |].
      intros d Hd. injection Hd as <-. discriminate.
Defined.
End AdoptionMore.

(** ** The API client *)

Module ApiMore.
Import Api.

Lemma find_bound (c : ascii) (s : string) :
  -1 <= find c s < Z.of_nat (String.length s).
Proof.
  induction s as [| c' s IH]; simpl; [lia |].
  destruct (Ascii.eqb c' c); [lia |].
  destruct (find c s <? 0) eqn:H; [lia |]. apply Z.ltb_ge in H. lia.
Qed.

Lemma lacks_cons (c c' : ascii) (s : string) :
  lacks c (String c' s) <-> c' <> c /\ lacks c s.
Proof.
  unfold lacks. simpl. pose proof (find_bound c s) as Hb.
  destruct (Ascii.eqb c' c) eqn:He.
  - apply Ascii.eqb_eq in He. split; [lia | intros [H _]; contradiction].
  - apply Ascii.eqb_neq in He.
    destruct (find c s <? 0) eqn:H.
    + apply Z.ltb_lt in H. split; [intros _; split; [exact He | lia] | reflexivity].
    + apply Z.ltb_ge in H. split; [lia | intros [_ H']; lia].
Qed.

Lemma find_app (c : ascii) (p rest : string) :
  lacks c p -> find c (p ++ String c rest) = Z.of_nat (String.length p).
Proof.
  induction p as [| c' p IH]; intros Hp.
  - simpl. rewrite Ascii.eqb_refl. reflexivity.
  - apply lacks_cons in Hp. destruct Hp as [Hne Hp].
    cbn [append find String.length]. apply Ascii.eqb_neq in Hne. rewrite Hne.
    rewrite (IH Hp).
    destruct (Z.of_nat (String.length p) <? 0) eqn:H;
      [apply Z.ltb_lt in H; lia | lia].
Qed.

Lemma split_not_nil (sep : ascii) (s : string) : split sep s <> [].
Proof.
  destruct s as [| c s]; simpl; [discriminate |].
  destruct (Ascii.eqb c sep); [discriminate |].
  destruct (split sep s); discriminate.
Qed.

Lemma split_app (sep : ascii) (p rest : string) :
  lacks sep p -> split sep (p ++ String sep rest) = p :: split sep rest.
Proof.
  induction p as [| c p IH]; intros Hp.
  - simpl. rewrite Ascii.eqb_refl. reflexivity.
  - apply lacks_cons in Hp. destruct Hp as [Hne Hp].
    cbn [append split]. apply Ascii.eqb_neq in Hne. rewrite Hne.
    rewrite (IH Hp). reflexivity.
Qed.

Lemma split_lacks (sep : ascii) (p : string) :
  lacks sep p -> split sep p = [p].
Proof.
  induction p as [| c p IH]; intros Hp; [reflexivity |].
  apply lacks_cons in Hp. destruct Hp as [Hne Hp].
  cbn [split]. apply Ascii.eqb_neq in Hne. rewrite Hne.
  rewrite (IH Hp). reflexivity.
Qed.

Lemma lacks_app (c : ascii) (p q : string) :
  lacks c (p ++ q) <-> lacks c p /\ lacks c q.
Proof.
  induction p as [| c' p IH]; simpl.
  - split; [intros H; split; [reflexivity | exact H] | intros [_ H]; exact H].
  - rewrite !lacks_cons, IH. tauto.
Qed.

Lemma substring_app (p u q : string) :
  String.substring (String.length p) (String.length u) (p ++ u ++ q) = u.
Proof.
  induction p as [| c p IH]; simpl; [| exact IH].
  induction u as [| c u IHu]; simpl.
  - destruct q; reflexivity.
  - rewrite IHu. reflexivity.
Qed.

Lemma str_length_app (p q : string) :
  String.length (p ++ q) = (String.length p + String.length q)%nat.
Proof. induction p as [| c p IH]; simpl; [reflexivity | rewrite IH; reflexivity]. Qed.

Lemma prefix_app (needle s q : string) :
  String.prefix needle s = true -> String.prefix needle (s ++ q) = true.
Proof.
  revert s. induction needle as [| c n IH]; intros s H;
    [destruct s; [destruct q |]; reflexivity |].
  destruct s as [| c' s]; simpl in *; [discriminate |].
  destruct (ascii_dec c c'); [apply IH, H | discriminate].
Qed.

Lemma contains_app_l (needle p q : string) :
  contains needle p = true -> contains needle (p ++ q) = true.
Proof.
  induction p as [| c p IH]; intros H.
  - simpl in H. rewrite orb_false_r in H.
    destruct needle; [destruct q; reflexivity | discriminate].
  - cbn [contains] in H. apply orb_true_iff in H.
    change (String c p ++ q) with (String c (p ++ q)). cbn [contains].
    apply orb_true_iff. destruct H as [H | H].
    + left. apply (prefix_app needle (String c p) q H).
    + right. apply IH, H.
Qed.

Lemma contains_app_r (needle p q : string) :
  contains needle q = true -> contains needle (p ++ q) = true.
Proof.
  intros H. induction p as [| c p IH]; [exact H |].
  change (String c p ++ q) with (String c (p ++ q)). cbn [contains].
  rewrite IH. apply orb_true_r.
Qed.

Lemma append_assoc (p q r : string) : (p ++ q) ++ r = p ++ q ++ r.
Proof. induction p as [| c p IH]; simpl; [reflexivity | rewrite IH; reflexivity]. Qed.

Lemma slice_app (p u q : string) :
  slice (p ++ u ++ q) (Z.of_nat (String.length p))
    (Z.of_nat (String.length p) + Z.of_nat (String.length u))
  = u.
Proof.
  unfold slice. rewrite !str_length_app.
  replace (Z.of_nat (String.length p) <? 0) with false by (symmetry; apply Z.ltb_ge; lia).
  replace (Z.of_nat (String.length p) + Z.of_nat (String.length u) <? 0)
    with false by (symmetry; apply Z.ltb_ge; lia).
  rewrite !Nat2Z.inj_add.
  rewrite !Z.min_l by lia.
  replace (Z.of_nat (String.length p) + Z.of_nat (String.length u)
           - Z.of_nat (String.length p)) with (Z.of_nat (String.length u)) by lia.
  rewrite !Nat2Z.id. apply substring_app.
Qed.

Lemma first_next_target (ws url params : string) :
  lacks "<" ws -> lacks ">" ws -> lacks ">" url ->
  contains rel_next params = true ->
  first_next [ws ++ "<" ++ url ++ ">" ++ params] = Some url.
Proof.
  intros Hlt Hgt Hurl Hrel. cbn [first_next].
  replace (contains rel_next (ws ++ "<" ++ url ++ ">" ++ params)) with true
    by (symmetry; do 4 apply contains_app_r; exact Hrel).
  f_equal.
  change ("<" ++ url ++ ">" ++ params) with (String "<" (url ++ ">" ++ params)).
  rewrite (find_app "<" ws _ Hlt).
  assert (Hfind : find ">" (ws ++ String "<" (url ++ ">" ++ params))
                  = Z.of_nat (String.length ws) + 1
                    + Z.of_nat (String.length url)).
  { change (ws ++ String "<" (url ++ ">" ++ params))
      with (ws ++ "<" ++ url ++ String ">" params).
    rewrite <- (append_assoc "<" url), <- (append_assoc ws).
    rewrite find_app.
    - rewrite !str_length_app. simpl String.length. lia.
    - apply lacks_app. split; [exact Hgt |].
      apply lacks_app. split; [| exact Hurl].
      apply lacks_cons. split; [discriminate | reflexivity]. }
  rewrite Hfind.
  change (ws ++ String "<" (url ++ ">" ++ params))
    with (ws ++ "<" ++ url ++ ">" ++ params).
  rewrite <- (append_assoc ws "<").
  replace (Z.of_nat (String.length ws) + 1)
    with (Z.of_nat (String.length (ws ++ "<")))
    by (rewrite str_length_app; simpl String.length; lia).
  apply slice_app.
Qed.

Lemma first_next_skip (parts more : list string) :
  Forall (fun p => contains rel_next p = false) parts ->
  first_next (parts ++ more) = first_next more.
Proof.
  induction 1 as [| p parts Hp _ IH]; [reflexivity |].
  simpl. rewrite Hp. exact IH.
Qed.

Lemma first_next_head (part : string) (rest : list string) (url : string) :
  first_next [part] = Some url -> first_next (part :: rest) = Some url.
Proof.
  cbn [first_next]. destruct (contains rel_next part); [trivial | discriminate].
Qed.

Lemma next_link_first_next (l : string) :
  l <> "" -> next_link (Some l) = first_next (split "," l).
Proof. destruct l; [contradiction | reflexivity]. Qed.

(** X27: [_get_page] finds the next page in a well-formed [Link] header:
    when the parts before the one of the next page hold no comma and no
    [rel_next], and that part is some text without comma and angle
    brackets, the URL in angle brackets, and parameters without comma that
    hold [rel_next], the URL being free of commas and of [>], then
    [next_url] is that URL, whatever follows the part. *)
Theorem next_link_header (earlier : list string) (ws url params : string)
    (more : option string) :
  Forall (fun p => lacks "," p /\ contains rel_next p = false) earlier ->
  lacks "," ws -> lacks "<" ws -> lacks ">" ws ->
  lacks "," url -> lacks ">" url ->
  lacks "," params -> contains rel_next params = true ->
  next_link (Some (link_header earlier ws url params more)) = Some url.
Proof.
  intros Hearlier Hws1 Hws2 Hws3 Hurl1 Hurl2 Hpar1 Hpar2.
  set (target := ws ++ "<" ++ url ++ ">" ++ params).
  assert (Htarget : lacks "," target).
  { unfold target. apply lacks_app. split; [exact Hws1 |].
    apply lacks_app. split; [apply lacks_cons; split; [discriminate | reflexivity] |].
    apply lacks_app. split; [exact Hurl1 |].
    apply lacks_app. split; [| exact Hpar1].
    apply lacks_cons; split; [discriminate | reflexivity]. }
  assert (Hlast :
            first_next
              (split ","
                 (ws ++ "<" ++ url ++ ">" ++ params
                  ++ match more with
                     | Some m => "," ++ m
                     | None => ""
                     end)) = Some url).
  { replace (ws ++ "<" ++ url ++ ">" ++ params
             ++ match more with
                | Some m => "," ++ m
                | None => ""
                end)
      with (target ++ match more with
                      | Some m => "," ++ m
                      | None => ""
                      end)
      by (unfold target; rewrite !append_assoc; reflexivity).
    destruct more as [m |].
    - change ("," ++ m) with (String "," m). rewrite (split_app _ _ _ Htarget).
      apply first_next_head, first_next_target; assumption.
    - replace (target ++ "") with target
        by (clear; induction target as [| c t IH]; simpl; [| rewrite <- IH];
            reflexivity).
      rewrite (split_lacks _ _ Htarget).
      apply first_next_target; assumption. }
  rewrite next_link_first_next.
  - unfold link_header. induction Hearlier as [| p ps [Hp1 Hp2] _ IH];
      [exact Hlast |].
    cbn [fold_right]. change ("," ++ ?x) with (String "," x).
    rewrite (split_app _ _ _ Hp1). cbn [first_next]. rewrite Hp2. exact IH.
  - intros Hempty. apply (f_equal String.length) in Hempty.
    revert Hempty. unfold link_header.
    clear. induction earlier as [| p ps IH]; cbn [fold_right].
    + rewrite !str_length_app. simpl. lia.
    + rewrite !str_length_app. simpl. lia.
Qed.

Lemma next_link_header_witness :
  next_link
    (Some
       ("<https://api.github.com/repos/octo/repo/pulls?page=1>; rel=prev,"
        ++ " <https://api.github.com/repos/octo/repo/pulls?page=3>; "
        ++ rel_next
        ++ ", <https://api.github.com/repos/octo/repo/pulls?page=9>; rel=last"))
  = Some "https://api.github.com/repos/octo/repo/pulls?page=3".
Proof.
  apply (next_link_header
           ["<https://api.github.com/repos/octo/repo/pulls?page=1>; rel=prev"]
           " " "https://api.github.com/repos/octo/repo/pulls?page=3"
           ("; " ++ rel_next)
           (Some " <https://api.github.com/repos/octo/repo/pulls?page=9>; rel=last"));
    try (vm_compute; reflexivity).
  apply Forall_cons; [split; vm_compute; reflexivity | apply Forall_nil].
Defined.

Lemma prefix_empty (needle : string) :
  String.prefix needle "" = true -> needle = "".
Proof. destruct needle; [reflexivity | discriminate]. Qed.

Lemma contains_empty (s : string) : contains "" s = true.
Proof. destruct s; reflexivity. Qed.

Lemma split_head (sep : ascii) (s part : string) (parts : list string) :
  split sep s = part :: parts -> exists rest, s = part ++ rest.
Proof.
  revert part parts. induction s as [| c s IH]; intros part parts; simpl.
  - intros H. injection H as <- _. exists "". reflexivity.
  - destruct (Ascii.eqb c sep).
    + intros H. injection H as <- _. exists (String c s). reflexivity.
    + destruct (split sep s) as [| p ps] eqn:Hs.
      * exfalso. exact (split_not_nil sep s Hs).
      * intros H. injection H as <- _.
        destruct (IH p ps eq_refl) as [rest ->]. exists rest. reflexivity.
Qed.

Lemma contains_part (sep : ascii) (needle s part : string) :
  In part (split sep s) -> contains needle part = true ->
  contains needle s = true.
Proof.
  revert part. induction s as [| c s IH]; intros part; simpl split.
  - intros [<- | []]. trivial.
  - destruct (Ascii.eqb c sep).
    + intros [<- | Hin] Hc.
      * simpl in Hc. rewrite orb_false_r in Hc. apply prefix_empty in Hc.
        subst. apply contains_empty.
      * cbn [contains]. rewrite (IH part Hin Hc). apply orb_true_r.
    + destruct (split sep s) as [| p ps] eqn:Hs;
        [exfalso; exact (split_not_nil sep s Hs) |].
      intros [<- | Hin] Hc.
      * cbn [contains] in Hc |- *. apply orb_true_iff in Hc.
        apply orb_true_iff. destruct Hc as [Hc | Hc].
        -- left. destruct (split_head sep s p ps Hs) as [rest ->].
           apply (prefix_app needle (String c p) rest Hc).
        -- right. apply (IH p (or_introl eq_refl) Hc).
      * cbn [contains]. rewrite (IH part (or_intror Hin) Hc).
        apply orb_true_r.
Qed.

Lemma first_next_none (parts : list string) :
  Forall (fun p => contains rel_next p = false) parts ->
  first_next parts = None.
Proof.
  induction 1 as [| p ps Hp _ IH]; [reflexivity |].
  simpl. rewrite Hp. exact IH.
Qed.

(** X28: a [Link] header that does not contain [rel_next] gives no next
    URL. *)
Theorem next_link_absent (header : string) :
  contains rel_next header = false -> next_link (Some header) = None.
Proof.
  intros Hno. destruct header as [| c l]; [reflexivity |].
  unfold next_link. apply first_next_none, Forall_forall. intros part Hin.
  destruct (contains rel_next part) eqn:Hc; [| reflexivity].
  rewrite (contains_part "," rel_next _ part Hin Hc) in Hno. discriminate.
Qed.

Lemma next_link_absent_witness :
  next_link
    (Some "<https://api.github.com/repos/octo/repo/pulls?page=1>; rel=prev")
  = None.
Proof. apply next_link_absent. vm_compute. reflexivity. Defined.

Section Pagination.
Context {item : Type}.
Variable server : string -> result (Response item).

Lemma paginate_bound (per_page : nat) :
  (forall url resp,
     server url = Ok resp -> (List.length (parsed resp) <= per_page)%nat) ->
  forall budget next_url items out,
    paginate server budget next_url items = Ok out ->
    (List.length out <= List.length items + budget * per_page)%nat.
Proof.
  intros Hpage. induction budget as [| budget IH]; intros next_url items out.
  - simpl. intros H. injection H as <-. lia.
  - cbn [paginate]. destruct next_url as [[| c u] |];
      try (intros H; injection H as <-; lia).
    unfold get_page.
    destruct (server (String c u)) as [resp |] eqn:Hresp; [| discriminate].
    cbn [bind fst snd]. specialize (Hpage _ _ Hresp).
    destruct (parsed resp) as [| x data] eqn:Hdata.
    + intros H. injection H as <-. lia.
    + intros H. apply IH in H. rewrite List.length_app in H. lia.
Qed.

Lemma paginate_pages (next_url : option string)
    (pages : list (Response item)) :
  pages_of server next_url pages ->
  forall budget items,
    paginate server budget next_url items
    = Ok (items ++ flat_map parsed (firstn budget pages))%list.
Proof.
  induction 1 as [| | url resp Hurl Hresp Hdata
                  | url resp rest Hurl Hresp Hdata _ IH];
    intros budget items.
  - destruct budget; simpl; rewrite app_nil_r; reflexivity.
  - destruct budget; simpl; rewrite app_nil_r; reflexivity.
  - destruct budget; simpl; [rewrite app_nil_r; reflexivity |].
    destruct url as [| c u]; [contradiction |].
    unfold get_page. rewrite Hresp. cbn [bind fst]. rewrite Hdata.
    rewrite app_nil_r. reflexivity.
  - destruct budget; [simpl; rewrite app_nil_r; reflexivity |].
    cbn [paginate firstn flat_map].
    destruct url as [| c u]; [contradiction |].
    unfold get_page. rewrite Hresp. cbn [bind fst snd].
    destruct (parsed resp) as [| x data] eqn:Hd; [contradiction |].
    rewrite IH, <- app_assoc. reflexivity.
Qed.

End Pagination.

(** X29: [get_paginated] returns at most [max_pages] pages: when no answer
    of the server holds more than [per_page] items, the result has at most
    [max_pages * per_page] items, and none for [max_pages] of 0 or less,
    whatever the links of the server are. *)
Theorem get_paginated_bound {item : Type}
    (server : string -> result (Response item)) (url : string)
    (max_pages : Z) (per_page : nat) (items : list item) :
  (forall u resp,
     server u = Ok resp -> (List.length (parsed resp) <= per_page)%nat) ->
  get_paginated server url max_pages = Ok items ->
  Z.of_nat (List.length items) <= Z.max 0 max_pages * Z.of_nat per_page.
Proof.
  intros Hpage Hget. unfold get_paginated in Hget.
  apply (paginate_bound server per_page Hpage) in Hget. simpl in Hget.
  rewrite <- Z2Nat.id with (n := Z.max 0 max_pages) by lia.
  rewrite <- Nat2Z.inj_mul. apply Nat2Z.inj_le.
  replace (Z.to_nat (Z.max 0 max_pages)) with (Z.to_nat max_pages) by lia.
  exact Hget.
Qed.

Lemma get_paginated_bound_witness :
  get_paginated two_pages
    "https://api.github.com/repos/octo/repo/pulls?page=1" 10
  = Ok [1; 2; 3]
  /\ Z.of_nat (List.length [1; 2; 3]) <= Z.max 0 10 * Z.of_nat 2.
Proof.
  split; [vm_compute; reflexivity |].
  apply (get_paginated_bound two_pages
           "https://api.github.com/repos/octo/repo/pulls?page=1" 10 2
           [1; 2; 3]); [| vm_compute; reflexivity].
  intros u resp. unfold two_pages.
  destruct (String.eqb u _); [intros H; injection H as <-; simpl; lia |].
  destruct (String.eqb u _); [intros H; injection H as <-; simpl; lia |].
  discriminate.
Defined.

(** X30: [get_paginated] follows the links: when the server links a chain
    of pages with items from [url] on, up to a missing or empty next URL or
    a page without items, the result is the items of the first [max_pages]
    pages of the chain, in the order of the pages; what lies beyond is
    dropped without notice. *)
Theorem get_paginated_pages {item : Type}
    (server : string -> result (Response item)) (url : string)
    (max_pages : Z) (pages : list (Response item)) :
  pages_of server (Some url) pages ->
  get_paginated server url max_pages
  = Ok (flat_map parsed (firstn (Z.to_nat max_pages) pages)).
Proof.
  intros Hpages. unfold get_paginated.
  rewrite (paginate_pages server _ _ Hpages). reflexivity.
Qed.

Lemma get_paginated_pages_witness :
  get_paginated two_pages
    "https://api.github.com/repos/octo/repo/pulls?page=1" 10
  = Ok [1; 2; 3]
  /\ get_paginated two_pages
       "https://api.github.com/repos/octo/repo/pulls?page=1" 1
     = Ok [1; 2].
Proof.
  assert (Hpages :
            pages_of two_pages
              (Some "https://api.github.com/repos/octo/repo/pulls?page=1")
              [mkResponse [1; 2]
                 (Some
                    ("<https://api.github.com/repos/octo/repo/pulls?page=2>; "
                     ++ rel_next
                     ++ ", <https://api.github.com/repos/octo/repo/pulls?page=2>; rel=last"));
               mkResponse [3]
                 (Some "<https://api.github.com/repos/octo/repo/pulls?page=1>; rel=prev")]).
  { apply pages_next; [discriminate | reflexivity | discriminate |].
    change (pages_of two_pages
              (Some "https://api.github.com/repos/octo/repo/pulls?page=2")
              [mkResponse [3]
                 (Some "<https://api.github.com/repos/octo/repo/pulls?page=1>; rel=prev")]).
    apply pages_next; [discriminate | reflexivity | discriminate |].
    apply pages_no_link. }
  split.
  - exact (get_paginated_pages two_pages _ 10 _ Hpages).
  - exact (get_paginated_pages two_pages _ 1 _ Hpages).
Defined.

End ApiMore.
